(** * hprocessing.ProcessEnviFile: region extraction and calibration

    A shallow embedding of [hprocessing/ProcessEnviFile.py]: band
    validation and filtering, grid geometry, per-band aggregation over a
    rectangle, calibration against the spectralon, and the table built by
    [getMultipleSpectra].

    Conventions of the embedding.
    - Python [int] is [Z]; a Python exception is the [Raise] branch of
      [result], carrying the exception class.
    - [int(a / b)] on integers is truncation of the true quotient, that is
      [Z.quot], for operands below 2^53 in magnitude (pixel coordinates).
      A zero divisor raises: [ZeroDivisionError] on Python integers, the
      class the embedding carries; on numpy integers, as read from a
      positions DataFrame, the quotient is inf or nan and [int] raises
      [OverflowError] or [ValueError] instead.  No statement below
      depends on that class.
    - Pixel values are integer sensor counts ([Z]); numpy reductions give
      IEEE binary64 numbers, here Rocq's primitive [float].  The sum inside
      [np.mean] is taken exactly and rounded once, which is what float64
      accumulation gives, in any order, while the absolute values sum to
      less than 2^53 (lemma [float64_sum_exact]).
    - A pandas DataFrame is its column labels and its rows of cells; the
      column labels of a table are pairwise distinct. *)

From Stdlib Require Import ZArith List Bool Lia Arith String Ascii.
From Stdlib Require Import Permutation Sorted.
From Stdlib Require Import Floats.
From Stdlib Require Import DecimalString.
Import ListNotations.

(* Decimal float literals denote the nearest binary64 value, as in Python. *)
Set Warnings "-inexact-float".

Open Scope Z_scope.

(** [String] also exports a [length]; lists are meant throughout. *)
Abbreviation length := Datatypes.length (only parsing).

(* ------------------------------------------------------------------ *)
(** ** Exceptions and the result monad *)

Inductive exn : Type :=
| ValueError
| IndexError
| KeyError
| ZeroDivisionError.

Inductive result (A : Type) : Type :=
| Ok (a : A)
| Raise (e : exn).

Arguments Ok {A} a.
Arguments Raise {A} e.

Definition bind {A B : Type} (m : result A) (k : A -> result B) : result B :=
  match m with
  | Ok a => k a
  | Raise e => Raise e
  end.

Declare Scope result_scope.
Delimit Scope result_scope with result.
Notation "x <- m ;; k" := (bind m (fun x => k))
  (at level 61, m at next level, right associativity) : result_scope.
Notation "' p <- m ;; k" := (bind m (fun x => match x with p => k end))
  (at level 61, p pattern, m at next level, right associativity) : result_scope.
Open Scope result_scope.

Definition is_ok {A : Type} (m : result A) : bool :=
  match m with Ok _ => true | Raise _ => false end.

(** [l[i]] for a non-negative index. *)
Definition getitem {A : Type} (l : list A) (i : nat) : result A :=
  match nth_error l i with
  | Some a => Ok a
  | None => Raise IndexError
  end.

(** Monadic map, left to right: the first exception wins. *)
Fixpoint mapM {A B : Type} (f : A -> result B) (l : list A) : result (list B) :=
  match l with
  | [] => Ok []
  | a :: r => b <- f a ;; bs <- mapM f r ;; Ok (b :: bs)
  end.

(** [range(n)]: empty when [n <= 0]. *)
Definition py_range (n : Z) : list Z :=
  map Z.of_nat (seq 0 (Z.to_nat n)).

(** [range(a, b)]. *)
Definition py_range2 (a b : Z) : list Z :=
  map (fun k => a + Z.of_nat k) (seq 0 (Z.to_nat (b - a))).

(** [int(a / b)] on Python integers: the true quotient, truncated toward
    zero; [ZeroDivisionError] at a zero divisor.  (On numpy integers the
    quotient at a zero divisor is inf or nan, and it is [int] that raises,
    [OverflowError] or [ValueError].) *)
Definition int_truediv (a b : Z) : result Z :=
  if b =? 0 then Raise ZeroDivisionError else Ok (Z.quot a b).

(* ------------------------------------------------------------------ *)
(** ** Python's [int()] on a bbl entry

    The bbl list holds [str], [int] or [bool] entries (class docstring).
    [int] of a string accepts surrounding whitespace, one optional sign and
    decimal digits, with single underscores between digits; anything else
    is a [ValueError].  A character of a [string] is the code point of the
    same number (0 to 255). *)

Inductive pyval : Type :=
| PInt (z : Z)
| PBool (b : bool)
| PStr (s : string).

(** The blanks [int()] skips at both ends of a string: the six C
    whitespace characters (tab to carriage return, and the space), and the
    two Latin-1 spaces U+0085 and U+00A0, which CPython turns into a space
    before it parses.  The separators 28 to 31 are not among them, although
    [str.isspace] holds of them: [int] raises [ValueError] on such a
    string. *)
Definition is_space (c : ascii) : bool :=
  let n := nat_of_ascii c in
  ((n =? 32) || ((9 <=? n) && (n <=? 13)) || (n =? 133) || (n =? 160))%nat.

Definition digit_of (c : ascii) : option Z :=
  let n := nat_of_ascii c in
  if ((48 <=? n) && (n <=? 57))%nat then Some (Z.of_nat n - 48) else None.

Fixpoint lstrip (s : list ascii) : list ascii :=
  match s with
  | c :: r => if is_space c then lstrip r else s
  | [] => []
  end.

Definition strip (s : list ascii) : list ascii :=
  rev (lstrip (rev (lstrip s))).

Fixpoint parse_digits (s : list ascii) (acc : Z) (after_digit : bool)
  : option Z :=
  match s with
  | [] => if after_digit then Some acc else None
  | c :: r =>
      match digit_of c with
      | Some d => parse_digits r (10 * acc + d) true
      | None =>
          if (Ascii.eqb c "_" && after_digit)%bool
          then match r with
               | [] => None
               | _ => parse_digits r acc false
               end
          else None
      end
  end.

Definition int_of_str (s : string) : option Z :=
  match strip (list_ascii_of_string s) with
  | c :: r =>
      if Ascii.eqb c "-" then option_map Z.opp (parse_digits r 0 false)
      else if Ascii.eqb c "+" then parse_digits r 0 false
      else parse_digits (c :: r) 0 false
  | [] => None
  end.

Definition py_int (v : pyval) : result Z :=
  match v with
  | PInt z => Ok z
  | PBool b => Ok (if b then 1 else 0)
  | PStr s => match int_of_str s with
              | Some z => Ok z
              | None => Raise ValueError
              end
  end.

(** A flag is good when [int(flag) == 1]. *)
Definition is_good (v : pyval) : bool :=
  match py_int v with
  | Ok z => z =? 1
  | Raise _ => false
  end.

(* ------------------------------------------------------------------ *)
(** ** validateWavelengths and removeBadBands *)

Section Bands.

Context {W V : Type}.

(** [validateWavelengths(wavelengths, bbl)]: the [ValueError] carries the
    message "Length of wavelengths (..) and bbl (..) is not equal.". *)
Definition validateWavelengths (wavelengths : list W) (bbl : list pyval)
  : result (list W * list pyval) :=
  if negb (length wavelengths =? length bbl)%nat then Raise ValueError
  else if (length wavelengths =? 139)%nat
       then Ok (skipn 1 wavelengths, skipn 1 bbl)
       else Ok (wavelengths, bbl).

(** The loop of [removeBadBands], entered at index [i] with the rest of
    [spectrum] still to visit.  [bbl[i]] is read and converted first, then
    [wavelengths[i]] when the band is kept; the two output lists grow
    together. *)
Fixpoint removeBadBands_from (i : nat) (spectrum : list V)
    (wavelengths : list W) (bbl : list pyval) : result (list W * list V) :=
  match spectrum with
  | [] => Ok ([], [])
  | refl :: rest =>
      flag <- getitem bbl i ;;
      n <- py_int flag ;;
      if n =? 1 then
        w <- getitem wavelengths i ;;
        '(ws, ss) <- removeBadBands_from (S i) rest wavelengths bbl ;;
        Ok (w :: ws, refl :: ss)
      else removeBadBands_from (S i) rest wavelengths bbl
  end.

Definition removeBadBands (spectrum : list V) (wavelengths : list W)
    (bbl : list pyval) : result (list W * list V) :=
  removeBadBands_from 0 spectrum wavelengths bbl.

End Bands.

(** The band filter as [ProcessEnviFile.__init__] runs it: validate, then
    filter the validated wavelengths by the validated flags.  Returns the
    validated pair and the list of good wavelengths. *)
Definition BandFilter {W : Type} (wavelengths : list W) (bbl : list pyval)
  : result (list W * list pyval * list W) :=
  '(wo, bo) <- validateWavelengths wavelengths bbl ;;
  '(w, _) <- removeBadBands wo wo bo ;;
  Ok (wo, bo, w).

(** The entries of [xs] whose flag is good, in order: the filter in the
    words of the specification. *)
Fixpoint keep_good {A : Type} (xs : list A) (bbl : list pyval) : list A :=
  match xs, bbl with
  | x :: xs', f :: bbl' =>
      if is_good f then x :: keep_good xs' bbl' else keep_good xs' bbl'
  | _, _ => []
  end.

Definition count_good (bbl : list pyval) : nat :=
  length (filter is_good bbl).

(* ------------------------------------------------------------------ *)
(** ** Numbers and numpy reductions *)

(** An integer as a binary64 number, rounded to nearest even. *)
Definition Z2float (z : Z) : float :=
  SF2Prim (binary_normalize prec emax z 0 false).

(** A numpy scalar as stored in a spectrum: [np.max] of counts is an
    integer, the other reductions are floats. *)
Inductive number : Type :=
| NInt (z : Z)
| NFloat (f : float).

(** [x.astype(float)] on one entry. *)
Definition astype_float (x : number) : float :=
  match x with
  | NInt z => Z2float z
  | NFloat f => f
  end.

Definition sumZ (l : list Z) : Z := fold_right Z.add 0 l.

(** [np.mean]: float64 sum divided by the count; 0/0 = nan on an empty
    input (numpy warns and returns nan).  The sum is the exact one,
    rounded once: the float64 sum of the values in any order while their
    absolute values sum to less than 2^53 ([float64_sum_exact]). *)
Definition np_mean (l : list Z) : float :=
  (Z2float (sumZ l) / Z2float (Z.of_nat (length l)))%float.

Fixpoint insert_sorted (x : Z) (l : list Z) : list Z :=
  match l with
  | [] => [x]
  | y :: r => if x <=? y then x :: y :: r else y :: insert_sorted x r
  end.

(** [np.sort]: ascending. *)
Definition np_sort (l : list Z) : list Z :=
  fold_right insert_sorted [] l.

(** [a[-n:]] for [n > 0]: the last [n] entries, all of them when there are
    fewer. *)
Definition last_n {A : Type} (n : nat) (l : list A) : list A :=
  skipn (length l - n)%nat l.

(** [np.median]: middle entry of the sorted values, or the mean of the two
    middle ones; nan on an empty input. *)
Definition np_median (l : list Z) : float :=
  let s := np_sort l in
  let n := length s in
  let h := (n / 2)%nat in
  if (n =? 0)%nat then nan
  else if Nat.odd n then np_mean [nth h s 0]
       else np_mean [nth (h - 1)%nat s 0; nth h s 0].

(** [np.max]: [ValueError] on an empty input. *)
Definition np_max (l : list Z) : result Z :=
  match l with
  | [] => Raise ValueError
  | x :: r => Ok (fold_right Z.max x r)
  end.

(* ------------------------------------------------------------------ *)
(** ** Grid geometry *)

(** The four-entry list [row_start, row_end, col_start, col_end]. *)
Record Edges : Type := mkEdges {
  row_start : Z;
  row_end : Z;
  col_start : Z;
  col_end : Z
}.

Definition height_of (e : Edges) : Z := row_end e - row_start e.
Definition width_of (e : Edges) : Z := col_end e - col_start e.

(** [getRealGridSize]: [grid] is [None] or a pair; a zero entry stands for
    one cell per pixel along that axis. *)
Definition getRealGridSize (grid : option (Z * Z)) (edges : Edges) : Z * Z :=
  match grid with
  | None => (row_end edges - row_start edges, col_end edges - col_start edges)
  | Some (g0, g1) =>
      let grid_n_rows :=
        if g0 =? 0 then row_end edges - row_start edges else g0 in
      let grid_n_columns :=
        if g1 =? 0 then col_end edges - col_start edges else g1 in
      (grid_n_rows, grid_n_columns)
  end.

(** [getEdgesForGrid(edges, grid_real)]. *)
Definition getEdgesForGrid (edges : Edges) (grid_real : Z * Z)
  : result (list Edges) :=
  height <- int_truediv (row_end edges - row_start edges) (fst grid_real) ;;
  width <- int_truediv (col_end edges - col_start edges) (snd grid_real) ;;
  n_rows <- int_truediv (row_end edges - row_start edges) height ;;
  let new_row_starts :=
    map (fun i => row_start edges + height * i) (py_range n_rows) in
  n_cols <- int_truediv (col_end edges - col_start edges) width ;;
  let new_col_starts :=
    map (fun i => col_start edges + width * i) (py_range n_cols) in
  Ok (flat_map (fun row_s =>
        map (fun col_s => mkEdges row_s (row_s + height) col_s (col_s + width))
            new_col_starts)
      new_row_starts).

(** [getGridElements(grid)]. *)
Definition getGridElements (grid : option (Z * Z)) : list (Z * Z) :=
  match grid with
  | None => [(0, 0)]
  | Some (g0, g1) =>
      if ((g0 =? 0) && (g1 =? 0))%bool then [(0, 0)]
      else list_prod (py_range g0) (py_range g1)
  end.

(** Pixel [(row, col)] lies in the half-open rectangle. *)
Definition in_edges (e : Edges) (row col : Z) : Prop :=
  row_start e <= row < row_end e /\ col_start e <= col < col_end e.

Definition inside (sub e : Edges) : Prop :=
  row_start e <= row_start sub /\ row_end sub <= row_end e /\
  col_start e <= col_start sub /\ col_end sub <= col_end e.

Definition disjoint (a b : Edges) : Prop :=
  forall row col, ~ (in_edges a row col /\ in_edges b row col).

(* ------------------------------------------------------------------ *)
(** ** Calibration *)

(** A numpy array after [np.squeeze]: zero- or one-dimensional. *)
Inductive ndarray : Type :=
| Arr0 (x : float)
| Arr1 (xs : list float).

(** [np.squeeze(xs).astype(float)] on a flat sequence: a single entry
    becomes a zero-dimensional array. *)
Definition squeeze_float (xs : list number) : ndarray :=
  match xs with
  | [x] => Arr0 (astype_float x)
  | _ => Arr1 (map astype_float xs)
  end.

Fixpoint zip_with (f : float -> float -> float) (a b : list float)
  : list float :=
  match a, b with
  | x :: a', y :: b' => f x y :: zip_with f a' b'
  | _, _ => []
  end.

(** [np.divide] with broadcasting; operands of different lengths cannot
    be broadcast ([ValueError]). *)
Definition np_divide (a b : ndarray) : result ndarray :=
  match a, b with
  | Arr0 x, Arr0 y => Ok (Arr0 (x / y)%float)
  | Arr0 x, Arr1 ys => Ok (Arr1 (map (fun y => (x / y)%float) ys))
  | Arr1 xs, Arr0 y => Ok (Arr1 (map (fun x => (x / y)%float) xs))
  | Arr1 xs, Arr1 ys =>
      if (length xs =? length ys)%nat
      then Ok (Arr1 (zip_with PrimFloat.div xs ys))
      else Raise ValueError
  end.

Definition np_scale (a : ndarray) (k : float) : ndarray :=
  match a with
  | Arr0 x => Arr0 (x * k)%float
  | Arr1 xs => Arr1 (map (fun x => (x * k)%float) xs)
  end.

(** [getCalibratedSpectrum(soil, spectralon, spectralon_factor)]. *)
Definition getCalibratedSpectrum (soil spectralon : list number)
    (spectralon_factor : float) : result ndarray :=
  q <- np_divide (squeeze_float soil) (squeeze_float spectralon) ;;
  Ok (np_scale q spectralon_factor).

(** The entries of an array, in order. *)
Definition values (a : ndarray) : list float :=
  match a with
  | Arr0 x => [x]
  | Arr1 xs => xs
  end.

(* ------------------------------------------------------------------ *)
(** ** Tables *)

(** Column labels: a wavelength, or one of the named columns.  Wavelength
    labels are numeric and never coincide with a name. *)
Inductive label (W : Type) : Type :=
| LWave (w : W)
| LName (s : string).

Arguments LWave {W} w.
Arguments LName {W} s.

Inductive cell : Type :=
| CNum (x : number)
| CStr (s : string).

Record DataFrame (W : Type) : Type := mkDataFrame {
  columns : list (label W);
  rows : list (list cell)
}.

Arguments mkDataFrame {W} columns rows.
Arguments columns {W} d.
Arguments rows {W} d.

(** [df.shape]. *)
Definition shape {W : Type} (df : DataFrame W) : nat * nat :=
  (length (rows df), length (columns df)).

(** [pd.concat(frames, ignore_index=True)] (and [axis=0]) on frames that
    carry the same labels, as all frames concatenated here do; no frames
    is a [ValueError]. *)
Definition pd_concat {W : Type} (frames : list (DataFrame W))
  : result (DataFrame W) :=
  match frames with
  | [] => Raise ValueError
  | d :: _ => Ok (mkDataFrame (columns d) (flat_map rows frames))
  end.

(** [df[name] = values] for a new column and a list: the list must have
    one entry per row ([ValueError] otherwise). *)
Definition set_column {W : Type} (df : DataFrame W) (name : string)
    (vals : list cell) : result (DataFrame W) :=
  if (length vals =? length (rows df))%nat
  then Ok (mkDataFrame (columns df ++ [LName name])
                       (map (fun rv => fst rv ++ [snd rv])
                            (combine (rows df) vals)))
  else Raise ValueError.

(** [df[name] = value] for a new column and a scalar. *)
Definition set_column_scalar {W : Type} (df : DataFrame W) (name : string)
    (v : cell) : DataFrame W :=
  mkDataFrame (columns df ++ [LName name]) (map (fun r => r ++ [v]) (rows df)).

(** The numeric content of a cell; a text cell cannot be cast to float. *)
Definition cell_number (c : cell) : result number :=
  match c with
  | CNum x => Ok x
  | CStr _ => Raise ValueError
  end.

(* ------------------------------------------------------------------ *)
(** ** The ProcessEnviFile object *)

(** The positions dictionary (class docstring): column name to the list
    of per-measurement values.  A missing name is a [KeyError], a missing
    index an [IndexError]; when the caller passes a pandas table instead,
    a missing row is a [KeyError] as well. *)
Definition positions_t : Type := list (string * list Z).

Fixpoint dict_get (d : positions_t) (key : string) : result (list Z) :=
  match d with
  | [] => Raise KeyError
  | (k, v) :: r => if String.eqb k key then Ok v else dict_get r key
  end.

Record ProcessEnviFile (W : Type) : Type := mkProcessEnviFile {
  image : Z -> Z -> nat -> Z;
  wavelengths_original : list W;
  bbl_original : list pyval;
  zone_list : list string;
  positions : positions_t;
  mask : option (Z -> Z -> Z);
  grid : option (Z * Z);
  index_of_meas : nat;
  wavelengths : list W
}.

Arguments mkProcessEnviFile {W}.
Arguments image {W} p.
Arguments wavelengths_original {W} p.
Arguments bbl_original {W} p.
Arguments zone_list {W} p.
Arguments positions {W} p.
Arguments mask {W} p.
Arguments grid {W} p.
Arguments index_of_meas {W} p.
Arguments wavelengths {W} p.

(** [ProcessEnviFile.__init__]. *)
Definition init {W : Type} (image : Z -> Z -> nat -> Z)
    (wavelengths : list W) (bbl : list pyval) (zone_list : list string)
    (positions : positions_t) (index_of_meas : nat)
    (mask : option (Z -> Z -> Z)) (grid : option (Z * Z))
  : result (ProcessEnviFile W) :=
  '(wo, bo, w) <- BandFilter wavelengths bbl ;;
  Ok (mkProcessEnviFile image wo bo zone_list positions mask grid
                        index_of_meas w).

Section Processor.

Context {W : Type}.
Variable self : ProcessEnviFile W.

(** [getEdgesFromPrefix(prefix)]. *)
Definition getEdgesFromPrefix (prefix : string) : result Edges :=
  let at_key (suffix : string) :=
    col <- dict_get (positions self) (prefix ++ suffix)%string ;;
    getitem col (index_of_meas self) in
  rs <- at_key "_row_start"%string ;;
  re <- at_key "_row_end"%string ;;
  cs <- at_key "_col_start"%string ;;
  ce <- at_key "_col_end"%string ;;
  Ok (mkEdges rs re cs ce).

(** [mask is not None and mask[row, col] == 1]: the pixel is skipped. *)
Definition skipped (row col : Z) : bool :=
  match mask self with
  | Some m => m row col =? 1
  | None => false
  end.

(** The inner two loops of [getMeanSpectrumFromRectangle] for band [i]:
    the list [roi]. *)
Definition getRoi (edges : Edges) (i : nat) : list Z :=
  flat_map (fun row =>
    flat_map (fun col =>
      if skipped row col then [] else [image self row col i])
      (py_range2 (col_start edges) (col_end edges)))
    (py_range2 (row_start edges) (row_end edges)).

(** What one band appends to [spectrum_mean]: one number, or nothing when
    [mode] is none of the four names. *)
Definition reduce_roi (mode : string) (roi : list Z) : result (list number) :=
  if String.eqb mode "median" then Ok [NFloat (np_median roi)]
  else if String.eqb mode "mean" then Ok [NFloat (np_mean roi)]
  else if String.eqb mode "max" then m <- np_max roi ;; Ok [NInt m]
  else if String.eqb mode "max10"
       then Ok [NFloat (np_mean (last_n 10 (np_sort roi)))]
       else Ok [].

(** The list [spectrum_mean] after the loop over all original bands. *)
Definition getSpectrumMean (edges : Edges) (mode : string)
  : result (list number) :=
  parts <- mapM (fun i => reduce_roi mode (getRoi edges i))
                (seq 0 (length (wavelengths_original self))) ;;
  Ok (List.concat parts).

(** [getMeanSpectrumFromRectangle(edges, mode)]. *)
Definition getMeanSpectrumFromRectangle (edges : Edges) (mode : string)
  : result (DataFrame W) :=
  spectrum_mean <- getSpectrumMean edges mode ;;
  '(wl, sp) <- removeBadBands spectrum_mean (wavelengths_original self)
                              (bbl_original self) ;;
  Ok (mkDataFrame (map LWave wl) [map CNum sp]).

Definition int_cell (z : Z) : cell := CNum (NInt z).

(** [getMeanSpectraFromSquareGrid(edges, mode)]; the labels it stores in
    [self.grid_elements] are read nowhere else. *)
Definition getMeanSpectraFromSquareGrid (edges : Edges) (mode : string)
  : result (DataFrame W) :=
  let grid_real := getRealGridSize (grid self) edges in
  let grid_elements := getGridElements (Some grid_real) in
  new_edges_list <- getEdgesForGrid edges grid_real ;;
  spectra_list <- mapM (fun new_edges =>
                          getMeanSpectrumFromRectangle new_edges mode)
                       new_edges_list ;;
  df <- pd_concat spectra_list ;;
  df <- set_column df "GridElement_Row"
                   (map (fun el => int_cell (fst el)) grid_elements) ;;
  set_column df "GridElement_Column"
             (map (fun el => int_cell (snd el)) grid_elements).

(** [getCalibratedSpectra(spectra, spectralon, spectralon_factor)].

    [spectra[self.wavelengths]] and [spectralon[self.wavelengths]] select
    columns by label.  In the tables this class builds the wavelength
    labels are pairwise distinct and are the leading columns, in the order
    of [self.wavelengths] (lemmas [rectangle_table] and
    [grid_table_columns]); the embedding takes the leading cells of a row.

    [apply(f, axis=1, raw=True)] calls [f] on the band values of every
    row.  With two or more labels (or none) every call returns one value
    per label and the results form a table, whose columns replace the
    band columns.  With a single label [np.squeeze] leaves a scalar on
    both sides, every call returns a scalar, and [apply] gives a Series of
    one entry per row; assigning a Series to a list of one label needs a
    Series of one entry and is a [ValueError] ("Columns must be same
    length as key") for any other number of rows. *)
Definition getCalibratedSpectra (spectra spectralon : DataFrame W)
    (spectralon_factor : float) : result (DataFrame W) :=
  let n := length (wavelengths self) in
  new_rows <- mapM (fun r =>
      soil <- mapM cell_number (firstn n r) ;;
      ref <- mapM cell_number (firstn n (hd [] (rows spectralon))) ;;
      cal <- getCalibratedSpectrum soil ref spectralon_factor ;;
      Ok (map (fun x => CNum (NFloat x)) (values cal) ++ skipn n r))
    (rows spectra) ;;
  if ((n =? 1) && negb (length (rows spectra) =? 1))%nat
  then Raise ValueError
  else Ok (mkDataFrame (columns spectra) new_rows).

(** [getMultipleSpectra()]. *)
Definition getMultipleSpectra : result (DataFrame W) :=
  spec_edges <- getEdgesFromPrefix "spec" ;;
  df_spectralon <- getMeanSpectrumFromRectangle spec_edges "max10" ;;
  zone_spectra_cali <- mapM (fun zone =>
      zone_edges <- getEdgesFromPrefix zone ;;
      df_zone <- getMeanSpectraFromSquareGrid zone_edges "median" ;;
      let df_zone := set_column_scalar df_zone "zone" (CStr zone) in
      getCalibratedSpectra df_zone df_spectralon 0.95%float)
    (zone_list self) ;;
  pd_concat zone_spectra_cali.

End Processor.

(* ------------------------------------------------------------------ *)
(** ** Reference definitions the code is compared with *)

(** Every flag can be read as an integer. *)
Definition flags_readable (bbl : list pyval) : Prop :=
  Forall (fun f => is_ok (py_int f) = true) bbl.

(** Filtering alone, in the words of the specification: the wavelengths
    whose flag, read as an integer, equals 1, in their input order; laid
    out as the band filter returns its result (the pair it filtered, then
    the wavelengths kept). *)
Definition filter_only {W : Type} (wavelengths : list W) (bbl : list pyval)
  : list W * list pyval * list W :=
  (wavelengths, bbl, keep_good wavelengths bbl).

(** The cell in grid row [i] and grid column [j] for cell size [h] by [w]:
    it starts at [start + i * cell_size] on each axis. *)
Definition cell_at (e : Edges) (h w i j : Z) : Edges :=
  mkEdges (row_start e + h * i) (row_start e + h * i + h)
          (col_start e + w * j) (col_start e + w * j + w).

(** All cells for [i] in [0 .. floor(height/h) - 1] and [j] in
    [0 .. floor(width/w) - 1], row-major. *)
Definition grid_cells (e : Edges) (h w : Z) : list Edges :=
  flat_map (fun i => map (fun j => cell_at e h w i j)
                         (py_range (width_of e / w)))
           (py_range (height_of e / h)).

(** The pixels of the rectangle that the mask does not skip, row-major. *)
Definition available_pixels {W : Type} (self : ProcessEnviFile W)
    (edges : Edges) : list (Z * Z) :=
  filter (fun p => negb (skipped self (fst p) (snd p)))
         (list_prod (py_range2 (row_start edges) (row_end edges))
                    (py_range2 (col_start edges) (col_end edges))).

(** Band by band: soil over reference, times the factor. *)
Definition calibrated_values (soil spectralon : list number)
    (spectralon_factor : float) : list float :=
  map (fun p => (astype_float (fst p) / astype_float (snd p)
                 * spectralon_factor)%float)
      (combine soil spectralon).

(** What the constructor establishes: flags and wavelengths agree in
    length, every flag can be read, and [wavelengths] holds the good
    bands. *)
Definition well_formed {W : Type} (self : ProcessEnviFile W) : Prop :=
  length (wavelengths_original self) = length (bbl_original self) /\
  flags_readable (bbl_original self) /\
  wavelengths self
  = keep_good (wavelengths_original self) (bbl_original self).

(** The effective number of grid cells the configured grid asks for in
    rectangle [e]: rows times columns. *)
Definition nominal_cells (grid : option (Z * Z)) (e : Edges) : Z :=
  fst (getRealGridSize grid e) * snd (getRealGridSize grid e).

(** The configured grid cuts rectangle [e] into exactly as many cells per
    axis as it names: cell sizes are at least 1 and
    [floor(extent / cell_size)] gives the count back. *)
Definition exact_grid (grid : option (Z * Z)) (e : Edges) : Prop :=
  let r := fst (getRealGridSize grid e) in
  let c := snd (getRealGridSize grid e) in
  0 < r <= height_of e /\ 0 < c <= width_of e /\
  height_of e / (height_of e / r) = r /\
  width_of e / (width_of e / c) = c.

(** A table row that starts with [n] numeric cells. *)
Definition numeric_prefix (n : nat) (row : list cell) : Prop :=
  exists xs rest, row = map CNum xs ++ rest /\ length xs = n.

(* ------------------------------------------------------------------ *)
(** ** A small processor, laid out like the test fixture *)

Definition demo_image (row col : Z) (i : nat) : Z :=
  100 * Z.of_nat (S i) + 3 * row + col.

Definition demo_positions : positions_t :=
  [("zone1_row_start", [10]); ("zone1_row_end", [15]);
   ("zone1_col_start", [5]); ("zone1_col_end", [8]);
   ("zone2_row_start", [25]); ("zone2_row_end", [28]);
   ("zone2_col_start", [15]); ("zone2_col_end", [18]);
   ("spec_row_start", [30]); ("spec_row_end", [35]);
   ("spec_col_start", [18]); ("spec_col_end", [25])]%string.

(** Three bands, the middle one flagged bad; [grid] as given. *)
Definition demo (zones : list string) (grid : option (Z * Z))
  : ProcessEnviFile Z :=
  mkProcessEnviFile demo_image [450; 460; 470]
    [PStr "1"; PStr "0"; PStr "1"] zones demo_positions None grid 0%nat
    [450; 470].

(* ------------------------------------------------------------------ *)
(** ** Date and time of the header: formatTime and readEnviHeader *)

(** [str(z)] for an integer. *)
Definition py_str (z : Z) : string :=
  NilZero.string_of_int (Z.to_int z).

(** [s.split(sep)] for a one-character separator: never empty. *)
Fixpoint split_on (sep : ascii) (s : string) : list string :=
  match s with
  | EmptyString => [EmptyString]
  | String c r =>
      if Ascii.eqb c sep then EmptyString :: split_on sep r
      else match split_on sep r with
           | p :: ps => String c p :: ps
           | [] => [String c EmptyString]
           end
  end.

(** A slice bound as Python resolves it against length [n]: a negative
    bound counts from the end, and the result is clamped to [0 .. n]. *)
Definition slice_bound (n : nat) (i : Z) : nat :=
  Z.to_nat (Z.max 0 (Z.min (Z.of_nat n)
                           (if i <? 0 then i + Z.of_nat n else i))).

(** [s[start:stop]]; [stop = None] is [s[start:]]. *)
Definition py_slice (s : string) (start : Z) (stop : option Z) : string :=
  let n := String.length s in
  let a := slice_bound n start in
  let b := match stop with
           | Some j => slice_bound n j
           | None => n
           end in
  substring a (b - a) s.

(** [s[i]]: [IndexError] outside [-len .. len - 1]. *)
Definition py_index (s : string) (i : Z) : result ascii :=
  let n := Z.of_nat (String.length s) in
  if ((- n <=? i) && (i <? n))%bool
  then match get (Z.to_nat (if i <? 0 then i + n else i)) s with
       | Some c => Ok c
       | None => Raise IndexError
       end
  else Raise IndexError.

(** [formatTime(time, ampm)]: unpacking the split into three names is a
    [ValueError] for any other number of fields; [int(hour)] is only
    evaluated when [ampm] starts with "P". *)
Definition formatTime (time ampm : string) : result string :=
  match split_on ":" time with
  | [hour; minute; second] =>
      first <- py_index ampm 0 ;;
      if Ascii.eqb first "P" then
        h <- py_int (PStr hour) ;;
        if h <? 12
        then Ok (py_str ((h + 12) mod 24) ++ ":" ++ minute ++ ":" ++ second)%string
        else Ok time
      else Ok time
  | _ => Raise ValueError
  end.

(** The header dictionary, restricted to its text entries. *)
Fixpoint header_get (d : list (string * string)) (key : string)
  : result string :=
  match d with
  | [] => Raise KeyError
  | (k, v) :: r => if String.eqb k key then Ok v else header_get r key
  end.

Definition newline : ascii := ascii_of_nat 10.

(** [readEnviHeader(header)]. *)
Definition readEnviHeader (header : list (string * string))
  : result (string * string) :=
  d <- header_get header "description" ;;
  let description := split_on newline d in
  datestring <- getitem description 0 ;;
  timestring <- getitem description 1 ;;
  let date := py_slice datestring 6 (Some (-1)) in
  let time := py_slice timestring 6 (Some (-6)) in
  ampm <- py_index timestring (-2) ;;
  let date_formatted :=
    (py_slice date 6 None ++ py_slice date 0 (Some 2)
     ++ py_slice date 3 (Some 5))%string in
  time_formatted <- formatTime time (String ampm EmptyString) ;;
  Ok (date_formatted, time_formatted).

(** Character [c] does not occur in [s]. *)
Definition free_of (c : ascii) (s : string) : Prop :=
  ~ In c (list_ascii_of_string s).

(* ------------------------------------------------------------------ *)
(** ** Masks (ProcessFullDataset.py): getLineFromPoints, getWoodenBarMask
    and getMask

    The entries of the masks table are pixel coordinates, read as integer
    columns; they reach the functions below as numpy scalars, whose
    division by zero gives inf or nan (with a warning) instead of raising.
    The mask array is a list of rows. *)

(** numpy scalar [+] and [-]: integers stay integers, anything with a
    float is float64. *)
Definition num_add (a b : number) : number :=
  match a, b with
  | NInt x, NInt y => NInt (x + y)
  | _, _ => NFloat (astype_float a + astype_float b)
  end.

Definition num_sub (a b : number) : number :=
  match a, b with
  | NInt x, NInt y => NInt (x - y)
  | _, _ => NFloat (astype_float a - astype_float b)
  end.

(** [getLineFromPoints(point1, point2)]: slope and intercept. *)
Definition getLineFromPoints (point1 point2 : number * number)
  : float * float :=
  let m := (astype_float (num_sub (snd point2) (snd point1))
            / astype_float (num_sub (fst point2) (fst point1)))%float in
  let c := (astype_float (snd point2) - m * astype_float (fst point2))%float in
  (m, c).

(** [getWoodenBarMask(point1, point2, height, imageshape)]. *)
Definition getWoodenBarMask (point1 point2 : number * number)
    (height : number) (imageshape : Z * Z) : list (Z * Z) :=
  let mc1 := getLineFromPoints point1 point2 in
  let mc2 := getLineFromPoints (num_add (fst point1) height, snd point1)
                               (num_add (fst point2) height, snd point2) in
  let woodenBarUpper (x : Z) := (fst mc1 * Z2float x + snd mc1)%float in
  let woodenBarLower (x : Z) := (fst mc2 * Z2float x + snd mc2)%float in
  filter (fun xy =>
            ((woodenBarLower (fst xy) <? Z2float (snd xy))%float
             && (Z2float (snd xy) <? woodenBarUpper (fst xy))%float)%bool)
         (list_prod (py_range (fst imageshape)) (py_range (snd imageshape))).

(** [np.ones(imageshape, dtype=int)]: a negative dimension is a
    [ValueError]. *)
Definition np_ones (imageshape : Z * Z) : result (list (list Z)) :=
  if ((fst imageshape <? 0) || (snd imageshape <? 0))%bool
  then Raise ValueError
  else Ok (repeat (repeat 1 (Z.to_nat (snd imageshape)))
                  (Z.to_nat (fst imageshape))).

(** Assignment of 0 to the entries [(row, column)] selected by [sel]. *)
Definition zero_where (sel : nat -> nat -> bool) (m : list (list Z))
  : list (list Z) :=
  map (fun ir =>
         map (fun jv => if sel (fst ir) (fst jv) then 0 else snd jv)
             (combine (seq 0 (length (snd ir))) (snd ir)))
      (combine (seq 0 (length m)) m).

(** [masks[key][index_of_meas]] on the masks table: a missing column and a
    missing row are both a [KeyError]. *)
Definition frame_get (masks : positions_t) (key : string) (i : nat)
  : result Z :=
  col <- dict_get masks key ;;
  match nth_error col i with
  | Some v => Ok v
  | None => Raise KeyError
  end.

Fixpoint foldM {A B : Type} (f : B -> A -> result B) (l : list A) (b : B)
  : result B :=
  match l with
  | [] => Ok b
  | a :: r => b' <- f b a ;; foldM f r b'
  end.

(** Pixel [(r, c)] is listed in [pixels]. *)
Definition listed (pixels : list (Z * Z)) (r c : nat) : bool :=
  existsb (fun xy => ((fst xy =? Z.of_nat r) && (snd xy =? Z.of_nat c))%bool)
          pixels.

(** The bar of number [i] as [getMask] reads it from the table. *)
Definition read_bar (masks : positions_t) (index_of_meas : nat)
    (imageshape : Z * Z) (i : Z) : result (list (Z * Z)) :=
  let key (suffix : string) := ("bar" ++ py_str i ++ suffix)%string in
  p1_x <- frame_get masks (key "_p1_x"%string) index_of_meas ;;
  p1_y <- frame_get masks (key "_p1_y"%string) index_of_meas ;;
  p2_x <- frame_get masks (key "_p2_x"%string) index_of_meas ;;
  p2_y <- frame_get masks (key "_p2_y"%string) index_of_meas ;;
  height <- frame_get masks (key "_height"%string) index_of_meas ;;
  Ok (getWoodenBarMask (NInt p1_x, NInt p1_y) (NInt p2_x, NInt p2_y)
                       (NInt height) imageshape).

(** [getMask(masks, index_of_meas, imageshape)]. *)
Definition getMask (masks : positions_t) (index_of_meas : nat)
    (imageshape : Z * Z) : result (list (list Z)) :=
  mask <- np_ones imageshape ;;
  start_row <- frame_get masks "start_row"%string index_of_meas ;;
  end_row <- frame_get masks "end_row"%string index_of_meas ;;
  start_col <- frame_get masks "start_col"%string index_of_meas ;;
  end_col <- frame_get masks "end_col"%string index_of_meas ;;
  let n_rows := Z.to_nat (fst imageshape) in
  let n_cols := Z.to_nat (snd imageshape) in
  let mask := zero_where (fun r _ => (r <? slice_bound n_rows start_row)%nat)
                         mask in
  let mask := zero_where (fun r _ => (slice_bound n_rows end_row <=? r)%nat)
                         mask in
  let mask := zero_where (fun _ c => (c <? slice_bound n_cols start_col)%nat)
                         mask in
  let mask := zero_where (fun _ c => (slice_bound n_cols end_col <=? c)%nat)
                         mask in
  foldM (fun mask i =>
           wooden_bar <- read_bar masks index_of_meas imageshape i ;;
           Ok (zero_where (listed wooden_bar) mask))
        [1; 2; 3; 4] mask.

(** [mask[row, col]] for an index inside the array. *)
Definition mask_at (m : list (list Z)) (row col : Z) : Z :=
  nth (Z.to_nat col) (nth (Z.to_nat row) m []) 0.

(** A masks table with a window and four unused bars, for 8 x 8 images. *)
Definition demo_masks : positions_t :=
  [("start_row", [2]); ("end_row", [6]); ("start_col", [1]);
   ("end_col", [7]);
   ("bar1_p1_x", [3]); ("bar1_p1_y", [2]); ("bar1_p2_x", [5]);
   ("bar1_p2_y", [6]); ("bar1_height", [2]);
   ("bar2_p1_x", [0]); ("bar2_p1_y", [0]); ("bar2_p2_x", [0]);
   ("bar2_p2_y", [0]); ("bar2_height", [0]);
   ("bar3_p1_x", [0]); ("bar3_p1_y", [0]); ("bar3_p2_x", [0]);
   ("bar3_p2_y", [0]); ("bar3_height", [0]);
   ("bar4_p1_x", [0]); ("bar4_p1_y", [0]); ("bar4_p2_x", [0]);
   ("bar4_p2_y", [0]); ("bar4_height", [0])]%string.

(* ------------------------------------------------------------------ *)
(** ** findNearestDate (ProcessFullDataset.py)

    Timestamps are their integer values (pandas keeps nanoseconds);
    [Timedelta.total_seconds], which belongs to pandas, is a parameter. *)

(** [min(l, key=key)]: the first entry with the least key; [ValueError]
    on an empty sequence. *)
Definition py_min_key {A : Type} (key : A -> Z) (l : list A) : result A :=
  match l with
  | [] => Raise ValueError
  | x :: r =>
      Ok (fold_left (fun best y => if key y <? key best then y else best) r x)
  end.

Section NearestDate.

Variable total_seconds : Z -> float.

(** [findNearestDate(date_list, date)]. *)
Definition findNearestDate (date_list : list Z) (date : Z)
  : result (Z * float) :=
  nearest_date <- py_min_key (fun x => Z.abs (x - date)) date_list ;;
  Ok (nearest_date, (total_seconds (nearest_date - date)%Z / 60)%float).

End NearestDate.

(* ------------------------------------------------------------------ *)
(** ** Further reference definitions *)

(** The one-pixel rectangle at pixel [p]. *)
Definition unit_cell (p : Z * Z) : Edges :=
  mkEdges (fst p) (fst p + 1) (snd p) (snd p + 1).

(** All pixels of a rectangle, row-major. *)
Definition pixels_of (e : Edges) : list (Z * Z) :=
  list_prod (py_range2 (row_start e) (row_end e))
            (py_range2 (col_start e) (col_end e)).

(** Selection by label, as pandas resolves it: cell [c] stands in row [r]
    under the column labelled [l], and [l] labels no other column. *)
Definition cell_under {W : Type} (cols : list (label W)) (r : list cell)
    (l : label W) (c : cell) : Prop :=
  exists i, nth_error cols i = Some l /\ nth_error r i = Some c /\
            forall j, nth_error cols j = Some l -> j = i.

(** [c] shifted left by [k] bits; [c] itself when [k] is not positive. *)
Definition shiftl_pos (c : positive) (k : Z) : positive :=
  match k with
  | Zpos p => Pos.iter xO c p
  | _ => c
  end.

(** The binary64 number nearest to an integer, as the specification of
    the float operations writes it. *)
Definition Z2SF (z : Z) : spec_float := binary_normalize prec emax z 0 false.

(** [f] is obtained by adding up the entries of [l] in binary64, starting
    from nothing or from single entries converted to float64, in some
    order and some grouping: what any float64 accumulation of the values
    computes, numpy's pairwise summation with its eight running sums
    included. *)
Inductive float64_sum : list Z -> float -> Prop :=
| sum_none : float64_sum [] 0%float
| sum_one (x : Z) : float64_sum [x] (Z2float x)
| sum_add (l1 l2 : list Z) (f1 f2 : float) :
    float64_sum l1 f1 -> float64_sum l2 f2 ->
    float64_sum (l1 ++ l2) (f1 + f2)%float
| sum_perm (l l' : list Z) (f : float) :
    Permutation l l' -> float64_sum l f -> float64_sum l' f.

(** [x] is a nan. *)
Definition is_nan (x : float) : Prop := Prim2SF x = S754_nan.

(** The four border assignments of [getMask] leave entry [(r, c)] alone. *)
Definition in_window (n_rows n_cols : nat) (sr er sc ec : Z) (r c : nat)
  : bool :=
  (negb (r <? slice_bound n_rows sr)%nat
   && negb (slice_bound n_rows er <=? r)%nat
   && negb (c <? slice_bound n_cols sc)%nat
   && negb (slice_bound n_cols ec <=? c)%nat)%bool.

(* ================================================================== *)
(** * Properties *)

Example np_mean_ex : np_mean [1; 2; 4] = (7 / 3)%float.
Proof. reflexivity. Qed.

Example np_median_ex : np_median [5; 1; 4; 2] = 3%float.
Proof. reflexivity. Qed.

Example np_mean_empty : np_mean [] = nan.
Proof. reflexivity. Qed.

Example max10_ex :
  np_mean (last_n 10 (np_sort [1; 12; 3; 4; 5; 6; 7; 8; 9; 10; 11; 2]))
  = 7.5%float.
Proof. reflexivity. Qed.

(** The expectations of the test suite for the grid helpers. *)
Example getRealGridSize_tests :
  map (fun g => getRealGridSize g (mkEdges 10 15 5 8))
      [Some (1, 1); Some (2, 3); Some (0, 0); None]
  = [(1, 1); (2, 3); (5, 3); (5, 3)].
Proof. reflexivity. Qed.

Example getGridElements_tests :
  map getGridElements [Some (1, 1); Some (2, 1); Some (0, 0); None]
  = [[(0, 0)]; [(0, 0); (1, 0)]; [(0, 0)]; [(0, 0)]].
Proof. reflexivity. Qed.

Example py_int_ex :
  map py_int [PStr "1"; PStr " 0 "; PStr "1_0"; PStr "x"; PBool true]
  = [Ok 1; Ok 0; Ok 10; Raise ValueError; Ok 1].
Proof. reflexivity. Qed.

(** Blanks around the digits: a tab, a line feed and U+00A0 are skipped,
    the separators 28 to 31 and a blank inside the number are not. *)
Example py_int_blanks :
  map (fun n => py_int (PStr (String (ascii_of_nat n) "1")))
      [9; 10; 13; 32; 133; 160; 28; 29; 30; 31; 0; 127; 161]%nat
  = [Ok 1; Ok 1; Ok 1; Ok 1; Ok 1; Ok 1; Raise ValueError; Raise ValueError;
     Raise ValueError; Raise ValueError; Raise ValueError; Raise ValueError;
     Raise ValueError] /\
  map py_int [PStr " +1_0 "; PStr "-0"; PStr "0_1"; PStr "1 2"; PStr "- 1";
              PStr "1__0"; PStr "_1"; PStr "1_"; PStr ""; PStr " "; PStr "+"]
  = [Ok 10; Ok 0; Ok 1; Raise ValueError; Raise ValueError; Raise ValueError;
     Raise ValueError; Raise ValueError; Raise ValueError; Raise ValueError;
     Raise ValueError].
Proof. split; reflexivity. Qed.

(** A flag or an hour that starts with the separator 28 is not read as a
    number: the filter, the constructor and [formatTime] raise
    [ValueError] on it. *)
Example separator_is_no_blank :
  let s := String (ascii_of_nat 28) "1" in
  removeBadBands [7] [450] [PStr s] = Raise ValueError /\
  init demo_image [450] [PStr s] [] demo_positions 0 None None
  = Raise ValueError /\
  formatTime (s ++ ":02:24") "P" = Raise ValueError.
Proof. cbv zeta. repeat split; reflexivity. Qed.

(* ------------------------------------------------------------------ *)
(** ** Band filter *)

Lemma getitem_middle {A : Type} (pre : list A) (x : A) (post : list A) :
  getitem (pre ++ x :: post) (length pre) = Ok x.
Proof.
  unfold getitem. rewrite nth_error_app2 by lia.
  rewrite Nat.sub_diag. reflexivity.
Qed.

Lemma removeBadBands_from_keep {W V : Type} (spectrum : list V) :
  forall (pw wl : list W) (pb bbl : list pyval),
    length pw = length pb ->
    length wl = length bbl ->
    length spectrum = length bbl ->
    flags_readable bbl ->
    removeBadBands_from (length pw) spectrum (pw ++ wl) (pb ++ bbl)
    = Ok (keep_good wl bbl, keep_good spectrum bbl).
Proof.
  induction spectrum as [| refl rest IH]; intros pw wl pb bbl Hp Hw Hs Hr.
  - destruct bbl; [| discriminate]. destruct wl; [| discriminate].
    reflexivity.
  - destruct bbl as [| f bbl]; [discriminate |].
    destruct wl as [| w wl]; [discriminate |].
    inversion Hr as [| ? ? Hf Hr']; subst.
    simpl in Hw, Hs.
    assert (IH' : removeBadBands_from (S (length pw)) rest
                    (pw ++ w :: wl) (pb ++ f :: bbl)
                  = Ok (keep_good wl bbl, keep_good rest bbl)).
    { specialize (IH (pw ++ [w]) wl (pb ++ [f]) bbl).
      rewrite !length_app in IH. simpl in IH.
      rewrite <- !app_assoc in IH. simpl in IH.
      replace (length pw + 1)%nat with (S (length pw)) in IH by lia.
      apply IH; auto; lia. }
    cbn [removeBadBands_from keep_good].
    rewrite Hp at 1. rewrite getitem_middle. cbn [bind].
    unfold is_good.
    destruct (py_int f) as [n | e]; [| discriminate Hf].
    cbn [bind].
    destruct (n =? 1).
    + rewrite getitem_middle. cbn [bind]. rewrite IH'. reflexivity.
    + exact IH'.
Qed.

Lemma keep_good_length {A : Type} (xs : list A) :
  forall bbl, length xs = length bbl ->
              length (keep_good xs bbl) = count_good bbl.
Proof.
  unfold count_good.
  induction xs as [| x xs IH]; intros [| f bbl] H; try discriminate.
  - reflexivity.
  - simpl. destruct (is_good f); simpl; rewrite IH; auto.
Qed.

(** The filter written with the list library: pair every entry with its
    flag, keep the pairs with a good flag, forget the flags. *)
Lemma keep_good_filter {A : Type} (xs : list A) :
  forall bbl,
    keep_good xs bbl
    = map fst (filter (fun p => is_good (snd p)) (combine xs bbl)).
Proof.
  induction xs as [| x xs IH]; intros [| f bbl]; try reflexivity.
  simpl. destruct (is_good f); simpl; rewrite IH; reflexivity.
Qed.

(** [removeBadBands] on equal-length sequences whose flags can be read as
    integers: exactly the entries whose flag reads as 1 are returned, in
    their input order, so both outputs have as many entries as there are
    flags equal to 1. *)
Lemma removeBadBands_keeps_good {W V : Type} (spectrum : list V)
    (wavelengths : list W) (bbl : list pyval) :
  length wavelengths = length bbl ->
  length spectrum = length bbl ->
  flags_readable bbl ->
  removeBadBands spectrum wavelengths bbl
  = Ok (keep_good wavelengths bbl, keep_good spectrum bbl) /\
  keep_good wavelengths bbl
  = map fst (filter (fun p => is_good (snd p)) (combine wavelengths bbl)) /\
  length (keep_good wavelengths bbl) = count_good bbl /\
  length (keep_good spectrum bbl) = count_good bbl.
Proof.
  intros Hw Hs Hr. repeat split.
  - exact (removeBadBands_from_keep spectrum [] wavelengths [] bbl
             eq_refl Hw Hs Hr).
  - apply keep_good_filter.
  - apply keep_good_length; assumption.
  - apply keep_good_length; assumption.
Qed.

Example removeBadBands_keeps_good_ex :
  removeBadBands [7; 8; 9; 9] [450; 460; 470; 470]
                 [PStr "1"; PInt 0; PBool true; PStr " 1"]
  = Ok ([450; 470; 470], [7; 9; 9]).
Proof. reflexivity. Qed.

(** C8: wavelength and flag sequences of differing lengths make
    [validateWavelengths] raise [ValueError] (the length-mismatch error),
    and so the band filter raises it as well and returns no result. *)
Theorem validateWavelengths_mismatch {W : Type} (wavelengths : list W)
    (bbl : list pyval) :
  length wavelengths <> length bbl ->
  validateWavelengths wavelengths bbl = Raise ValueError /\
  BandFilter wavelengths bbl = Raise ValueError.
Proof.
  intros Hne. unfold BandFilter, validateWavelengths.
  destruct (Nat.eqb_spec (length wavelengths) (length bbl)) as [E | _].
  - contradiction.
  - simpl. split; reflexivity.
Qed.

Lemma validateWavelengths_mismatch_witness :
  length [450; 460] <> length [PInt 1] /\
  validateWavelengths [450; 460] [PInt 1] = Raise ValueError /\
  BandFilter [450; 460] [PInt 1] = Raise ValueError.
Proof.
  split.
  - simpl. lia.
  - apply (validateWavelengths_mismatch [450; 460] [PInt 1]). simpl. lia.
Defined.

Lemma validateWavelengths_Ok {W : Type} (wl wo : list W) (bbl bo : list pyval) :
  validateWavelengths wl bbl = Ok (wo, bo) -> length wo = length bo.
Proof.
  unfold validateWavelengths.
  destruct (Nat.eqb_spec (length wl) (length bbl)) as [E | E];
    [| discriminate]. cbn [negb].
  destruct (length wl =? 139)%nat; intros H; injection H as <- <-.
  - destruct wl, bbl; simpl in *; lia.
  - exact E.
Qed.

(** What [validateWavelengths] returns on an equal-length pair: the pair
    without its first entries when there are 139 wavelengths, the pair
    itself otherwise. *)
Lemma validateWavelengths_aligned {W : Type} (wavelengths : list W)
    (bbl : list pyval) :
  length wavelengths = length bbl ->
  validateWavelengths wavelengths bbl
  = Ok (if (length wavelengths =? 139)%nat
        then (tl wavelengths, tl bbl) else (wavelengths, bbl)).
Proof.
  intros Hlen. unfold validateWavelengths.
  rewrite <- Hlen, Nat.eqb_refl. cbn [negb].
  destruct (length wavelengths =? 139)%nat; [| reflexivity].
  destruct wavelengths, bbl; reflexivity.
Qed.

(** Through the constructor path: the good wavelengths are those of the
    validated pair, whose flags are the only ones read. *)
Lemma BandFilter_of_validated {W : Type} (wavelengths wo : list W)
    (bbl bo : list pyval) :
  flags_readable bo ->
  validateWavelengths wavelengths bbl = Ok (wo, bo) ->
  BandFilter wavelengths bbl = Ok (wo, bo, keep_good wo bo).
Proof.
  intros Hread Hv.
  pose proof (validateWavelengths_Ok _ _ _ _ Hv) as Hlen.
  unfold BandFilter. rewrite Hv. cbn [bind]. unfold removeBadBands.
  pose proof (removeBadBands_from_keep wo [] wo [] bo eq_refl Hlen Hlen Hread)
    as Hk.
  cbn [length app] in Hk. rewrite Hk. reflexivity.
Qed.

Lemma flags_readable_repeat (f : pyval) (n : nat) :
  is_ok (py_int f) = true -> flags_readable (repeat f n).
Proof.
  intros Hf. apply Forall_forall. intros g Hin.
  apply repeat_spec in Hin. now subst g.
Qed.

Lemma count_good_cons (f : pyval) (bbl : list pyval) :
  count_good (f :: bbl)
  = ((if is_good f then 1 else 0) + count_good bbl)%nat.
Proof. unfold count_good. cbn [filter]. now destruct (is_good f). Qed.

(** C6, as stated, fails: 139 wavelengths with 139 flags that all equal 1
    are an equal-length pair, yet the band filter returns 138 wavelengths,
    not 139: the first wavelength is dropped with its flag before any
    flag is looked at. *)
Lemma BandFilter_139_good_flags_138_bands :
  let wavelengths := 0 :: repeat 500 138 in
  let bbl := repeat (PInt 1) 139 in
  length wavelengths = length bbl /\
  count_good bbl = 139%nat /\
  exists wo bo w,
    BandFilter wavelengths bbl = Ok (wo, bo, w) /\
    length w = 138%nat /\
    length w <> count_good bbl.
Proof.
  cbv zeta. split; [reflexivity |]. split; [reflexivity |].
  exists (repeat 500 138), (repeat (PInt 1) 138), (repeat 500 138).
  split; [vm_compute; reflexivity |].
  split; [apply repeat_length |].
  rewrite repeat_length. vm_compute. discriminate.
Qed.

(** C6, amended: for every equal-length pair, the band filter first
    aligns the pair (139 entries lose their first entry, any other length
    stays) and, when every flag that is left can be read as an integer,
    returns exactly the wavelengths whose flag reads as 1, in their input
    order, nothing reordered and nothing merged.  The output has as many
    entries as the aligned flags hold a 1: the number of flags equal to 1
    for every length but 139, and for 139 entries that number without the
    first flag. *)
Theorem BandFilter_keeps_flagged_after_alignment {W : Type}
    (wavelengths : list W) (bbl : list pyval) :
  length wavelengths = length bbl ->
  let wo := if (length wavelengths =? 139)%nat
            then tl wavelengths else wavelengths in
  let bo := if (length wavelengths =? 139)%nat then tl bbl else bbl in
  flags_readable bo ->
  BandFilter wavelengths bbl = Ok (wo, bo, keep_good wo bo) /\
  keep_good wo bo
  = map fst (filter (fun p => is_good (snd p)) (combine wo bo)) /\
  length (keep_good wo bo) = count_good bo /\
  (length wavelengths <> 139%nat ->
   length (keep_good wo bo) = count_good bbl) /\
  (length wavelengths = 139%nat ->
   count_good bbl
   = ((if is_good (hd (PInt 0) bbl) then 1 else 0)
      + length (keep_good wo bo))%nat).
Proof.
  intros Hlen wo bo Hread.
  pose proof (validateWavelengths_aligned wavelengths bbl Hlen) as Hv.
  assert (Hv' : validateWavelengths wavelengths bbl = Ok (wo, bo)).
  { rewrite Hv. subst wo bo.
    destruct (length wavelengths =? 139)%nat; reflexivity. }
  pose proof (validateWavelengths_Ok _ _ _ _ Hv') as Hlo.
  split; [exact (BandFilter_of_validated _ _ _ _ Hread Hv') |].
  split; [apply keep_good_filter |].
  split; [now apply keep_good_length |].
  split; intros H.
  - rewrite keep_good_length by exact Hlo. subst bo.
    destruct (Nat.eqb_spec (length wavelengths) 139);
      [contradiction | reflexivity].
  - rewrite keep_good_length by exact Hlo. subst bo.
    rewrite H. cbn [Nat.eqb].
    destruct bbl as [| f bbl]; [rewrite H in Hlen; discriminate |].
    cbn [hd tl]. apply count_good_cons.
Qed.

Lemma BandFilter_keeps_flagged_after_alignment_witness :
  BandFilter [450; 460; 470; 470] [PStr "1"; PInt 0; PBool true; PStr " 1"]
  = Ok ([450; 460; 470; 470], [PStr "1"; PInt 0; PBool true; PStr " 1"],
        [450; 470; 470]) /\
  length [450; 470; 470]
  = count_good [PStr "1"; PInt 0; PBool true; PStr " 1"].
Proof.
  pose proof (BandFilter_keeps_flagged_after_alignment
                [450; 460; 470; 470]
                [PStr "1"; PInt 0; PBool true; PStr " 1"] eq_refl) as H.
  cbv zeta in H. cbn [length Nat.eqb] in H.
  assert (Hread : flags_readable [PStr "1"; PInt 0; PBool true; PStr " 1"])
    by (repeat constructor).
  destruct (H Hread) as [Hb [_ [_ [Hc _]]]].
  split; [exact Hb |]. apply Hc. discriminate.
Defined.

(** C7: on equal-length sequences whose flags can be read, the band
    filter on exactly 139 wavelengths is the specification's filter
    applied after index 0 is discarded from both sequences (the first
    flag is never read); on any other number of wavelengths it is that
    filter applied to the sequences as they are. *)
Theorem BandFilter_drops_first_of_139 {W : Type} (wavelengths : list W)
    (bbl : list pyval) :
  length wavelengths = length bbl ->
  (length wavelengths = 139%nat ->
   flags_readable (tl bbl) ->
   BandFilter wavelengths bbl
   = Ok (filter_only (tl wavelengths) (tl bbl))) /\
  (length wavelengths <> 139%nat ->
   flags_readable bbl ->
   BandFilter wavelengths bbl = Ok (filter_only wavelengths bbl)).
Proof.
  intros Hlen.
  pose proof (validateWavelengths_aligned wavelengths bbl Hlen) as Hv.
  unfold filter_only. split; intros H Hread.
  - rewrite H in Hv. cbn [Nat.eqb] in Hv.
    exact (BandFilter_of_validated _ _ _ _ Hread Hv).
  - destruct (Nat.eqb_spec (length wavelengths) 139) as [E | _];
      [contradiction |].
    exact (BandFilter_of_validated _ _ _ _ Hread Hv).
Qed.

Lemma BandFilter_drops_first_of_139_witness :
  BandFilter (0 :: 450 :: repeat 500 137)
             (PStr "x" :: PInt 0 :: repeat (PInt 1) 137)
  = Ok (450 :: repeat 500 137, PInt 0 :: repeat (PInt 1) 137,
        repeat 500 137) /\
  BandFilter [0; 450; 500] [PInt 1; PInt 0; PInt 1]
  = Ok ([0; 450; 500], [PInt 1; PInt 0; PInt 1], [0; 500]).
Proof.
  split.
  - refine (proj1 (BandFilter_drops_first_of_139
                     (0 :: 450 :: repeat 500 137)
                     (PStr "x" :: PInt 0 :: repeat (PInt 1) 137) _) _ _).
    + cbn [length]. now rewrite !repeat_length.
    + cbn [length]. now rewrite repeat_length.
    + cbn [tl]. constructor; [reflexivity |].
      now apply flags_readable_repeat.
  - refine (proj2 (BandFilter_drops_first_of_139 [0; 450; 500]
                     [PInt 1; PInt 0; PInt 1] _) _ _).
    + reflexivity.
    + cbn [length]. discriminate.
    + repeat constructor.
Defined.

(* ------------------------------------------------------------------ *)
(** ** Grid geometry *)

Lemma In_py_range (n i : Z) : In i (py_range n) <-> 0 <= i < n.
Proof.
  unfold py_range. rewrite in_map_iff. split.
  - intros [k [<- Hk]]. apply in_seq in Hk. lia.
  - intros H. exists (Z.to_nat i). split; [lia |]. apply in_seq. lia.
Qed.

Lemma length_py_range (n : Z) : length (py_range n) = Z.to_nat n.
Proof. unfold py_range. now rewrite length_map, length_seq. Qed.

Lemma int_truediv_pos (a b : Z) :
  0 <= a -> 0 < b -> int_truediv a b = Ok (a / b).
Proof.
  intros Ha Hb. unfold int_truediv.
  destruct (Z.eqb_spec b 0); [lia |].
  now rewrite Z.quot_div_nonneg by lia.
Qed.

(** A truncated quotient of at least 1 over a positive extent means a
    positive count that does not exceed the extent. *)
Lemma quot_ge_1 (a b : Z) : 0 < a -> 1 <= Z.quot a b -> 0 < b <= a.
Proof.
  intros Ha Hq.
  destruct (Z.lt_trichotomy b 0) as [Hb | [Hb | Hb]].
  - assert (Z.quot a b <= 0); [| lia].
    replace b with (- (- b)) by lia. rewrite Z.quot_opp_r by lia.
    assert (0 <= Z.quot a (- b)) by (apply Z.quot_pos; lia). lia.
  - subst b. destruct a; cbv in Hq; contradiction || (exfalso; now apply Hq).
  - split; [lia |].
    destruct (Z_le_gt_dec b a); [assumption |].
    rewrite Z.quot_small in Hq by lia. lia.
Qed.

Lemma flat_map_map_comp {A B C : Type} (f : B -> list C) (g : A -> B)
    (l : list A) :
  flat_map f (map g l) = flat_map (fun a => f (g a)) l.
Proof.
  induction l as [| a l IH]; simpl; [reflexivity | now rewrite IH].
Qed.

Lemma length_flat_map_const {A B : Type} (f : A -> list B) (k : nat)
    (l : list A) :
  (forall a, length (f a) = k) ->
  length (flat_map f l) = (length l * k)%nat.
Proof.
  intros Hk. induction l as [| a l IH]; simpl; [reflexivity |].
  rewrite length_app, Hk, IH. reflexivity.
Qed.

(** Under a positive grid count that does not exceed the extent on either
    axis, the code returns the cells of [grid_cells]. *)
Lemma getEdgesForGrid_cells (e : Edges) (g0 g1 : Z) :
  0 < g0 <= height_of e ->
  0 < g1 <= width_of e ->
  getEdgesForGrid e (g0, g1)
  = Ok (grid_cells e (height_of e / g0) (width_of e / g1)).
Proof.
  intros H0 H1.
  assert (Hh : 0 < height_of e / g0) by (apply Z.div_str_pos; lia).
  assert (Hw : 0 < width_of e / g1) by (apply Z.div_str_pos; lia).
  unfold getEdgesForGrid, grid_cells, cell_at. unfold height_of, width_of in *.
  cbn [fst snd].
  rewrite (int_truediv_pos (row_end e - row_start e) g0) by lia. cbn [bind].
  rewrite (int_truediv_pos (col_end e - col_start e) g1) by lia. cbn [bind].
  rewrite (int_truediv_pos (row_end e - row_start e)) by lia. cbn [bind].
  rewrite (int_truediv_pos (col_end e - col_start e)) by lia. cbn [bind].
  f_equal. rewrite flat_map_map_comp. apply flat_map_ext. intros i.
  rewrite map_map. reflexivity.
Qed.

Lemma In_grid_cells (e : Edges) (h w : Z) (c : Edges) :
  In c (grid_cells e h w) <->
  exists i j, 0 <= i < height_of e / h /\ 0 <= j < width_of e / w /\
              c = cell_at e h w i j.
Proof.
  unfold grid_cells. rewrite in_flat_map. split.
  - intros [i [Hi Hc]]. apply in_map_iff in Hc. destruct Hc as [j [<- Hj]].
    apply In_py_range in Hi. apply In_py_range in Hj.
    exists i, j. auto.
  - intros [i [j [Hi [Hj ->]]]]. exists i. split.
    + now apply In_py_range.
    + apply in_map. now apply In_py_range.
Qed.

Lemma length_grid_cells (e : Edges) (h w : Z) :
  length (grid_cells e h w)
  = (Z.to_nat (height_of e / h) * Z.to_nat (width_of e / w))%nat.
Proof.
  unfold grid_cells.
  rewrite (length_flat_map_const _ (Z.to_nat (width_of e / w))).
  - now rewrite length_py_range.
  - intros i. now rewrite length_map, length_py_range.
Qed.

(** The number of cells along an axis is never below the configured
    count. *)
Lemma cells_along_axis_ge (extent count : Z) :
  0 < count <= extent ->
  count <= extent / (extent / count).
Proof.
  intros H.
  assert (Hs : 0 < extent / count) by (apply Z.div_str_pos; lia).
  apply Z.div_le_lower_bound; [assumption |].
  rewrite Z.mul_comm. apply Z.mul_div_le. lia.
Qed.

(** C4: on the rectangle [10,15,5,8] the grid (1,1) gives the rectangle
    itself as the only cell, and the grid (2,2) gives the six cells
    [10,12,5,6], [10,12,6,7], [10,12,7,8], [12,14,5,6], [12,14,6,7],
    [12,14,7,8] in row-major order. *)
Theorem getEdgesForGrid_test_rectangle :
  let e := mkEdges 10 15 5 8 in
  getEdgesForGrid e (getRealGridSize (Some (1, 1)) e) = Ok [e] /\
  getEdgesForGrid e (getRealGridSize (Some (2, 2)) e)
  = Ok [mkEdges 10 12 5 6; mkEdges 10 12 6 7; mkEdges 10 12 7 8;
        mkEdges 12 14 5 6; mkEdges 12 14 6 7; mkEdges 12 14 7 8].
Proof. split; reflexivity. Qed.

(** C3, as stated, fails: on the rectangle [10,15,5,8] with grid (2,2)
    neither extent is divisible by its count, yet the code returns six
    cells, three across, which is not fewer than the nominal 2 x 2. *)
Lemma getEdgesForGrid_more_cells_than_nominal :
  let e := mkEdges 10 15 5 8 in
  height_of e mod 2 <> 0 /\ width_of e mod 2 <> 0 /\
  exists cells,
    getEdgesForGrid e (2, 2) = Ok cells /\
    map col_start (firstn 3 cells) = [5; 6; 7] /\
    ~ (Z.of_nat (length cells) < 2 * 2).
Proof.
  cbv zeta. split; [| split].
  - vm_compute. discriminate.
  - vm_compute. discriminate.
  - eexists. split; [reflexivity |]. split; [reflexivity |].
    vm_compute. discriminate.
Qed.

(** C3, amended: for a grid count between 1 and the extent on each axis
    (cell height and width at least 1), with cell height
    [h = floor(height / rows)] and cell width [w = floor(width / cols)],
    the code returns the cells starting at [start + i * cell_size] for [i]
    in [0 .. floor(extent / cell_size) - 1] along each axis, row-major;
    along each axis there are at least as many cells as the configured
    count, never fewer; and no cell reaches the [extent mod cell_size]
    pixels at the high end of the rectangle. *)
Theorem getEdgesForGrid_truncates (e : Edges) (g0 g1 : Z) :
  0 < g0 <= height_of e ->
  0 < g1 <= width_of e ->
  let h := height_of e / g0 in
  let w := width_of e / g1 in
  let n_rows := height_of e / h in
  let n_cols := width_of e / w in
  getEdgesForGrid e (g0, g1) = Ok (grid_cells e h w) /\
  length (grid_cells e h w) = (Z.to_nat n_rows * Z.to_nat n_cols)%nat /\
  g0 <= n_rows /\ g1 <= n_cols /\
  (forall c row col,
      In c (grid_cells e h w) -> in_edges c row col ->
      row < row_start e + h * n_rows /\ col < col_start e + w * n_cols) /\
  row_end e - (row_start e + h * n_rows) = height_of e mod h /\
  col_end e - (col_start e + w * n_cols) = width_of e mod w.
Proof.
  intros H0 H1 h w n_rows n_cols.
  assert (Hh : 0 < h) by (apply Z.div_str_pos; lia).
  assert (Hw : 0 < w) by (apply Z.div_str_pos; lia).
  split; [apply getEdgesForGrid_cells; assumption |].
  split; [apply length_grid_cells |].
  split; [apply cells_along_axis_ge; assumption |].
  split; [apply cells_along_axis_ge; assumption |].
  split; [| split].
  - intros c row col Hc [Hr Hcol].
    apply In_grid_cells in Hc. destruct Hc as [i [j [Hi [Hj ->]]]].
    fold n_rows in Hi. fold n_cols in Hj.
    unfold cell_at in Hr, Hcol. cbn in Hr, Hcol. split; nia.
  - subst n_rows. rewrite Z.mod_eq by lia. unfold height_of. lia.
  - subst n_cols. rewrite Z.mod_eq by lia. unfold width_of. lia.
Qed.

Lemma getEdgesForGrid_truncates_witness :
  getEdgesForGrid (mkEdges 10 15 5 8) (2, 2)
  = Ok (grid_cells (mkEdges 10 15 5 8) 2 1) /\
  2 <= 3 /\
  15 - (10 + 2 * 2) = 1.
Proof.
  pose proof (getEdgesForGrid_truncates (mkEdges 10 15 5 8) 2 2) as H.
  cbv zeta in H.
  assert (H0 : 0 < 2 <= height_of (mkEdges 10 15 5 8))
    by (vm_compute; split; [reflexivity | discriminate]).
  assert (H1 : 0 < 2 <= width_of (mkEdges 10 15 5 8))
    by (vm_compute; split; [reflexivity | discriminate]).
  destruct (H H0 H1) as [Hc [_ [_ [Hn [_ [Hr _]]]]]].
  split; [exact Hc |]. split; [exact Hn | exact Hr].
Defined.

(* ------------------------------------------------------------------ *)
(** ** Cells are inside, equal in size, and pairwise disjoint *)

Lemma FOP_map {A B : Type} (R : B -> B -> Prop) (f : A -> B) (l : list A) :
  ForallOrdPairs (fun a b => R (f a) (f b)) l ->
  ForallOrdPairs R (map f l).
Proof.
  induction 1 as [| a l Ha _ IH]; simpl; constructor.
  - apply Forall_map. exact Ha.
  - exact IH.
Qed.

Lemma FOP_app {A : Type} (R : A -> A -> Prop) (l1 l2 : list A) :
  ForallOrdPairs R l1 ->
  ForallOrdPairs R l2 ->
  (forall a b, In a l1 -> In b l2 -> R a b) ->
  ForallOrdPairs R (l1 ++ l2).
Proof.
  intros H1 H2 Hx. induction H1 as [| a l Ha _ IH]; simpl.
  - exact H2.
  - constructor.
    + apply Forall_app. split; [exact Ha |].
      apply Forall_forall. intros b Hb. apply Hx; [now left | exact Hb].
    + apply IH. intros x y Hx' Hy. apply Hx; [now right | exact Hy].
Qed.

Lemma FOP_flat_map {A B : Type} (R : B -> B -> Prop) (Q : A -> A -> Prop)
    (f : A -> list B) (l : list A) :
  ForallOrdPairs Q l ->
  (forall a, In a l -> ForallOrdPairs R (f a)) ->
  (forall a b x y, Q a b -> In x (f a) -> In y (f b) -> R x y) ->
  ForallOrdPairs R (flat_map f l).
Proof.
  intros HQ. induction HQ as [| a l Ha _ IH]; intros Hin Hx; simpl.
  - constructor.
  - apply FOP_app.
    + apply Hin. now left.
    + apply IH; [| exact Hx]. intros b Hb. apply Hin. now right.
    + intros x y Hxa Hy. apply in_flat_map in Hy. destruct Hy as [b [Hb Hyb]].
      apply (Hx a b); [| exact Hxa | exact Hyb].
      rewrite Forall_forall in Ha. now apply Ha.
Qed.

Lemma FOP_seq_lt (len start : nat) : ForallOrdPairs lt (seq start len).
Proof.
  revert start. induction len as [| len IH]; intros start; simpl.
  - constructor.
  - constructor; [| apply IH].
    apply Forall_forall. intros k Hk. apply in_seq in Hk. lia.
Qed.

Lemma FOP_py_range_lt (n : Z) : ForallOrdPairs Z.lt (py_range n).
Proof.
  unfold py_range. apply FOP_map.
  eapply (ForallOrdPairs_ind (R := lt)
            (fun l => ForallOrdPairs (fun a b => Z.of_nat a < Z.of_nat b) l)).
  - constructor.
  - intros a l Ha _ IH. constructor; [| exact IH].
    eapply Forall_impl; [| exact Ha]. intros b Hb. simpl in Hb. lia.
  - apply FOP_seq_lt.
Qed.

Lemma FOP_nth_error {A : Type} (R : A -> A -> Prop) (l : list A) :
  ForallOrdPairs R l ->
  forall m n a b,
    (m < n)%nat -> nth_error l m = Some a -> nth_error l n = Some b -> R a b.
Proof.
  induction 1 as [| x l Hx _ IH]; intros m n a b Hmn Hm Hn.
  - destruct m; discriminate.
  - destruct n as [| n]; [lia |]. simpl in Hn.
    destruct m as [| m]; simpl in Hm.
    + injection Hm as <-. rewrite Forall_forall in Hx.
      apply Hx. eapply nth_error_In. exact Hn.
    + apply (IH m n); [lia | assumption | assumption].
Qed.

Lemma disjoint_sym (a b : Edges) : disjoint a b -> disjoint b a.
Proof. unfold disjoint. intros H row col [Hb Ha]. apply (H row col). auto. Qed.

Lemma cell_at_disjoint_rows (e : Edges) (h w i j i' j' : Z) :
  0 < h -> i < i' -> disjoint (cell_at e h w i j) (cell_at e h w i' j').
Proof.
  intros Hh Hi row col [[Hr _] [Hr' _]]. unfold cell_at in *. cbn in *. nia.
Qed.

Lemma cell_at_disjoint_cols (e : Edges) (h w i j i' j' : Z) :
  0 < w -> j < j' -> disjoint (cell_at e h w i j) (cell_at e h w i' j').
Proof.
  intros Hw Hj row col [[_ Hc] [_ Hc']]. unfold cell_at in *. cbn in *. nia.
Qed.

Lemma grid_cells_FOP_disjoint (e : Edges) (h w : Z) :
  0 < h -> 0 < w -> ForallOrdPairs disjoint (grid_cells e h w).
Proof.
  intros Hh Hw. unfold grid_cells.
  apply (FOP_flat_map disjoint Z.lt).
  - apply FOP_py_range_lt.
  - intros i _. apply FOP_map.
    eapply (ForallOrdPairs_ind (R := Z.lt)
              (fun l => ForallOrdPairs
                          (fun a b => disjoint (cell_at e h w i a)
                                               (cell_at e h w i b)) l)).
    + constructor.
    + intros a l Ha _ IH. constructor; [| exact IH].
      eapply Forall_impl; [| exact Ha]. intros b Hb.
      now apply cell_at_disjoint_cols.
    + apply FOP_py_range_lt.
  - intros i i' x y Hii Hx Hy.
    apply in_map_iff in Hx. destruct Hx as [j [<- _]].
    apply in_map_iff in Hy. destruct Hy as [j' [<- _]].
    now apply cell_at_disjoint_rows.
Qed.

(** C10: for a rectangle of positive height and width and a grid size
    whose cell height and cell width (the truncated quotients) are at
    least 1, the code returns cells that all lie inside the rectangle, all
    have the cell height and the cell width, and are pairwise disjoint. *)
Theorem getEdgesForGrid_cells_inside_disjoint (e : Edges) (g0 g1 : Z) :
  0 < height_of e ->
  0 < width_of e ->
  1 <= Z.quot (height_of e) g0 ->
  1 <= Z.quot (width_of e) g1 ->
  exists cells,
    getEdgesForGrid e (g0, g1) = Ok cells /\
    (forall c, In c cells ->
               inside c e /\
               height_of c = Z.quot (height_of e) g0 /\
               width_of c = Z.quot (width_of e) g1) /\
    (forall m n a b,
        m <> n -> nth_error cells m = Some a -> nth_error cells n = Some b ->
        disjoint a b).
Proof.
  intros HH HW Hqh Hqw.
  pose proof (quot_ge_1 _ _ HH Hqh) as H0.
  pose proof (quot_ge_1 _ _ HW Hqw) as H1.
  rewrite (Z.quot_div_nonneg (height_of e) g0) in * by lia.
  rewrite (Z.quot_div_nonneg (width_of e) g1) in * by lia.
  pose proof (getEdgesForGrid_cells e g0 g1 H0 H1) as Hcells.
  set (h := height_of e / g0) in *. set (w := width_of e / g1) in *.
  clearbody h w.
  exists (grid_cells e h w).
  split; [exact Hcells |].
  split.
  - intros c Hc. apply In_grid_cells in Hc.
    destruct Hc as [i [j [Hi [Hj ->]]]].
    assert (Hr : h * (height_of e / h) <= height_of e)
      by (apply Z.mul_div_le; lia).
    assert (Hc : w * (width_of e / w) <= width_of e)
      by (apply Z.mul_div_le; lia).
    revert Hi Hj Hr Hc.
    generalize (height_of e / h) (width_of e / w). intros nr nc Hi Hj Hr Hc.
    unfold inside, cell_at, height_of, width_of in *. cbn.
    repeat split; try lia; nia.
  - intros m n a b Hmn Hm Hn.
    pose proof (grid_cells_FOP_disjoint e h w ltac:(lia) ltac:(lia)) as HF.
    destruct (Nat.lt_trichotomy m n) as [Hlt | [Heq | Hgt]].
    + exact (FOP_nth_error _ _ HF m n a b Hlt Hm Hn).
    + contradiction.
    + apply disjoint_sym. exact (FOP_nth_error _ _ HF n m b a Hgt Hn Hm).
Qed.

Lemma getEdgesForGrid_cells_inside_disjoint_witness :
  exists cells,
    getEdgesForGrid (mkEdges 10 15 5 8) (2, 2) = Ok cells /\
    (forall c, In c cells ->
               inside c (mkEdges 10 15 5 8) /\
               height_of c = Z.quot (height_of (mkEdges 10 15 5 8)) 2 /\
               width_of c = Z.quot (width_of (mkEdges 10 15 5 8)) 2) /\
    (forall m n a b,
        m <> n -> nth_error cells m = Some a -> nth_error cells n = Some b ->
        disjoint a b).
Proof.
  apply (getEdgesForGrid_cells_inside_disjoint (mkEdges 10 15 5 8) 2 2);
    vm_compute; (reflexivity || discriminate).
Defined.

(* ------------------------------------------------------------------ *)
(** ** The pixels collected for a band *)

Lemma In_py_range2 (a b k : Z) : In k (py_range2 a b) <-> a <= k < b.
Proof.
  unfold py_range2. rewrite in_map_iff. split.
  - intros [n [<- Hn]]. apply in_seq in Hn. lia.
  - intros H. exists (Z.to_nat (k - a)). split; [lia |]. apply in_seq. lia.
Qed.

Lemma NoDup_map_inj {A B : Type} (f : A -> B) (l : list A) :
  (forall x y, f x = f y -> x = y) -> NoDup l -> NoDup (map f l).
Proof.
  intros Hinj. induction 1 as [| x l Hx _ IH]; simpl; constructor.
  - intros Hin. apply in_map_iff in Hin. destruct Hin as [y [Hy Hyl]].
    apply Hinj in Hy. subst y. contradiction.
  - exact IH.
Qed.

Lemma NoDup_py_range2 (a b : Z) : NoDup (py_range2 a b).
Proof.
  unfold py_range2. apply NoDup_map_inj.
  - intros x y H. lia.
  - apply seq_NoDup.
Qed.

Lemma NoDup_list_prod {A B : Type} (l : list A) (l' : list B) :
  NoDup l -> NoDup l' -> NoDup (list_prod l l').
Proof.
  intros Hl Hl'. induction Hl as [| x l Hx _ IH]; simpl.
  - constructor.
  - apply NoDup_app.
    + apply NoDup_map_inj; [| exact Hl'].
      intros u v H. now injection H.
    + exact IH.
    + intros [u v] Hin Hin'. apply in_map_iff in Hin.
      destruct Hin as [y [Hy _]]. injection Hy as <- <-.
      apply in_prod_iff in Hin'. destruct Hin' as [Hin' _]. contradiction.
Qed.

Lemma roi_loops_filter {V : Type} (sk : Z -> Z -> bool) (img : Z -> Z -> V)
    (rws cls : list Z) :
  flat_map (fun row =>
    flat_map (fun col => if sk row col then [] else [img row col]) cls) rws
  = map (fun p => img (fst p) (snd p))
        (filter (fun p => negb (sk (fst p) (snd p))) (list_prod rws cls)).
Proof.
  induction rws as [| r rws IH]; simpl; [reflexivity |].
  rewrite filter_app, map_app, IH. f_equal.
  clear IH. induction cls as [| c cls IHc]; simpl; [reflexivity |].
  destruct (sk r c); simpl; rewrite IHc; reflexivity.
Qed.

Lemma getRoi_map {W : Type} (self : ProcessEnviFile W) (edges : Edges)
    (i : nat) :
  getRoi self edges i
  = map (fun p => image self (fst p) (snd p) i) (available_pixels self edges).
Proof. unfold getRoi, available_pixels. apply roi_loops_filter. Qed.

Lemma length_getRoi {W : Type} (self : ProcessEnviFile W) (edges : Edges)
    (i : nat) :
  length (getRoi self edges i) = length (available_pixels self edges).
Proof. rewrite getRoi_map. apply length_map. Qed.

(** C9: for every rectangle, band and optional mask, the values collected
    for the band are the image values at exactly the pixels of the
    rectangle whose mask value is not 1 (every pixel of the rectangle when
    there is no mask), each pixel once, in row-major order. *)
Theorem getRoi_collects_unmasked {W : Type} (self : ProcessEnviFile W)
    (edges : Edges) (i : nat) :
  getRoi self edges i
  = map (fun p => image self (fst p) (snd p) i)
        (available_pixels self edges) /\
  NoDup (available_pixels self edges) /\
  forall row col,
    In (row, col) (available_pixels self edges) <->
    in_edges edges row col /\
    (forall m, mask self = Some m -> m row col <> 1).
Proof.
  split; [apply getRoi_map |]. split.
  - unfold available_pixels. apply NoDup_filter.
    apply NoDup_list_prod; apply NoDup_py_range2.
  - intros row col. unfold available_pixels, in_edges, skipped.
    rewrite filter_In, in_prod_iff, !In_py_range2. cbn [fst snd].
    destruct (mask self) as [m |].
    + destruct (Z.eqb_spec (m row col) 1) as [E | E]; cbn [negb].
      * split; [intros [_ H]; discriminate |].
        intros [_ H]. exfalso. exact (H m eq_refl E).
      * split; [| tauto]. intros [H _]. split; [exact H |].
        intros m' Hm'. injection Hm' as <-. exact E.
    + cbn [negb]. split; [| tauto]. intros [H _]. split; [exact H |].
      intros m Hm. discriminate.
Qed.

(* ------------------------------------------------------------------ *)
(** ** Reductions: max10 *)

Lemma insert_sorted_perm (x : Z) (l : list Z) :
  Permutation (x :: l) (insert_sorted x l).
Proof.
  induction l as [| y l IH]; simpl; [reflexivity |].
  destruct (x <=? y); [reflexivity |].
  rewrite perm_swap. now constructor.
Qed.

Lemma np_sort_perm (l : list Z) : Permutation l (np_sort l).
Proof.
  induction l as [| x l IH]; simpl; [constructor |].
  rewrite <- insert_sorted_perm. now constructor.
Qed.

Lemma insert_sorted_sorted (x : Z) (l : list Z) :
  Sorted Z.le l -> Sorted Z.le (insert_sorted x l).
Proof.
  induction 1 as [| y l Hs IH Hhd]; simpl.
  - repeat constructor.
  - destruct (Z.leb_spec x y) as [Hxy | Hxy].
    + repeat constructor; assumption.
    + constructor; [exact IH |].
      destruct Hhd as [| z l Hyz]; simpl.
      * constructor. lia.
      * destruct (x <=? z); constructor; lia.
Qed.

Lemma np_sort_sorted (l : list Z) : Sorted Z.le (np_sort l).
Proof.
  induction l as [| x l IH]; simpl; [constructor |].
  now apply insert_sorted_sorted.
Qed.

Lemma sumZ_perm (l l' : list Z) : Permutation l l' -> sumZ l = sumZ l'.
Proof.
  induction 1; simpl; lia.
Qed.

Lemma last_n_all {A : Type} (n : nat) (l : list A) :
  (length l <= n)%nat -> last_n n l = l.
Proof.
  intros H. unfold last_n.
  replace (length l - n)%nat with 0%nat by lia. reflexivity.
Qed.

(** With at most ten values, the mean of the ten largest is the mean of
    all of them. *)
Lemma max10_is_mean (roi : list Z) :
  (length roi <= 10)%nat ->
  np_mean (last_n 10 (np_sort roi)) = np_mean roi.
Proof.
  intros H.
  pose proof (np_sort_perm roi) as Hp.
  rewrite last_n_all by (rewrite <- (Permutation_length Hp); exact H).
  unfold np_mean.
  rewrite <- (sumZ_perm _ _ Hp), <- (Permutation_length Hp). reflexivity.
Qed.

Lemma reduce_roi_max10 (roi : list Z) :
  reduce_roi "max10" roi = Ok [NFloat (np_mean (last_n 10 (np_sort roi)))].
Proof. reflexivity. Qed.

Lemma mapM_ok_map {A B : Type} (f : A -> result B) (g : A -> B) (l : list A) :
  (forall a, In a l -> f a = Ok (g a)) -> mapM f l = Ok (map g l).
Proof.
  induction l as [| a l IH]; intros H; simpl; [reflexivity |].
  rewrite (H a) by now left. cbn [bind].
  rewrite IH by (intros b Hb; apply H; now right). reflexivity.
Qed.

Lemma concat_map_singleton {A B : Type} (g : A -> B) (l : list A) :
  List.concat (map (fun a => [g a]) l) = map g l.
Proof.
  induction l as [| a l IH]; simpl; [reflexivity | now rewrite IH].
Qed.

(** A mode that appends one number per band never raises, and the
    spectrum has one entry per original band. *)
Lemma getSpectrumMean_total {W : Type} (self : ProcessEnviFile W)
    (edges : Edges) (mode : string) (g : list Z -> number) :
  (forall roi, reduce_roi mode roi = Ok [g roi]) ->
  getSpectrumMean self edges mode
  = Ok (map (fun i => g (getRoi self edges i))
            (seq 0 (length (wavelengths_original self)))).
Proof.
  intros Hg. unfold getSpectrumMean.
  rewrite (mapM_ok_map _ (fun i => [g (getRoi self edges i)])).
  - cbn [bind]. now rewrite concat_map_singleton.
  - intros i _. apply Hg.
Qed.

(** The one-row table of such a mode: the good wavelengths as labels, the
    values of the good bands as the row. *)
Lemma rectangle_table {W : Type} (self : ProcessEnviFile W) (edges : Edges)
    (mode : string) (g : list Z -> number) :
  (forall roi, reduce_roi mode roi = Ok [g roi]) ->
  length (wavelengths_original self) = length (bbl_original self) ->
  flags_readable (bbl_original self) ->
  getMeanSpectrumFromRectangle self edges mode
  = Ok (mkDataFrame
          (map LWave (keep_good (wavelengths_original self)
                                (bbl_original self)))
          [map CNum
             (keep_good (map (fun i => g (getRoi self edges i))
                             (seq 0 (length (wavelengths_original self))))
                        (bbl_original self))]).
Proof.
  intros Hg Hlen Hread.
  unfold getMeanSpectrumFromRectangle.
  rewrite (getSpectrumMean_total self edges mode g Hg). cbn [bind].
  unfold removeBadBands.
  set (sm := map _ _).
  assert (Hm : length sm = length (bbl_original self)).
  { subst sm. now rewrite length_map, length_seq. }
  pose proof (removeBadBands_from_keep sm [] (wavelengths_original self)
                [] (bbl_original self) eq_refl Hlen Hm Hread) as Hk.
  cbn [length app] in Hk. rewrite Hk. reflexivity.
Qed.

(** C1, as stated, fails: a region of three available pixels in max10
    mode raises nothing; every good band gets the mean of the three
    values. *)
Lemma max10_three_pixels_no_error :
  let e := mkEdges 10 11 5 8 in
  length (available_pixels (demo [] None) e) = 3%nat /\
  map (getRoi (demo [] None) e) [0; 1; 2]%nat
  = [[135; 136; 137]; [235; 236; 237]; [335; 336; 337]] /\
  getMeanSpectrumFromRectangle (demo [] None) e "max10"
  = Ok (mkDataFrame [LWave 450; LWave 470]
          [[CNum (NFloat 136%float); CNum (NFloat 336%float)]]).
Proof. cbv zeta. repeat split; vm_compute; reflexivity. Qed.

(** C1, amended: in max10 mode over a region with at most 10 available
    pixels (exactly 10, or fewer), nothing is raised and the value of
    every band is [np.mean] of all the available values of that band
    (nan when there is none); the table holds these values for the good
    bands. *)
Theorem max10_mean_of_all_available {W : Type} (self : ProcessEnviFile W)
    (edges : Edges) :
  length (wavelengths_original self) = length (bbl_original self) ->
  flags_readable (bbl_original self) ->
  (length (available_pixels self edges) <= 10)%nat ->
  let means := map (fun i => NFloat (np_mean (getRoi self edges i)))
                   (seq 0 (length (wavelengths_original self))) in
  getSpectrumMean self edges "max10" = Ok means /\
  getMeanSpectrumFromRectangle self edges "max10"
  = Ok (mkDataFrame
          (map LWave (keep_good (wavelengths_original self)
                                (bbl_original self)))
          [map CNum (keep_good means (bbl_original self))]).
Proof.
  intros Hlen Hread Hfew means.
  assert (Hmeans : means
                   = map (fun i => NFloat (np_mean (last_n 10
                                     (np_sort (getRoi self edges i)))))
                         (seq 0 (length (wavelengths_original self)))).
  { subst means. apply map_ext. intros i.
    rewrite max10_is_mean; [reflexivity |]. now rewrite length_getRoi. }
  rewrite Hmeans. split.
  - apply (getSpectrumMean_total self edges "max10"
             (fun roi => NFloat (np_mean (last_n 10 (np_sort roi))))).
    apply reduce_roi_max10.
  - apply (rectangle_table self edges "max10"
             (fun roi => NFloat (np_mean (last_n 10 (np_sort roi)))));
      [apply reduce_roi_max10 | assumption ..].
Qed.

Lemma max10_mean_of_all_available_witness :
  getMeanSpectrumFromRectangle (demo [] None) (mkEdges 10 12 5 10) "max10"
  = Ok (mkDataFrame
          (map LWave (keep_good [450; 460; 470]
                                [PStr "1"; PStr "0"; PStr "1"]))
          [map CNum
             (keep_good
                (map (fun i => NFloat (np_mean (getRoi (demo [] None)
                                                  (mkEdges 10 12 5 10) i)))
                     (seq 0 3))
                [PStr "1"; PStr "0"; PStr "1"])]).
Proof.
  refine (proj2 (max10_mean_of_all_available (demo [] None)
                   (mkEdges 10 12 5 10) _ _ _)).
  - reflexivity.
  - repeat constructor.
  - vm_compute. repeat constructor.
Defined.

(* ------------------------------------------------------------------ *)
(** ** Calibration *)

Lemma scaled_quotients (soil spectralon : list number) (k : float) :
  map (fun x => (x * k)%float)
      (zip_with PrimFloat.div (map astype_float soil)
                (map astype_float spectralon))
  = calibrated_values soil spectralon k.
Proof.
  unfold calibrated_values. revert spectralon.
  induction soil as [| s soil IH]; intros [| r spectralon]; simpl;
    try reflexivity.
  now rewrite IH.
Qed.

Lemma getCalibratedSpectrum_same_length (soil spectralon : list number)
    (spectralon_factor : float) :
  length soil = length spectralon ->
  exists r,
    getCalibratedSpectrum soil spectralon spectralon_factor = Ok r /\
    values r = calibrated_values soil spectralon spectralon_factor.
Proof.
  intros Hlen. unfold getCalibratedSpectrum.
  destruct soil as [| s [| s' soil]];
    destruct spectralon as [| r [| r' spectralon]]; try discriminate.
  - eexists. split; reflexivity.
  - eexists. split; reflexivity.
  - cbn [squeeze_float np_divide].
    rewrite !length_map, Hlen, Nat.eqb_refl. cbn [bind].
    eexists. split; [reflexivity |].
    cbn [np_scale values]. apply scaled_quotients.
Qed.

(** C5: for a soil and a reference spectrum of the same length, the
    calibrated spectrum holds, band by band,
    [(soil / reference) * factor]; for soil [10, 20], reference [20, 20]
    and factor 0.95 it is [0.475, 0.95]. *)
Theorem getCalibratedSpectrum_per_band (soil spectralon : list number)
    (spectralon_factor : float) :
  length soil = length spectralon ->
  (exists r,
      getCalibratedSpectrum soil spectralon spectralon_factor = Ok r /\
      values r = calibrated_values soil spectralon spectralon_factor) /\
  getCalibratedSpectrum [NInt 10; NInt 20] [NInt 20; NInt 20] 0.95%float
  = Ok (Arr1 [0.475%float; 0.95%float]).
Proof.
  intros Hlen. split.
  - now apply getCalibratedSpectrum_same_length.
  - reflexivity.
Qed.

Lemma getCalibratedSpectrum_per_band_witness :
  exists r,
    getCalibratedSpectrum [NInt 1; NInt 3; NFloat 2.5%float]
                          [NInt 4; NInt 0; NInt 2] 0.5%float = Ok r /\
    values r = [0.125%float; infinity; 0.625%float].
Proof.
  refine (proj1 (getCalibratedSpectrum_per_band
                   [NInt 1; NInt 3; NFloat 2.5%float]
                   [NInt 4; NInt 0; NInt 2] 0.5%float _)).
  reflexivity.
Defined.

(* ------------------------------------------------------------------ *)
(** ** The constructor *)

Lemma bind_Ok_inv {A B : Type} (m : result A) (k : A -> result B) (b : B) :
  bind m k = Ok b -> exists a, m = Ok a /\ k a = Ok b.
Proof.
  destruct m as [a | e]; simpl; [| discriminate]. intros H. now exists a.
Qed.

Lemma removeBadBands_from_readable {W V : Type} (spectrum : list V)
    (wls : list W) :
  forall (pb bbl : list pyval) r,
    length spectrum = length bbl ->
    removeBadBands_from (length pb) spectrum wls (pb ++ bbl) = Ok r ->
    flags_readable bbl.
Proof.
  induction spectrum as [| refl rest IH]; intros pb bbl r Hs H.
  - destruct bbl; [constructor | discriminate].
  - destruct bbl as [| f bbl]; [discriminate |].
    cbn [removeBadBands_from] in H.
    rewrite getitem_middle in H. cbn [bind] in H.
    assert (Hrest : forall r',
               removeBadBands_from (S (length pb)) rest wls (pb ++ f :: bbl)
               = Ok r' -> flags_readable bbl).
    { intros r' Hr'. apply (IH (pb ++ [f]) bbl r').
      - simpl in Hs. lia.
      - rewrite length_app, <- app_assoc. simpl.
        replace (length pb + 1)%nat with (S (length pb)) by lia. exact Hr'. }
    destruct (py_int f) as [n | e] eqn:Hf; [| discriminate].
    cbn [bind] in H. constructor; [now rewrite Hf |].
    destruct (n =? 1).
    + apply bind_Ok_inv in H. destruct H as [w [_ H]].
      apply bind_Ok_inv in H. destruct H as [r' [H _]]. now apply Hrest in H.
    + now apply Hrest in H.
Qed.

(** Every processor the constructor returns is well formed. *)
Lemma init_well_formed {W : Type} (img : Z -> Z -> nat -> Z) (wl : list W)
    (bbl : list pyval) (zones : list string) (pos : positions_t) (idx : nat)
    (msk : option (Z -> Z -> Z)) (grd : option (Z * Z))
    (self : ProcessEnviFile W) :
  init img wl bbl zones pos idx msk grd = Ok self -> well_formed self.
Proof.
  unfold init, BandFilter. intros H.
  apply bind_Ok_inv in H. destruct H as [[[wo bo] w] [H Hself]].
  apply bind_Ok_inv in H. destruct H as [[wo' bo'] [Hv H]].
  apply bind_Ok_inv in H. destruct H as [[w' sp] [Hr H]].
  injection H as -> -> ->. injection Hself as <-.
  pose proof (validateWavelengths_Ok _ _ _ _ Hv) as Hlen.
  assert (Hread : flags_readable bo).
  { exact (removeBadBands_from_readable wo wo [] bo _ Hlen Hr). }
  unfold well_formed. cbn. repeat split; try assumption.
  unfold removeBadBands in Hr.
  pose proof (removeBadBands_from_keep wo [] wo [] bo eq_refl Hlen Hlen Hread)
    as Hk.
  cbn [length app] in Hk. rewrite Hk in Hr. now injection Hr as <- _.
Qed.

Example init_demo :
  init demo_image [450; 460; 470] [PStr "1"; PStr "0"; PStr "1"]
       ["zone1"%string] demo_positions 0 None (Some (2, 2))
  = Ok (demo ["zone1"%string] (Some (2, 2))).
Proof. reflexivity. Qed.

(* ------------------------------------------------------------------ *)
(** ** Shape of the tables *)

Lemma mapM_Forall2 {A B : Type} (f : A -> result B) (l : list A) :
  forall l', mapM f l = Ok l' -> Forall2 (fun a b => f a = Ok b) l l'.
Proof.
  induction l as [| a l IH]; intros l' H; simpl in H.
  - injection H as <-. constructor.
  - apply bind_Ok_inv in H. destruct H as [b [Hb H]].
    apply bind_Ok_inv in H. destruct H as [bs [Hbs H]].
    injection H as <-. constructor; [exact Hb | now apply IH].
Qed.

Lemma mapM_length {A B : Type} (f : A -> result B) (l : list A) (l' : list B) :
  mapM f l = Ok l' -> length l' = length l.
Proof.
  intros H. apply mapM_Forall2 in H. symmetry. exact (Forall2_length H).
Qed.

Lemma pd_concat_Ok {W : Type} (frames : list (DataFrame W))
    (df : DataFrame W) :
  pd_concat frames = Ok df ->
  exists d rest,
    frames = d :: rest /\
    columns df = columns d /\
    rows df = flat_map rows frames.
Proof.
  destruct frames as [| d rest]; [discriminate |].
  intros H. injection H as <-. exists d, rest. repeat split.
Qed.

Lemma set_column_shape {W : Type} (df df' : DataFrame W) (name : string)
    (vals : list cell) :
  set_column df name vals = Ok df' ->
  length vals = length (rows df) /\
  length (rows df') = length (rows df) /\
  length (columns df') = (length (columns df) + 1)%nat.
Proof.
  unfold set_column.
  destruct (Nat.eqb_spec (length vals) (length (rows df))) as [E | E];
    [| discriminate].
  intros H. injection H as <-. cbn.
  rewrite length_map, length_combine, length_app. cbn. lia.
Qed.

Lemma getCalibratedSpectra_shape {W : Type} (self : ProcessEnviFile W)
    (spectra spectralon d : DataFrame W) (k : float) :
  getCalibratedSpectra self spectra spectralon k = Ok d ->
  shape d = shape spectra.
Proof.
  unfold getCalibratedSpectra. intros H.
  apply bind_Ok_inv in H. destruct H as [new_rows [Hrows H]].
  destruct (_ && _)%bool; [discriminate |].
  injection H as <-. unfold shape. cbn.
  now rewrite (mapM_length _ _ _ Hrows).
Qed.

Lemma reduce_roi_median (roi : list Z) :
  reduce_roi "median" roi = Ok [NFloat (np_median roi)].
Proof. reflexivity. Qed.

Lemma length_getGridElements (r c : Z) :
  r <> 0 ->
  length (getGridElements (Some (r, c))) = (Z.to_nat r * Z.to_nat c)%nat.
Proof.
  intros Hr. unfold getGridElements.
  destruct (Z.eqb_spec r 0); [contradiction |]. cbn [andb].
  now rewrite length_prod, !length_py_range.
Qed.

Lemma getEdgesForGrid_Ok_nonzero (e : Edges) (r c : Z) (cells : list Edges) :
  getEdgesForGrid e (r, c) = Ok cells -> r <> 0.
Proof.
  unfold getEdgesForGrid, int_truediv. cbn [fst snd].
  destruct (Z.eqb_spec r 0); [discriminate | auto].
Qed.

(** When the grid table of a zone is returned, it has one row per
    configured grid cell and two columns more than there are good bands. *)
Lemma grid_table_shape {W : Type} (self : ProcessEnviFile W) (e : Edges)
    (d : DataFrame W) :
  well_formed self ->
  getMeanSpectraFromSquareGrid self e "median" = Ok d ->
  length (columns d) = (length (wavelengths self) + 2)%nat /\
  Z.of_nat (length (rows d)) = nominal_cells (grid self) e.
Proof.
  intros [Hlen [Hread Hw]] H.
  unfold getMeanSpectraFromSquareGrid, nominal_cells in *.
  destruct (getRealGridSize (grid self) e) as [r c]. cbn [fst snd].
  apply bind_Ok_inv in H. destruct H as [cells [Hcells H]].
  apply bind_Ok_inv in H. destruct H as [frames [Hframes H]].
  apply bind_Ok_inv in H. destruct H as [df0 [Hcat H]].
  apply bind_Ok_inv in H. destruct H as [df1 [Hs1 Hs2]].
  pose proof (getEdgesForGrid_Ok_nonzero _ _ _ _ Hcells) as Hr.
  rewrite (mapM_ok_map _
             (fun e' => mkDataFrame (map LWave (wavelengths self))
                [map CNum
                   (keep_good
                      (map (fun i => NFloat (np_median (getRoi self e' i)))
                           (seq 0 (length (wavelengths_original self))))
                      (bbl_original self))])) in Hframes.
  2:{ intros e' _. rewrite Hw.
      apply (rectangle_table self e' "median"
               (fun roi => NFloat (np_median roi)));
        [apply reduce_roi_median | assumption ..]. }
  injection Hframes as <-.
  assert (Hdf0 : length (rows df0) = length cells /\
                 length (columns df0) = length (wavelengths self) /\
                 cells <> []).
  { apply pd_concat_Ok in Hcat. destruct Hcat as [d0 [rest [Hfr [Hc0 Hr0]]]].
    rewrite Hr0, Hc0, flat_map_map_comp. cbn [rows].
    rewrite (length_flat_map_const _ 1%nat) by reflexivity.
    destruct cells as [| c0 cells]; [discriminate |].
    injection Hfr as <- _. cbn [columns].
    split; [lia |]. split; [apply length_map | discriminate]. }
  destruct Hdf0 as [Hrows0 [Hcols0 Hne]].
  apply set_column_shape in Hs1. destruct Hs1 as [Hv1 [Hr1 Hc1]].
  apply set_column_shape in Hs2. destruct Hs2 as [_ [Hr2 Hc2]].
  rewrite length_map, length_getGridElements in Hv1 by assumption.
  split; [lia |].
  assert (Hpos : (1 <= length cells)%nat).
  { destruct cells; [contradiction | simpl; lia]. }
  rewrite Hr2, Hr1, Hrows0. rewrite Hrows0 in Hv1. nia.
Qed.

(** The grid table of a zone carries the good wavelengths as its leading
    column labels, in the processor's order, then the two grid element
    columns; the "zone" column is appended to it next. *)
Lemma grid_table_columns {W : Type} (self : ProcessEnviFile W) (e : Edges)
    (d : DataFrame W) :
  well_formed self ->
  getMeanSpectraFromSquareGrid self e "median" = Ok d ->
  columns d = map LWave (wavelengths self)
              ++ [LName "GridElement_Row"; LName "GridElement_Column"]%string.
Proof.
  intros [Hlen [Hread Hw]] H.
  unfold getMeanSpectraFromSquareGrid in H.
  apply bind_Ok_inv in H. destruct H as [cells [Hcells H]].
  apply bind_Ok_inv in H. destruct H as [frames [Hframes H]].
  apply bind_Ok_inv in H. destruct H as [df0 [Hcat H]].
  apply bind_Ok_inv in H. destruct H as [df1 [Hs1 Hs2]].
  rewrite (mapM_ok_map _
             (fun e' => mkDataFrame (map LWave (wavelengths self))
                [map CNum
                   (keep_good
                      (map (fun i => NFloat (np_median (getRoi self e' i)))
                           (seq 0 (length (wavelengths_original self))))
                      (bbl_original self))])) in Hframes.
  2:{ intros e' _. rewrite Hw.
      apply (rectangle_table self e' "median"
               (fun roi => NFloat (np_median roi)));
        [apply reduce_roi_median | assumption ..]. }
  injection Hframes as <-.
  apply pd_concat_Ok in Hcat. destruct Hcat as [d0 [rest [Hfr [Hc0 _]]]].
  destruct cells as [| c0 cells]; [discriminate |].
  injection Hfr as <- _. cbn [columns] in Hc0.
  unfold set_column in Hs1, Hs2.
  destruct (_ =? _)%nat in Hs1; [| discriminate]. injection Hs1 as <-.
  destruct (_ =? _)%nat in Hs2; [| discriminate]. injection Hs2 as <-.
  cbn [columns]. rewrite Hc0, <- app_assoc. reflexivity.
Qed.

Lemma zone_tables_shape {W : Type} (self : ProcessEnviFile W)
    (df_spectralon : DataFrame W) (k : float) (zones : list string)
    (frames : list (DataFrame W)) :
  well_formed self ->
  Forall2 (fun zone d =>
             (zone_edges <- getEdgesFromPrefix self zone ;;
              df_zone <- getMeanSpectraFromSquareGrid self zone_edges
                                                      "median" ;;
              getCalibratedSpectra self
                (set_column_scalar df_zone "zone" (CStr zone))
                df_spectralon k) = Ok d) zones frames ->
  exists zone_edges,
    mapM (getEdgesFromPrefix self) zones = Ok zone_edges /\
    Z.of_nat (length (flat_map rows frames))
    = sumZ (map (nominal_cells (grid self)) zone_edges) /\
    Forall (fun d => length (columns d)
                     = (length (wavelengths self) + 3)%nat) frames.
Proof.
  intros Hwf. induction 1 as [| zone d zones frames Hd _ IH].
  - exists []. repeat split; constructor.
  - destruct IH as [es [Hes [Hrows Hcols]]].
    apply bind_Ok_inv in Hd. destruct Hd as [ze [Hze Hd]].
    apply bind_Ok_inv in Hd. destruct Hd as [dz [Hdz Hd]].
    apply getCalibratedSpectra_shape in Hd. unfold shape in Hd. cbn in Hd.
    rewrite length_map, length_app in Hd. injection Hd as Hdr Hdc.
    destruct (grid_table_shape self ze dz Hwf Hdz) as [Hc Hr].
    exists (ze :: es). split; [| split].
    + cbn [mapM]. rewrite Hze, Hes. reflexivity.
    + cbn [flat_map map sumZ fold_right]. rewrite length_app.
      fold (sumZ (map (nominal_cells (grid self)) es)). lia.
    + constructor; [cbn in Hdc; lia | exact Hcols].
Qed.

(** Whenever [getMultipleSpectra] returns a table, the table has as many
    rows as the zones' configured grids have cells in total, and three
    columns more than there are good bands. *)
Lemma getMultipleSpectra_shape {W : Type} (self : ProcessEnviFile W)
    (df : DataFrame W) :
  well_formed self ->
  getMultipleSpectra self = Ok df ->
  exists zone_edges,
    mapM (getEdgesFromPrefix self) (zone_list self) = Ok zone_edges /\
    Z.of_nat (length (rows df))
    = sumZ (map (nominal_cells (grid self)) zone_edges) /\
    length (columns df) = (length (wavelengths self) + 3)%nat.
Proof.
  intros Hwf H. unfold getMultipleSpectra in H.
  apply bind_Ok_inv in H. destruct H as [spec_edges [_ H]].
  apply bind_Ok_inv in H. destruct H as [df_spectralon [_ H]].
  apply bind_Ok_inv in H. destruct H as [frames [Hframes Hcat]].
  apply mapM_Forall2 in Hframes.
  destruct (zone_tables_shape self df_spectralon _ _ _ Hwf Hframes)
    as [es [Hes [Hrows Hcols]]].
  exists es. split; [exact Hes |].
  apply pd_concat_Ok in Hcat. destruct Hcat as [d [rest [Hfr [Hc Hr]]]].
  rewrite Hr, Hc. split; [exact Hrows |].
  subst frames. now inversion Hcols.
Qed.

(** Whenever [getMultipleSpectra] returns a table, its column labels are
    the good wavelengths, in the processor's order, followed by the two
    grid element columns and the zone column. *)
Lemma getMultipleSpectra_columns {W : Type} (self : ProcessEnviFile W)
    (df : DataFrame W) :
  well_formed self ->
  getMultipleSpectra self = Ok df ->
  columns df
  = map LWave (wavelengths self)
    ++ [LName "GridElement_Row"; LName "GridElement_Column";
        LName "zone"]%string.
Proof.
  intros Hwf H. unfold getMultipleSpectra in H.
  apply bind_Ok_inv in H. destruct H as [spec_edges [_ H]].
  apply bind_Ok_inv in H. destruct H as [df_spectralon [_ H]].
  apply bind_Ok_inv in H. destruct H as [frames [Hframes Hcat]].
  apply pd_concat_Ok in Hcat. destruct Hcat as [d [rest [-> [Hc _]]]].
  apply mapM_Forall2 in Hframes.
  inversion Hframes as [| zone d' zones rest' Hd _ Ez Ef]. subst.
  apply bind_Ok_inv in Hd. destruct Hd as [ze [_ Hd]].
  apply bind_Ok_inv in Hd. destruct Hd as [dz [Hdz Hd]].
  unfold getCalibratedSpectra in Hd.
  apply bind_Ok_inv in Hd. destruct Hd as [new_rows [_ Hd]].
  destruct (_ && _)%bool in Hd; [discriminate |]. injection Hd as <-.
  rewrite Hc. cbn [columns set_column_scalar].
  rewrite (grid_table_columns self ze dz Hwf Hdz), <- app_assoc.
  reflexivity.
Qed.

(* ------------------------------------------------------------------ *)
(** ** When the tables are returned *)

Lemma mapM_ok_exists {A B : Type} (f : A -> result B) (l : list A) :
  (forall a, In a l -> exists b, f a = Ok b) -> exists l', mapM f l = Ok l'.
Proof.
  induction l as [| a l IH]; intros H; simpl.
  - eexists. reflexivity.
  - destruct (H a (or_introl eq_refl)) as [b Hb].
    destruct IH as [l' Hl']; [intros x Hx; apply H; now right |].
    exists (b :: l'). rewrite Hb. cbn [bind]. rewrite Hl'. reflexivity.
Qed.

Lemma set_column_Ok {W : Type} (df : DataFrame W) (name : string)
    (vals : list cell) :
  length vals = length (rows df) ->
  set_column df name vals
  = Ok (mkDataFrame (columns df ++ [LName name])
          (map (fun rv => fst rv ++ [snd rv]) (combine (rows df) vals))).
Proof. intros H. unfold set_column. rewrite H, Nat.eqb_refl. reflexivity. Qed.

Lemma pd_concat_one_row {W A : Type} (cols : list (label W))
    (G : A -> list cell) (l : list A) :
  l <> [] ->
  pd_concat (map (fun a => mkDataFrame cols [G a]) l)
  = Ok (mkDataFrame cols (map G l)).
Proof.
  destruct l as [| a l]; [contradiction |]. intros _.
  unfold pd_concat. cbn [map columns]. do 2 f_equal.
  change (flat_map rows (map (fun a0 => mkDataFrame cols [G a0]) (a :: l))
          = map G (a :: l)).
  rewrite flat_map_map_comp. cbn [rows].
  induction (a :: l) as [| x xs IH]; simpl; [reflexivity | now rewrite IH].
Qed.

Lemma numeric_prefix_app (n : nat) (row extra : list cell) :
  numeric_prefix n row -> numeric_prefix n (row ++ extra).
Proof.
  intros [xs [rest [-> H]]]. exists xs, (rest ++ extra).
  now rewrite app_assoc.
Qed.

Lemma numeric_prefix_zip (n : nat) (rws : list (list cell)) (vals : list cell) :
  Forall (numeric_prefix n) rws ->
  Forall (numeric_prefix n)
         (map (fun rv => fst rv ++ [snd rv]) (combine rws vals)).
Proof.
  intros H. apply Forall_forall. intros row Hin.
  apply in_map_iff in Hin. destruct Hin as [[r v] [<- Hin]].
  apply in_combine_l in Hin. rewrite Forall_forall in H.
  apply numeric_prefix_app. now apply H.
Qed.

Lemma mapM_cell_number (xs : list number) :
  mapM cell_number (map CNum xs) = Ok xs.
Proof.
  induction xs as [| x xs IH]; simpl; [reflexivity |].
  rewrite IH. reflexivity.
Qed.

Lemma numeric_prefix_numbers (n : nat) (row : list cell) :
  numeric_prefix n row ->
  exists xs, mapM cell_number (firstn n row) = Ok xs /\ length xs = n.
Proof.
  intros [xs [rest [-> H]]]. exists xs. split; [| exact H].
  rewrite firstn_app, length_map, H, Nat.sub_diag. cbn [firstn].
  rewrite app_nil_r, firstn_all2 by (rewrite length_map; lia).
  apply mapM_cell_number.
Qed.

(** The rows [apply] computes when reference and rows hold numbers in
    their leading cells. *)
Lemma calibrated_rows_returned {W : Type} (self : ProcessEnviFile W)
    (spectra spectralon : DataFrame W) (k : float) :
  numeric_prefix (length (wavelengths self)) (hd [] (rows spectralon)) ->
  Forall (numeric_prefix (length (wavelengths self))) (rows spectra) ->
  exists new_rows,
    mapM (fun r =>
            soil <- mapM cell_number
                      (firstn (length (wavelengths self)) r) ;;
            ref <- mapM cell_number
                     (firstn (length (wavelengths self))
                             (hd [] (rows spectralon))) ;;
            cal <- getCalibratedSpectrum soil ref k ;;
            Ok (map (fun x => CNum (NFloat x)) (values cal)
                ++ skipn (length (wavelengths self)) r))
         (rows spectra) = Ok new_rows.
Proof.
  intros Href Hrows.
  destruct (numeric_prefix_numbers _ _ Href) as [ref [Er Hlr]].
  apply mapM_ok_exists. intros r Hr. rewrite Forall_forall in Hrows.
  destruct (numeric_prefix_numbers _ _ (Hrows r Hr)) as [soil [-> Hls]].
  cbn [bind]. rewrite Er. cbn [bind].
  destruct (getCalibratedSpectrum_same_length soil ref k) as [cal [-> _]];
    [lia |].
  cbn [bind]. eexists. reflexivity.
Qed.

(** The calibrated table is returned when reference and rows hold numbers
    in their leading cells, unless there is a single band and the table
    does not have exactly one row. *)
Lemma getCalibratedSpectra_returns {W : Type} (self : ProcessEnviFile W)
    (spectra spectralon : DataFrame W) (k : float) :
  numeric_prefix (length (wavelengths self)) (hd [] (rows spectralon)) ->
  Forall (numeric_prefix (length (wavelengths self))) (rows spectra) ->
  (length (wavelengths self) = 1%nat -> length (rows spectra) = 1%nat) ->
  exists d, getCalibratedSpectra self spectra spectralon k = Ok d.
Proof.
  intros Href Hrows Hone. unfold getCalibratedSpectra.
  destruct (calibrated_rows_returned self spectra spectralon k Href Hrows)
    as [new_rows ->].
  cbn [bind].
  destruct (Nat.eqb_spec (length (wavelengths self)) 1) as [E | E];
    cbn [andb].
  - rewrite (Hone E). cbn [Nat.eqb negb]. eexists. reflexivity.
  - eexists. reflexivity.
Qed.

Lemma good_row_numeric {W : Type} (self : ProcessEnviFile W)
    (vals : list number) :
  well_formed self ->
  length vals = length (bbl_original self) ->
  numeric_prefix (length (wavelengths self))
                 (map CNum (keep_good vals (bbl_original self))).
Proof.
  intros [Hlen [_ Hw]] Hv.
  exists (keep_good vals (bbl_original self)), [].
  split; [now rewrite app_nil_r |].
  rewrite Hw, !keep_good_length; auto.
Qed.

(** With an exact grid the zone's grid table is returned. *)
Lemma grid_table_returns {W : Type} (self : ProcessEnviFile W) (e : Edges) :
  well_formed self ->
  exact_grid (grid self) e ->
  exists d,
    getMeanSpectraFromSquareGrid self e "median" = Ok d /\
    Forall (numeric_prefix (length (wavelengths self))) (rows d).
Proof.
  intros Hwf Hex. pose proof Hwf as [Hlen [Hread Hw]].
  unfold exact_grid in Hex. unfold getMeanSpectraFromSquareGrid.
  destruct (getRealGridSize (grid self) e) as [r c]. cbn [fst snd] in *.
  destruct Hex as [Hr [Hc [Hnr Hnc]]].
  rewrite (getEdgesForGrid_cells e r c Hr Hc). cbn [bind].
  pose proof (length_grid_cells e (height_of e / r) (width_of e / c)) as Hlc.
  rewrite Hnr, Hnc in Hlc.
  set (cells := grid_cells e (height_of e / r) (width_of e / c)) in *.
  set (G := fun e' : Edges =>
              map CNum
                (keep_good
                   (map (fun i => NFloat (np_median (getRoi self e' i)))
                        (seq 0 (length (wavelengths_original self))))
                   (bbl_original self))).
  rewrite (mapM_ok_map _
             (fun e' => mkDataFrame (map LWave (wavelengths self)) [G e'])).
  2:{ intros e' _. rewrite Hw.
      apply (rectangle_table self e' "median"
               (fun roi => NFloat (np_median roi)));
        [apply reduce_roi_median | assumption ..]. }
  cbn [bind].
  assert (Hne : cells <> []).
  { intros E. rewrite E in Hlc. simpl in Hlc. nia. }
  rewrite (pd_concat_one_row _ G cells Hne). cbn [bind].
  assert (Hlab : length (getGridElements (Some (r, c))) = length cells).
  { rewrite length_getGridElements by lia. now rewrite Hlc. }
  rewrite set_column_Ok by (cbn [rows]; now rewrite !length_map).
  cbn [bind].
  rewrite set_column_Ok.
  2:{ cbn [rows]. now rewrite !length_map, length_combine, !length_map,
                    Hlab, Nat.min_id. }
  eexists. split; [reflexivity |]. cbn [rows].
  apply numeric_prefix_zip, numeric_prefix_zip.
  apply Forall_forall. intros row Hin. apply in_map_iff in Hin.
  destruct Hin as [e' [<- _]]. subst G. cbn beta.
  apply good_row_numeric; [exact Hwf |].
  now rewrite length_map, length_seq.
Qed.

(** With the spectralon rectangle and every zone resolvable, at least one
    zone, an exact grid on every zone and, when there is a single good
    band, a single cell per zone, [getMultipleSpectra] returns a table;
    its shape is then the one of [getMultipleSpectra_shape]. *)
Lemma getMultipleSpectra_returns {W : Type} (self : ProcessEnviFile W)
    (spec_edges : Edges) :
  well_formed self ->
  getEdgesFromPrefix self "spec" = Ok spec_edges ->
  zone_list self <> [] ->
  Forall (fun zone =>
            exists e, getEdgesFromPrefix self zone = Ok e /\
                      exact_grid (grid self) e /\
                      (length (wavelengths self) = 1%nat ->
                       nominal_cells (grid self) e = 1))
         (zone_list self) ->
  exists df zone_edges,
    getMultipleSpectra self = Ok df /\
    mapM (getEdgesFromPrefix self) (zone_list self) = Ok zone_edges /\
    Z.of_nat (length (rows df))
    = sumZ (map (nominal_cells (grid self)) zone_edges) /\
    length (columns df) = (length (wavelengths self) + 3)%nat.
Proof.
  intros Hwf Hspec Hne Hz.
  assert (Hret : exists df, getMultipleSpectra self = Ok df).
  { pose proof Hwf as [Hlen [Hread Hw]].
    unfold getMultipleSpectra. rewrite Hspec. cbn [bind].
    rewrite (rectangle_table self spec_edges "max10"
               (fun roi => NFloat (np_mean (last_n 10 (np_sort roi)))));
      [| apply reduce_roi_max10 | assumption ..].
    cbn [bind].
    match goal with
    | |- context [mapM ?f (zone_list self)] =>
        destruct (mapM_ok_exists f (zone_list self)) as [frames Hf]
    end.
    { intros zone Hin. rewrite Forall_forall in Hz.
      destruct (Hz zone Hin) as [e [-> [Hex Hone]]]. cbn [bind].
      destruct (grid_table_returns self e Hwf Hex) as [dz [Hdz Hrows]].
      rewrite Hdz. cbn [bind]. apply getCalibratedSpectra_returns.
      - cbn [rows hd]. apply good_row_numeric; [exact Hwf |].
        now rewrite length_map, length_seq.
      - cbn [set_column_scalar rows]. apply Forall_forall. intros row Hin'.
        apply in_map_iff in Hin'. destruct Hin' as [r0 [<- Hr0]].
        rewrite Forall_forall in Hrows.
        apply numeric_prefix_app. now apply Hrows.
      - intros H1. cbn [set_column_scalar rows]. rewrite length_map.
        destruct (grid_table_shape self e dz Hwf Hdz) as [_ Hr].
        rewrite (Hone H1) in Hr. lia. }
    rewrite Hf. cbn [bind].
    apply mapM_length in Hf.
    destruct frames as [| d frames].
    - destruct (zone_list self); [contradiction | discriminate].
    - eexists. reflexivity. }
  destruct Hret as [df Hdf].
  destruct (getMultipleSpectra_shape self df Hwf Hdf) as [es [Hes [Hr Hc]]].
  exists df, es. auto.
Qed.

Example getMultipleSpectra_returns_demo :
  exists df zone_edges,
    getMultipleSpectra (demo ["zone1"; "zone2"]%string (Some (1, 3))) = Ok df /\
    mapM (getEdgesFromPrefix (demo ["zone1"; "zone2"]%string (Some (1, 3))))
         ["zone1"; "zone2"]%string = Ok zone_edges /\
    Z.of_nat (length (rows df))
    = sumZ (map (nominal_cells (Some (1, 3))) zone_edges) /\
    length (columns df) = (2 + 3)%nat.
Proof.
  apply (getMultipleSpectra_returns
           (demo ["zone1"; "zone2"]%string (Some (1, 3)))
           (mkEdges 30 35 18 25)).
  - refine (init_well_formed demo_image [450; 460; 470]
              [PStr "1"; PStr "0"; PStr "1"] ["zone1"; "zone2"]%string
              demo_positions 0 None (Some (1, 3)) _ _).
    reflexivity.
  - reflexivity.
  - discriminate.
  - repeat constructor.
    + exists (mkEdges 10 15 5 8). split; [reflexivity |].
      split; [| intros Hx; discriminate Hx].
      vm_compute. repeat split; first [reflexivity | intros Hx; discriminate Hx].
    + exists (mkEdges 25 28 15 18). split; [reflexivity |].
      split; [| intros Hx; discriminate Hx].
      vm_compute. repeat split; first [reflexivity | intros Hx; discriminate Hx].
Qed.

(** The grid sizes of the test suite on the fixture's zones. *)
Example getMultipleSpectra_test_shapes :
  map (fun zg => match getMultipleSpectra (demo (fst zg) (snd zg)) with
                 | Ok df => Some (shape df)
                 | Raise _ => None
                 end)
      [(["zone1"], Some (1, 1)); (["zone1"; "zone2"], Some (1, 1));
       (["zone1"], Some (2, 3)); (["zone1"], Some (0, 0));
       (["zone1"], None)]%string
  = [Some (1, 5); Some (2, 5); Some (6, 5); Some (15, 5); Some (15, 5)]%nat.
Proof. vm_compute. reflexivity. Qed.

(** A processor with a single good band: a zone that is one grid cell is
    tabulated; a zone cut into three cells is refused by the column
    assignment of [getCalibratedSpectra]. *)
Example getMultipleSpectra_single_band :
  map (fun g =>
         match getMultipleSpectra
                 (mkProcessEnviFile demo_image [450; 460]
                    [PStr "1"; PStr "0"] ["zone1"%string] demo_positions
                    None g 0%nat [450]) with
         | Ok df => Ok (shape df)
         | Raise ex => Raise ex
         end)
      [Some (1, 1); Some (1, 3)]
  = [Ok (1, 4)%nat; Raise ValueError].
Proof. vm_compute. reflexivity. Qed.

(** C2 fails on the fixture's zone [10,15,5,8] with grid (2,2): the zone
    is cut into six cells but labelled with the four grid elements, the
    column assignment raises [ValueError], and no table with 2 x 2 rows is
    returned. *)
Theorem getMultipleSpectra_grid_2_2_raises :
  let p := demo ["zone1"%string] (Some (2, 2)) in
  well_formed p /\
  getEdgesFromPrefix p "zone1" = Ok (mkEdges 10 15 5 8) /\
  nominal_cells (grid p) (mkEdges 10 15 5 8) = 4 /\
  length (getGridElements (Some (getRealGridSize (grid p)
                                   (mkEdges 10 15 5 8)))) = 4%nat /\
  option_map (@length Edges)
    (match getEdgesForGrid (mkEdges 10 15 5 8)
             (getRealGridSize (grid p) (mkEdges 10 15 5 8)) with
     | Ok cells => Some cells
     | Raise _ => None
     end) = Some 6%nat /\
  getMeanSpectraFromSquareGrid p (mkEdges 10 15 5 8) "median"
  = Raise ValueError /\
  getMultipleSpectra p = Raise ValueError.
Proof.
  cbv zeta. split.
  - exact (init_well_formed _ _ _ _ _ _ _ _ _ init_demo).
  - repeat split; vm_compute; reflexivity.
Qed.

(* ================================================================== *)
(** * Further properties of the grid geometry *)

Lemma map_list_prod {A B C : Type} (f : A * B -> C) (l : list A)
    (l' : list B) :
  map f (list_prod l l') = flat_map (fun x => map (fun y => f (x, y)) l') l.
Proof.
  induction l as [| x l IH]; simpl; [reflexivity |].
  now rewrite map_app, map_map, IH.
Qed.

Lemma py_range2_shift (a b : Z) :
  py_range2 a b = map (fun i => a + i) (py_range (b - a)).
Proof. unfold py_range2, py_range. now rewrite map_map. Qed.

(** [getEdgesForGrid] returns a list of cells exactly when neither grid
    count is zero and neither is larger in magnitude than the extent it
    divides.  In every other case a cell size or a cell count is divided
    by zero and the call raises, whatever kind of integers the edges are
    (a [ZeroDivisionError] on Python integers; numpy integers give inf or
    nan, on which [int] raises). *)
Theorem getEdgesForGrid_returns_iff (e : Edges) (g0 g1 : Z) :
  (exists cells, getEdgesForGrid e (g0, g1) = Ok cells) <->
  g0 <> 0 /\ g1 <> 0 /\
  Z.abs g0 <= Z.abs (height_of e) /\ Z.abs g1 <= Z.abs (width_of e).
Proof.
  unfold getEdgesForGrid, int_truediv, height_of, width_of. cbn [fst snd].
  destruct (Z.eqb_spec g0 0) as [E0 | E0]; cbn [bind].
  { split; [intros [cells H]; discriminate H | intros [H _]; contradiction]. }
  destruct (Z.eqb_spec g1 0) as [E1 | E1]; cbn [bind].
  { split; [intros [cells H]; discriminate H |
            intros [_ [H _]]; contradiction]. }
  pose proof (Z.quot_small_iff (row_end e - row_start e) g0 E0) as Hh.
  pose proof (Z.quot_small_iff (col_end e - col_start e) g1 E1) as Hw.
  destruct (Z.eqb_spec (Z.quot (row_end e - row_start e) g0) 0) as [Eh | Eh];
    cbn [bind].
  { split; [intros [cells H]; discriminate H |].
    intros [_ [_ [H _]]]. apply Hh in Eh. lia. }
  destruct (Z.eqb_spec (Z.quot (col_end e - col_start e) g1) 0) as [Ew | Ew];
    cbn [bind].
  { split; [intros [cells H]; discriminate H |].
    intros [_ [_ [_ H]]]. apply Hw in Ew. lia. }
  split; [intros _ | intros _; eexists; reflexivity].
  repeat split; try assumption.
  - destruct (Z_lt_le_dec (Z.abs (row_end e - row_start e)) (Z.abs g0))
      as [Hlt | Hle]; [apply Hh in Hlt; contradiction | exact Hle].
  - destruct (Z_lt_le_dec (Z.abs (col_end e - col_start e)) (Z.abs g1))
      as [Hlt | Hle]; [apply Hw in Hlt; contradiction | exact Hle].
Qed.

(** With no grid, or the grid (0, 0), a rectangle of positive height and
    width is cut into its pixels: one unit cell per pixel, row-major. *)
Theorem pixel_grid_gives_unit_cells (e : Edges) (grid : option (Z * Z)) :
  grid = None \/ grid = Some (0, 0) ->
  0 < height_of e ->
  0 < width_of e ->
  getEdgesForGrid e (getRealGridSize grid e)
  = Ok (map unit_cell (pixels_of e)).
Proof.
  intros Hg HH HW.
  assert (Hgr : getRealGridSize grid e = (height_of e, width_of e)).
  { destruct Hg as [-> | ->]; reflexivity. }
  rewrite Hgr, getEdgesForGrid_cells by lia.
  rewrite !Z.div_same by lia. f_equal.
  unfold grid_cells, pixels_of. rewrite !Z.div_1_r, map_list_prod.
  rewrite !py_range2_shift, flat_map_map_comp.
  apply flat_map_ext. intros i. rewrite map_map. apply map_ext. intros j.
  unfold cell_at, unit_cell. cbn [fst snd]. f_equal; lia.
Qed.

Lemma pixel_grid_gives_unit_cells_witness :
  getEdgesForGrid (mkEdges 10 12 5 7)
                  (getRealGridSize (Some (0, 0)) (mkEdges 10 12 5 7))
  = Ok (map unit_cell (pixels_of (mkEdges 10 12 5 7))).
Proof.
  apply (pixel_grid_gives_unit_cells (mkEdges 10 12 5 7) (Some (0, 0))).
  - right. reflexivity.
  - reflexivity.
  - reflexivity.
Defined.

(** When each grid count divides its extent, the cells tile the rectangle:
    there are rows times columns of them and every pixel of the rectangle
    lies in exactly one. *)
Theorem cells_tile_rectangle (e : Edges) (g0 g1 : Z) :
  0 < g0 -> 0 < g1 ->
  0 < height_of e -> 0 < width_of e ->
  height_of e mod g0 = 0 ->
  width_of e mod g1 = 0 ->
  exists cells,
    getEdgesForGrid e (g0, g1) = Ok cells /\
    length cells = Z.to_nat (g0 * g1) /\
    forall row col,
      in_edges e row col ->
      exists c, In c cells /\ in_edges c row col /\
                forall c', In c' cells -> in_edges c' row col -> c' = c.
Proof.
  intros Hg0 Hg1 HH HW Hm0 Hm1.
  assert (EH : height_of e = g0 * (height_of e / g0))
    by (apply Z.div_exact; lia).
  assert (EW : width_of e = g1 * (width_of e / g1))
    by (apply Z.div_exact; lia).
  set (h := height_of e / g0) in *. set (w := width_of e / g1) in *.
  assert (Hh : 0 < h) by nia. assert (Hw : 0 < w) by nia.
  assert (Hle0 : g0 <= height_of e) by nia.
  assert (Hle1 : g1 <= width_of e) by nia.
  assert (Hnr : height_of e / h = g0).
  { rewrite EH at 1. apply Z.div_mul. lia. }
  assert (Hnc : width_of e / w = g1).
  { rewrite EW at 1. apply Z.div_mul. lia. }
  exists (grid_cells e h w).
  split; [apply getEdgesForGrid_cells; lia |].
  split.
  { rewrite length_grid_cells, Hnr, Hnc. lia. }
  intros row col [Hr Hc].
  set (i := (row - row_start e) / h). set (j := (col - col_start e) / w).
  pose proof (Z.div_mod (row - row_start e) h ltac:(lia)) as Di.
  pose proof (Z.mod_pos_bound (row - row_start e) h Hh) as Bi.
  pose proof (Z.div_mod (col - col_start e) w ltac:(lia)) as Dj.
  pose proof (Z.mod_pos_bound (col - col_start e) w Hw) as Bj.
  fold i in Di. fold j in Dj.
  assert (Hi : 0 <= i < g0).
  { unfold height_of in EH. split; [apply Z.div_pos; lia |].
    apply Z.div_lt_upper_bound; lia. }
  assert (Hj : 0 <= j < g1).
  { unfold width_of in EW. split; [apply Z.div_pos; lia |].
    apply Z.div_lt_upper_bound; lia. }
  exists (cell_at e h w i j). split; [| split].
  - apply In_grid_cells. exists i, j. rewrite Hnr, Hnc. auto.
  - unfold in_edges, cell_at. cbn. lia.
  - intros c' Hin [Hr' Hc'].
    apply In_grid_cells in Hin. destruct Hin as [i' [j' [_ [_ ->]]]].
    unfold cell_at in Hr', Hc'. cbn in Hr', Hc'.
    assert (Ei : i' = i) by nia. assert (Ej : j' = j) by nia.
    rewrite Ei, Ej. reflexivity.
Qed.

Lemma cells_tile_rectangle_witness :
  exists cells,
    getEdgesForGrid (mkEdges 10 16 5 8) (2, 3) = Ok cells /\
    length cells = Z.to_nat (2 * 3) /\
    forall row col,
      in_edges (mkEdges 10 16 5 8) row col ->
      exists c, In c cells /\ in_edges c row col /\
                forall c', In c' cells -> in_edges c' row col -> c' = c.
Proof.
  apply (cells_tile_rectangle (mkEdges 10 16 5 8) 2 3); reflexivity.
Defined.

(** When the grid cuts the rectangle exactly, the grid elements label the
    cells in order: the k-th label (i, j) belongs to the k-th cell, which
    is the cell in grid row i and grid column j. *)
Theorem grid_elements_label_cells (e : Edges) (grid : option (Z * Z)) :
  exact_grid grid e ->
  getEdgesForGrid e (getRealGridSize grid e)
  = Ok (map (fun el =>
               cell_at e (height_of e / fst (getRealGridSize grid e))
                       (width_of e / snd (getRealGridSize grid e))
                       (fst el) (snd el))
            (getGridElements (Some (getRealGridSize grid e)))).
Proof.
  unfold exact_grid. destruct (getRealGridSize grid e) as [r c].
  cbn [fst snd]. intros [Hr [Hc [Hnr Hnc]]].
  rewrite getEdgesForGrid_cells by assumption. f_equal.
  unfold grid_cells, getGridElements. rewrite Hnr, Hnc.
  destruct (Z.eqb_spec r 0); [lia |]. cbn [andb].
  now rewrite map_list_prod.
Qed.

Lemma grid_elements_label_cells_witness :
  getEdgesForGrid (mkEdges 10 15 5 8)
                  (getRealGridSize (Some (2, 3)) (mkEdges 10 15 5 8))
  = Ok (map (fun el => cell_at (mkEdges 10 15 5 8) 2 1 (fst el) (snd el))
            [(0, 0); (0, 1); (0, 2); (1, 0); (1, 1); (1, 2)]).
Proof.
  refine (grid_elements_label_cells (mkEdges 10 15 5 8) (Some (2, 3)) _).
  vm_compute. repeat split; first [reflexivity | intros Hx; discriminate Hx].
Defined.

(* ================================================================== *)
(** * Further properties of the reductions *)

Lemma available_pixels_empty_rectangle {W : Type} (self : ProcessEnviFile W)
    (edges : Edges) :
  row_end edges <= row_start edges \/ col_end edges <= col_start edges ->
  available_pixels self edges = [].
Proof.
  intros H. unfold available_pixels, py_range2.
  destruct H as [H | H].
  - replace (Z.to_nat (row_end edges - row_start edges)) with 0%nat by lia.
    reflexivity.
  - replace (Z.to_nat (col_end edges - col_start edges)) with 0%nat by lia.
    cbn [seq map].
    induction (map _ _) as [| x l IH]; [reflexivity | exact IH].
Qed.

Lemma keep_good_const {A B : Type} (c : B) (xs : list A) :
  forall bbl, length xs = length bbl ->
              keep_good (map (fun _ => c) xs) bbl = repeat c (count_good bbl).
Proof.
  unfold count_good.
  induction xs as [| x xs IH]; intros [| f bbl] H; try discriminate.
  - reflexivity.
  - simpl. destruct (is_good f); simpl; rewrite IH; auto.
Qed.

Lemma rectangle_table_nan {W : Type} (self : ProcessEnviFile W)
    (edges : Edges) (mode : string) (g : list Z -> number) :
  (forall roi, reduce_roi mode roi = Ok [g roi]) ->
  g [] = NFloat nan ->
  length (wavelengths_original self) = length (bbl_original self) ->
  flags_readable (bbl_original self) ->
  available_pixels self edges = [] ->
  getMeanSpectrumFromRectangle self edges mode
  = Ok (mkDataFrame
          (map LWave (keep_good (wavelengths_original self)
                                (bbl_original self)))
          [repeat (CNum (NFloat nan)) (count_good (bbl_original self))]).
Proof.
  intros Hg Hnan Hlen Hread Hempty.
  rewrite (rectangle_table self edges mode g Hg Hlen Hread).
  do 3 f_equal.
  rewrite (map_ext _ (fun _ => NFloat nan)).
  2:{ intros i. rewrite getRoi_map, Hempty. exact Hnan. }
  rewrite keep_good_const by (rewrite length_seq; exact Hlen).
  now rewrite map_repeat.
Qed.

(** Over a region without any available pixel (an empty or reversed
    rectangle, or every pixel skipped by the mask) the modes differ: with
    at least one band, "max" raises [ValueError], while "median", "mean"
    and "max10" raise nothing and return nan for every good band. *)
Theorem empty_region_by_mode {W : Type} (self : ProcessEnviFile W)
    (edges : Edges) :
  length (wavelengths_original self) = length (bbl_original self) ->
  flags_readable (bbl_original self) ->
  wavelengths_original self <> [] ->
  available_pixels self edges = [] ->
  let nans :=
    Ok (mkDataFrame
          (map LWave (keep_good (wavelengths_original self)
                                (bbl_original self)))
          [repeat (CNum (NFloat nan)) (count_good (bbl_original self))]) in
  getMeanSpectrumFromRectangle self edges "max" = Raise ValueError /\
  getMeanSpectrumFromRectangle self edges "median" = nans /\
  getMeanSpectrumFromRectangle self edges "mean" = nans /\
  getMeanSpectrumFromRectangle self edges "max10" = nans.
Proof.
  intros Hlen Hread Hne Hempty nans. split; [| split; [| split]].
  - unfold getMeanSpectrumFromRectangle, getSpectrumMean.
    destruct (wavelengths_original self) as [| w ws]; [contradiction |].
    cbn [length seq mapM]. rewrite getRoi_map, Hempty. reflexivity.
  - apply (rectangle_table_nan self edges "median"
             (fun roi => NFloat (np_median roi))); auto using reduce_roi_median.
  - apply (rectangle_table_nan self edges "mean"
             (fun roi => NFloat (np_mean roi))); auto.
  - apply (rectangle_table_nan self edges "max10"
             (fun roi => NFloat (np_mean (last_n 10 (np_sort roi)))));
      auto using reduce_roi_max10.
Qed.

Lemma empty_region_by_mode_witness :
  getMeanSpectrumFromRectangle (demo [] None) (mkEdges 10 10 5 8) "max"
  = Raise ValueError /\
  getMeanSpectrumFromRectangle (demo [] None) (mkEdges 10 10 5 8) "median"
  = Ok (mkDataFrame [LWave 450; LWave 470]
          [[CNum (NFloat nan); CNum (NFloat nan)]]).
Proof.
  pose proof (empty_region_by_mode (demo [] None) (mkEdges 10 10 5 8)) as H.
  cbv zeta in H.
  destruct H as [Hmax [Hmed _]].
  - reflexivity.
  - repeat constructor.
  - discriminate.
  - apply available_pixels_empty_rectangle. left. cbn. lia.
  - split; [exact Hmax | exact Hmed].
Defined.

(** A mode that is none of "median", "mean", "max" and "max10" is not
    rejected: whatever the processor and the rectangle, the result is a
    table of one row and no column. *)
Theorem unknown_mode_gives_empty_table {W : Type} (self : ProcessEnviFile W)
    (edges : Edges) (mode : string) :
  mode <> "median"%string -> mode <> "mean"%string ->
  mode <> "max"%string -> mode <> "max10"%string ->
  getMeanSpectrumFromRectangle self edges mode = Ok (mkDataFrame [] [[]]).
Proof.
  intros H1 H2 H3 H4.
  assert (Hr : forall roi, reduce_roi mode roi = Ok []).
  { intros roi. unfold reduce_roi.
    destruct (String.eqb_spec mode "median"); [contradiction |].
    destruct (String.eqb_spec mode "mean"); [contradiction |].
    destruct (String.eqb_spec mode "max"); [contradiction |].
    destruct (String.eqb_spec mode "max10"); [contradiction |].
    reflexivity. }
  unfold getMeanSpectrumFromRectangle, getSpectrumMean.
  rewrite (mapM_ok_map _ (fun _ => [])) by (intros i _; apply Hr).
  cbn [bind].
  assert (Hc : List.concat (map (fun _ : nat => @nil number)
                 (seq 0 (length (wavelengths_original self)))) = []).
  { induction (seq 0 _) as [| x l IH]; [reflexivity | exact IH]. }
  rewrite Hc. reflexivity.
Qed.

Lemma unknown_mode_gives_empty_table_witness :
  getMeanSpectrumFromRectangle (demo [] None) (mkEdges 10 15 5 8) "Median"
  = Ok (mkDataFrame [] [[]]).
Proof.
  apply (unknown_mode_gives_empty_table (demo [] None) (mkEdges 10 15 5 8)
           "Median"); discriminate.
Defined.

Lemma StronglySorted_app_le (l1 l2 : list Z) :
  StronglySorted Z.le (l1 ++ l2) ->
  forall x y, In x l1 -> In y l2 -> x <= y.
Proof.
  induction l1 as [| a l1 IH]; intros Hs x y Hx Hy; [contradiction |].
  simpl in Hs. inversion Hs as [| ? ? Hs' Hall]; subst.
  destruct Hx as [<- | Hx].
  - rewrite Forall_forall in Hall. apply Hall. apply in_or_app. now right.
  - now apply IH.
Qed.

Lemma np_sort_strongly_sorted (l : list Z) : StronglySorted Z.le (np_sort l).
Proof.
  apply Sorted_StronglySorted; [| apply np_sort_sorted].
  intros x y z. apply Z.le_trans.
Qed.

(** With 10 values or more, "max10" is the mean of exactly 10 of them,
    and none of the values left out exceeds any of the 10 taken. *)
Theorem max10_takes_the_ten_largest (roi : list Z) :
  (10 <= length roi)%nat ->
  let top := last_n 10 (np_sort roi) in
  let rest := firstn (length roi - 10) (np_sort roi) in
  reduce_roi "max10" roi = Ok [NFloat (np_mean top)] /\
  length top = 10%nat /\
  Permutation roi (rest ++ top) /\
  forall x y, In x rest -> In y top -> x <= y.
Proof.
  intros Hlen top rest.
  pose proof (np_sort_perm roi) as Hp.
  pose proof (Permutation_length Hp) as Hl.
  assert (Hsplit : np_sort roi = rest ++ top).
  { subst rest top. unfold last_n. rewrite <- Hl.
    symmetry. apply firstn_skipn. }
  split; [reflexivity |]. split; [| split].
  - subst top. unfold last_n. rewrite length_skipn. lia.
  - now rewrite <- Hsplit.
  - apply StronglySorted_app_le. rewrite <- Hsplit.
    apply np_sort_strongly_sorted.
Qed.

Lemma max10_takes_the_ten_largest_witness :
  reduce_roi "max10" [5; 100; 7; 8; 9; 10; 11; 12; 13; 14; 15; 1]
  = Ok [NFloat 19.9%float].
Proof.
  refine (proj1 (max10_takes_the_ten_largest
                   [5; 100; 7; 8; 9; 10; 11; 12; 13; 14; 15; 1] _)).
  simpl. lia.
Defined.

Lemma sorted_perm_unique (l : list Z) :
  forall l', StronglySorted Z.le l -> StronglySorted Z.le l' ->
             Permutation l l' -> l = l'.
Proof.
  induction l as [| x l IH]; intros l' Hs Hs' Hp.
  - apply Permutation_nil in Hp. now subst.
  - destruct l' as [| y l'].
    { apply Permutation_sym, Permutation_nil in Hp. discriminate. }
    inversion Hs as [| ? ? Hs1 Hall]; subst.
    inversion Hs' as [| ? ? Hs1' Hall']; subst.
    rewrite Forall_forall in Hall, Hall'.
    assert (Hxy : x = y).
    { assert (Hx : In x (y :: l'))
        by (apply (Permutation_in _ Hp); now left).
      assert (Hy : In y (x :: l))
        by (apply (Permutation_in _ (Permutation_sym Hp)); now left).
      destruct Hx as [-> | Hx]; [reflexivity |].
      destruct Hy as [-> | Hy]; [reflexivity |].
      apply Hall in Hy. apply Hall' in Hx. lia. }
    subst y. f_equal. apply IH; try assumption.
    now apply Permutation_cons_inv in Hp.
Qed.

Lemma np_sort_perm_invariant (l l' : list Z) :
  Permutation l l' -> np_sort l = np_sort l'.
Proof.
  intros Hp. apply sorted_perm_unique; try apply np_sort_strongly_sorted.
  rewrite <- (np_sort_perm l), <- (np_sort_perm l'). exact Hp.
Qed.

Lemma np_max_spec (x : Z) (r : list Z) :
  In (fold_right Z.max x r) (x :: r) /\
  forall y, In y (x :: r) -> y <= fold_right Z.max x r.
Proof.
  induction r as [| a r [Hin Hub]]; simpl.
  - split; [now left | intros y [<- | []]; lia].
  - split.
    + destruct (Z.max_spec a (fold_right Z.max x r)) as [[_ ->] | [_ ->]].
      * destruct Hin as [Hin | Hin]; [now left | right; now right].
      * right. now left.
    + intros y [<- | [<- | Hy]].
      * specialize (Hub x (or_introl eq_refl)). lia.
      * lia.
      * specialize (Hub y (or_intror Hy)). lia.
Qed.

Lemma np_max_perm_invariant (l l' : list Z) :
  Permutation l l' -> np_max l = np_max l'.
Proof.
  intros Hp. destruct l as [| x r]; destruct l' as [| x' r'].
  - reflexivity.
  - apply Permutation_nil in Hp. discriminate.
  - apply Permutation_sym, Permutation_nil in Hp. discriminate.
  - unfold np_max. f_equal.
    destruct (np_max_spec x r) as [Hin Hub].
    destruct (np_max_spec x' r') as [Hin' Hub'].
    apply (Permutation_in _ Hp) in Hin.
    apply (Permutation_in _ (Permutation_sym Hp)) in Hin'.
    apply Hub' in Hin. apply Hub in Hin'. lia.
Qed.

(* ------------------------------------------------------------------ *)
(** ** Sums of integers in binary64

    The sum inside [np.mean] is accumulated in float64.  The lemmas below
    show, from the specification of the float operations, that adding
    integers in binary64 is exact below 2^53, so that every order and
    grouping of the additions gives the exact sum that [np_mean] rounds. *)

Lemma iter_pos_iter {A : Type} (f : A -> A) (n : positive) :
  forall x, iter_pos f n x = Pos.iter f x n.
Proof.
  induction n as [n IH | n IH |]; intros x; cbn [iter_pos Pos.iter].
  - rewrite !IH. now rewrite <- !Pos.iter_swap.
  - now rewrite !IH.
  - reflexivity.
Qed.

Lemma digits2_pos_iter_xO (c : positive) (k : positive) :
  Zpos (digits2_pos (Pos.iter xO c k)) = Zpos (digits2_pos c) + Zpos k.
Proof.
  induction k as [| k IH] using Pos.peano_ind.
  - cbn. lia.
  - rewrite Pos.iter_succ. cbn [digits2_pos]. lia.
Qed.

Lemma Zpos_iter_xO (c k : positive) :
  Zpos (Pos.iter xO c k) = Zpos c * 2 ^ Zpos k.
Proof.
  induction k as [| k IH] using Pos.peano_ind.
  - cbn. lia.
  - rewrite Pos.iter_succ, Pos2Z.inj_succ, Z.pow_succ_r by lia.
    rewrite Pos2Z.inj_xO, IH. lia.
Qed.

Lemma shr_iter_xO (m k : positive) :
  Pos.iter shr_1 (Build_shr_record (Zpos (Pos.iter xO m k)) false false) k
  = Build_shr_record (Zpos m) false false.
Proof.
  revert m. induction k as [| k IH] using Pos.peano_ind; intros m.
  - reflexivity.
  - rewrite Pos.iter_succ_r. rewrite Pos.iter_succ. cbn [shr_1 orb].
    apply IH.
Qed.

(** A mantissa of 53 digits shifted left by [t] bits at exponent [E - t]
    rounds to itself at exponent [E]. *)
Lemma binary_round_aux_canonical (sx : bool) (m : positive) (E t : Z) :
  Zpos (digits2_pos m) = 53 ->
  -1074 <= E <= 971 ->
  0 <= t ->
  binary_round_aux prec emax sx (Zpos (shiftl_pos m t)) (E - t) loc_Exact
  = S754_finite sx m E.
Proof.
  intros Hd HE Ht. unfold binary_round_aux.
  assert (Hs : shr_fexp prec emax (Zpos (shiftl_pos m t)) (E - t) loc_Exact
               = (Build_shr_record (Zpos m) false false, E)).
  { unfold shr_fexp. cbn [Zdigits2 shr_record_of_loc].
    destruct t as [| p | p]; [| | lia]; cbn [shiftl_pos].
    - rewrite Hd. replace (fexp prec emax (53 + (E - 0)) - (E - 0)) with 0
        by (unfold fexp, emin, prec, emax; lia).
      cbn [shr]. f_equal. lia.
    - rewrite digits2_pos_iter_xO, Hd.
      replace (fexp prec emax (53 + Zpos p + (E - Zpos p)) - (E - Zpos p))
        with (Zpos p) by (unfold fexp, emin, prec, emax; lia).
      cbn [shr]. rewrite iter_pos_iter, shr_iter_xO. f_equal. lia. }
  rewrite Hs. cbn [shr_m loc_of_shr_record round_nearest_even].
  assert (Hs' : shr_fexp prec emax (Zpos m) E loc_Exact
                = (Build_shr_record (Zpos m) false false, E)).
  { unfold shr_fexp. cbn [Zdigits2 shr_record_of_loc]. rewrite Hd.
    replace (fexp prec emax (53 + E) - E) with 0
      by (unfold fexp, emin, prec, emax; lia).
    reflexivity. }
  rewrite Hs'. cbn [shr_m].
  replace (E <=? emax - prec) with true; [reflexivity |].
  symmetry. apply Z.leb_le. unfold emax, prec. lia.
Qed.

Lemma shiftl_pos_add (c : positive) (a b : Z) :
  0 <= a -> 0 <= b -> shiftl_pos (shiftl_pos c a) b = shiftl_pos c (a + b).
Proof.
  intros Ha Hb. destruct a as [| p | p]; [| | lia];
    destruct b as [| q | q]; try lia; cbn [shiftl_pos Z.add]; try reflexivity.
  now rewrite Pos.add_comm, Pos.iter_add.
Qed.

Lemma digits_shiftl_pos (c : positive) (k : Z) :
  0 <= k ->
  Zpos (digits2_pos (shiftl_pos c k)) = Zpos (digits2_pos c) + k.
Proof.
  intros Hk. destruct k as [| p | p]; [| | lia]; cbn [shiftl_pos].
  - lia.
  - apply digits2_pos_iter_xO.
Qed.

Lemma Zpos_shiftl_pos (c : positive) (k : Z) :
  0 <= k -> Zpos (shiftl_pos c k) = Zpos c * 2 ^ k.
Proof.
  intros Hk. destruct k as [| p | p]; [| | lia]; cbn [shiftl_pos].
  - cbn. lia.
  - apply Zpos_iter_xO.
Qed.

(** An integer of at most 53 digits, shifted left by [k] bits at exponent
    [-k], rounds to its normal form, whatever [k] is. *)
Lemma binary_round_shifted (sx : bool) (c : positive) (k : Z) :
  Zpos (digits2_pos c) <= 53 ->
  0 <= k ->
  binary_round prec emax sx (shiftl_pos c k) (- k)
  = S754_finite sx (shiftl_pos c (53 - Zpos (digits2_pos c)))
                (Zpos (digits2_pos c) - 53).
Proof.
  intros Hd Hk. unfold binary_round.
  rewrite digits_shiftl_pos by exact Hk.
  set (dc := Zpos (digits2_pos c)) in *.
  assert (Hdc : 1 <= dc) by (subst dc; lia).
  replace (fexp prec emax (dc + k + - k)) with (dc - 53)
    by (unfold fexp, emin, prec, emax; lia).
  set (M := shiftl_pos c (53 - dc)).
  assert (HM : Zpos (digits2_pos M) = 53).
  { subst M. rewrite digits_shiftl_pos by lia. fold dc. lia. }
  unfold shl_align.
  destruct (dc - 53 - - k) as [| t | d] eqn:Et.
  - (* no shift either way *)
    replace k with (53 - dc) by lia. fold M.
    replace (- (53 - dc)) with (dc - 53 - 0) by lia.
    change M with (shiftl_pos M 0) at 1.
    apply binary_round_aux_canonical; [exact HM | lia | lia].
  - (* the mantissa is longer than 53 digits: shifted right by [t] *)
    replace (shiftl_pos c k) with (shiftl_pos M (Zpos t)).
    2:{ subst M. rewrite shiftl_pos_add by lia. f_equal. lia. }
    replace (- k) with (dc - 53 - Zpos t) by lia.
    apply binary_round_aux_canonical; [exact HM | lia | lia].
  - (* shorter: shifted left by [d] *)
    replace (Pos.iter xO (shiftl_pos c k) d) with M.
    2:{ subst M. change (Pos.iter xO (shiftl_pos c k) d)
          with (shiftl_pos (shiftl_pos c k) (Zpos d)).
        rewrite shiftl_pos_add by lia. f_equal. lia. }
    replace (dc - 53) with (dc - 53 - 0) at 1 by lia.
    change M with (shiftl_pos M 0) at 1.
    apply binary_round_aux_canonical; [exact HM | lia | lia].
Qed.

Lemma digits2_pos_bound (p : positive) :
  2 ^ (Zpos (digits2_pos p) - 1) <= Zpos p < 2 ^ Zpos (digits2_pos p).
Proof.
  induction p as [p IH | p IH |]; cbn [digits2_pos].
  - rewrite Pos2Z.inj_succ.
    replace (Z.succ (Zpos (digits2_pos p)) - 1)
      with (Z.succ (Zpos (digits2_pos p) - 1)) by lia.
    rewrite !Z.pow_succ_r by lia. lia.
  - rewrite Pos2Z.inj_succ.
    replace (Z.succ (Zpos (digits2_pos p)) - 1)
      with (Z.succ (Zpos (digits2_pos p) - 1)) by lia.
    rewrite !Z.pow_succ_r by lia. lia.
  - cbn. lia.
Qed.

Lemma digits2_pos_le_53 (p : positive) :
  Zpos p < 2 ^ 53 -> Zpos (digits2_pos p) <= 53.
Proof.
  intros H. pose proof (digits2_pos_bound p) as [Hl _].
  destruct (Z_le_gt_dec (Zpos (digits2_pos p)) 53) as [Hle | Hgt];
    [exact Hle | exfalso].
  assert (2 ^ 53 <= 2 ^ (Zpos (digits2_pos p) - 1))
    by (apply Z.pow_le_mono_r; lia).
  lia.
Qed.

Lemma binary_round_int (sx : bool) (p : positive) :
  Zpos p < 2 ^ 53 ->
  binary_round prec emax sx p 0
  = S754_finite sx (shiftl_pos p (53 - Zpos (digits2_pos p)))
                (Zpos (digits2_pos p) - 53).
Proof.
  intros Hp.
  exact (binary_round_shifted sx p 0 (digits2_pos_le_53 p Hp) (Z.le_refl 0)).
Qed.

Lemma Z2SF_finite (s : bool) (p : positive) :
  Zpos p < 2 ^ 53 ->
  Z2SF (cond_Zopp s (Zpos p))
  = S754_finite s (shiftl_pos p (53 - Zpos (digits2_pos p)))
                (Zpos (digits2_pos p) - 53).
Proof.
  intros Hp. unfold Z2SF.
  destruct s; cbn [cond_Zopp Z.opp binary_normalize];
    now apply binary_round_int.
Qed.

Lemma Z2SF_scaled (c k : Z) :
  Z.abs c < 2 ^ 53 -> 0 <= k ->
  binary_normalize prec emax (c * 2 ^ k) (- k) false = Z2SF c.
Proof.
  intros Hc Hk. unfold Z2SF.
  destruct c as [| p | p].
  - reflexivity.
  - rewrite <- Zpos_shiftl_pos by exact Hk. cbn [binary_normalize].
    rewrite binary_round_shifted by (try apply digits2_pos_le_53; lia).
    now rewrite binary_round_int by lia.
  - replace (Zneg p * 2 ^ k) with (- (Zpos p * 2 ^ k)) by lia.
    rewrite <- Zpos_shiftl_pos by exact Hk. cbn [Z.opp binary_normalize].
    rewrite binary_round_shifted by (try apply digits2_pos_le_53; lia).
    now rewrite binary_round_int by lia.
Qed.

Lemma Z2SF_valid (z : Z) :
  Z.abs z < 2 ^ 53 -> valid_binary (Z2SF z) = true.
Proof.
  intros Hz. destruct z as [| p | p]; [reflexivity | |].
  - change (Zpos p) with (cond_Zopp false (Zpos p)).
    rewrite Z2SF_finite by lia. unfold valid_binary.
    cbn [SpecFloat.valid_binary].
    pose proof (digits2_pos_le_53 p ltac:(lia)) as Hd.
    unfold bounded, canonical_mantissa.
    rewrite digits_shiftl_pos by lia.
    apply andb_true_intro. split.
    + apply Z.eqb_eq. unfold fexp, emin, prec, emax. lia.
    + apply Z.leb_le. unfold prec, emax. lia.
  - change (Zneg p) with (cond_Zopp true (Zpos p)).
    rewrite Z2SF_finite by lia. unfold valid_binary.
    cbn [SpecFloat.valid_binary].
    pose proof (digits2_pos_le_53 p ltac:(lia)) as Hd.
    unfold bounded, canonical_mantissa.
    rewrite digits_shiftl_pos by lia.
    apply andb_true_intro. split.
    + apply Z.eqb_eq. unfold fexp, emin, prec, emax. lia.
    + apply Z.leb_le. unfold prec, emax. lia.
Qed.

Lemma Prim2SF_Z2float (z : Z) :
  Z.abs z < 2 ^ 53 -> Prim2SF (Z2float z) = Z2SF z.
Proof.
  intros Hz. unfold Z2float. apply Prim2SF_SF2Prim. now apply Z2SF_valid.
Qed.

Lemma fst_shl_align (m : positive) (e ez : Z) :
  ez <= e -> fst (shl_align m e ez) = shiftl_pos m (e - ez).
Proof.
  intros H. unfold shl_align.
  destruct (ez - e) as [| d | d] eqn:E; [| lia |]; cbn [fst].
  - replace (e - ez) with 0 by lia. reflexivity.
  - replace (e - ez) with (Zpos d) by lia. reflexivity.
Qed.

Lemma cond_Zopp_mul (s : bool) (x y : Z) :
  cond_Zopp s (x * y) = cond_Zopp s x * y.
Proof. destruct s; cbn [cond_Zopp]; lia. Qed.

Lemma Z_sign_abs (z : Z) :
  z <> 0 -> exists s p, z = cond_Zopp s (Zpos p) /\ Z.abs z = Zpos p.
Proof.
  destruct z as [| p | p]; intros H; [contradiction | |].
  - exists false, p. split; reflexivity.
  - exists true, p. split; reflexivity.
Qed.

(** Adding two integers in binary64 is exact while the operands and the
    sum stay below 2^53 in magnitude. *)
Lemma SFadd_Z2SF (a b : Z) :
  Z.abs a < 2 ^ 53 -> Z.abs b < 2 ^ 53 -> Z.abs (a + b) < 2 ^ 53 ->
  SFadd prec emax (Z2SF a) (Z2SF b) = Z2SF (a + b).
Proof.
  intros Ha Hb Hab.
  destruct (Z.eq_dec b 0) as [-> | Nb].
  { rewrite Z.add_0_r. destruct (Z.eq_dec a 0) as [-> | Na]; [reflexivity |].
    destruct (Z_sign_abs a Na) as [s [p [-> Hp]]].
    rewrite Z2SF_finite by (rewrite <- Hp; exact Ha). reflexivity. }
  destruct (Z.eq_dec a 0) as [-> | Na].
  { cbn [Z.add]. destruct (Z_sign_abs b Nb) as [s [p [-> Hp]]].
    rewrite Z2SF_finite by (rewrite <- Hp; exact Hb). reflexivity. }
  destruct (Z_sign_abs a Na) as [sa [pa [Ea Hpa]]].
  destruct (Z_sign_abs b Nb) as [sb [pb [Eb Hpb]]].
  rewrite Ea at 1. rewrite Eb at 1.
  rewrite !Z2SF_finite by lia.
  pose proof (digits2_pos_le_53 pa ltac:(lia)) as Hda.
  pose proof (digits2_pos_le_53 pb ltac:(lia)) as Hdb.
  cbn [SFadd].
  set (da := Zpos (digits2_pos pa)) in *.
  set (db := Zpos (digits2_pos pb)) in *.
  assert (Hda1 : 1 <= da) by (subst da; lia).
  assert (Hdb1 : 1 <= db) by (subst db; lia).
  set (ez := Z.min (da - 53) (db - 53)).
  rewrite !fst_shl_align by (subst ez; lia).
  rewrite !shiftl_pos_add by (subst ez; lia).
  replace (53 - da + (da - 53 - ez)) with (- ez) by lia.
  replace (53 - db + (db - 53 - ez)) with (- ez) by lia.
  rewrite !Zpos_shiftl_pos by (subst ez; lia).
  rewrite !cond_Zopp_mul, <- Z.mul_add_distr_r, <- Ea, <- Eb.
  pose proof (Z2SF_scaled (a + b) (- ez) Hab ltac:(subst ez; lia)) as Hn.
  rewrite Z.opp_involutive in Hn. exact Hn.
Qed.

Theorem Z2float_add_exact (a b : Z) :
  Z.abs a < 2 ^ 53 -> Z.abs b < 2 ^ 53 -> Z.abs (a + b) < 2 ^ 53 ->
  (Z2float a + Z2float b)%float = Z2float (a + b).
Proof.
  intros Ha Hb Hab. apply Prim2SF_inj.
  rewrite add_spec, !Prim2SF_Z2float by assumption.
  now apply SFadd_Z2SF.
Qed.

Lemma sumZ_app (l1 l2 : list Z) : sumZ (l1 ++ l2) = sumZ l1 + sumZ l2.
Proof.
  induction l1 as [| x l1 IH]; simpl; [reflexivity | rewrite IH; lia].
Qed.

Lemma sumZ_abs_bounds (l : list Z) :
  0 <= sumZ (map Z.abs l) /\ Z.abs (sumZ l) <= sumZ (map Z.abs l).
Proof. induction l as [| x l IH]; simpl; lia. Qed.

(** However the values are added up in binary64, the result is their
    exact sum, as long as their absolute values sum to less than 2^53. *)
Lemma float64_sum_exact (l : list Z) (f : float) :
  float64_sum l f ->
  sumZ (map Z.abs l) < 2 ^ 53 ->
  f = Z2float (sumZ l).
Proof.
  induction 1 as [| x | l1 l2 f1 f2 _ IH1 _ IH2 | l l' f Hp _ IH]; intros Hb.
  - reflexivity.
  - cbn. now rewrite Z.add_0_r.
  - rewrite map_app, sumZ_app in Hb.
    pose proof (sumZ_abs_bounds l1) as [P1 B1].
    pose proof (sumZ_abs_bounds l2) as [P2 B2].
    rewrite IH1, IH2 by lia. rewrite sumZ_app.
    apply Z2float_add_exact; lia.
  - rewrite <- (sumZ_perm _ _ Hp). apply IH.
    now rewrite (sumZ_perm _ _ (Permutation_map Z.abs Hp)).
Qed.

(** The value reduced from a band does not depend on the order in which
    the pixels were collected.  The modes "median", "max" and "max10"
    sort the values or take their maximum first.  For "mean" the values
    are taken to sum, in absolute value, to less than 2^53: then, in
    whatever order and grouping [np.mean] adds the values up in float64,
    the result is the one value [np_mean] gives, the exact sum divided by
    the count.  (Beyond that bound the float64 sum depends on the order,
    and [np_mean] no longer stands for it.) *)
Theorem reduce_roi_order_independent (mode : string) (roi roi' : list Z) :
  Permutation roi roi' ->
  (mode = "mean"%string -> sumZ (map Z.abs roi) < 2 ^ 53) ->
  reduce_roi mode roi = reduce_roi mode roi' /\
  (mode = "mean"%string ->
   forall f, float64_sum roi' f ->
             reduce_roi mode roi
             = Ok [NFloat (f / Z2float (Z.of_nat (length roi')))%float]).
Proof.
  intros Hp Hb. split.
  - unfold reduce_roi, np_median, np_mean.
    rewrite (np_sort_perm_invariant _ _ Hp), (np_max_perm_invariant _ _ Hp),
      (sumZ_perm _ _ Hp), (Permutation_length Hp).
    reflexivity.
  - intros -> f Hf. specialize (Hb eq_refl).
    rewrite (sumZ_perm _ _ (Permutation_map Z.abs Hp)) in Hb.
    rewrite (float64_sum_exact roi' f Hf Hb).
    cbn [reduce_roi String.eqb Ascii.eqb Bool.eqb]. unfold np_mean.
    now rewrite (sumZ_perm _ _ Hp), (Permutation_length Hp).
Qed.

Lemma reduce_roi_order_independent_witness :
  reduce_roi "mean" [3; 1; 2; 9] = reduce_roi "mean" [9; 2; 1; 3] /\
  reduce_roi "mean" [3; 1; 2; 9]
  = Ok [NFloat (((Z2float 9 + Z2float 2) + (Z2float 1 + Z2float 3))
                / Z2float 4)%float] /\
  reduce_roi "median" [3; 1; 2; 9] = reduce_roi "median" [9; 2; 1; 3].
Proof.
  assert (Hp : Permutation [3; 1; 2; 9] [9; 2; 1; 3]).
  { change [9; 2; 1; 3] with (rev [3; 1; 2; 9]). apply Permutation_rev. }
  assert (Hb : sumZ (map Z.abs [3; 1; 2; 9]) < 2 ^ 53)
    by (vm_compute; reflexivity).
  destruct (reduce_roi_order_independent "mean" [3; 1; 2; 9] [9; 2; 1; 3]
              Hp (fun _ => Hb)) as [Hmean Hsum].
  split; [exact Hmean |]. split.
  - apply (Hsum eq_refl).
    exact (sum_add [9; 2] [1; 3] _ _
             (sum_add [9] [2] _ _ (sum_one 9) (sum_one 2))
             (sum_add [1] [3] _ _ (sum_one 1) (sum_one 3))).
  - apply (reduce_roi_order_independent "median" [3; 1; 2; 9] [9; 2; 1; 3]
             Hp).
    intros H. discriminate H.
Defined.

(* ================================================================== *)
(** * Further properties of the band filter *)

Lemma getitem_end {A : Type} (l : list A) (i : nat) :
  (length l <= i)%nat -> getitem l i = Raise IndexError.
Proof.
  intros H. unfold getitem.
  now rewrite (proj2 (nth_error_None l i) H).
Qed.

Lemma removeBadBands_from_general {W V : Type} (spectrum : list V) :
  forall (pw wl : list W) (pb bbl : list pyval),
    length pw = length pb ->
    (length bbl <= length wl)%nat ->
    flags_readable bbl ->
    removeBadBands_from (length pw) spectrum (pw ++ wl) (pb ++ bbl)
    = if (length spectrum <=? length bbl)%nat
      then Ok (keep_good wl (firstn (length spectrum) bbl),
               keep_good spectrum bbl)
      else Raise IndexError.
Proof.
  induction spectrum as [| refl rest IH]; intros pw wl pb bbl Hp Hw Hr.
  - cbn. destruct wl; reflexivity.
  - destruct bbl as [| f bbl].
    + cbn [removeBadBands_from length Nat.leb].
      rewrite getitem_end by (rewrite app_nil_r; lia). reflexivity.
    + destruct wl as [| w wl]; [simpl in Hw; lia |].
      inversion Hr as [| ? ? Hf Hr']; subst. simpl in Hw.
      assert (IH' : removeBadBands_from (S (length pw)) rest
                      (pw ++ w :: wl) (pb ++ f :: bbl)
                    = if (length rest <=? length bbl)%nat
                      then Ok (keep_good wl (firstn (length rest) bbl),
                               keep_good rest bbl)
                      else Raise IndexError).
      { specialize (IH (pw ++ [w]) wl (pb ++ [f]) bbl).
        rewrite !length_app in IH. simpl in IH.
        rewrite <- !app_assoc in IH. simpl in IH.
        replace (length pw + 1)%nat with (S (length pw)) in IH by lia.
        apply IH; auto; lia. }
      cbn [removeBadBands_from keep_good length firstn Nat.leb].
      rewrite Hp at 1. rewrite getitem_middle. cbn [bind].
      unfold is_good.
      destruct (py_int f) as [n | e]; [| discriminate Hf].
      cbn [bind].
      destruct (n =? 1).
      * rewrite getitem_middle. cbn [bind]. rewrite IH'.
        destruct (length rest <=? length bbl)%nat; reflexivity.
      * exact IH'.
Qed.

(** With readable flags and at least as many wavelengths as flags: a
    spectrum no longer than the flag list is filtered by its leading
    flags, the flags beyond it being ignored; a spectrum longer than the
    flag list raises [IndexError]. *)
Theorem removeBadBands_misaligned {W V : Type} (spectrum : list V)
    (wavelengths : list W) (bbl : list pyval) :
  flags_readable bbl ->
  (length bbl <= length wavelengths)%nat ->
  ((length spectrum <= length bbl)%nat ->
   removeBadBands spectrum wavelengths bbl
   = Ok (keep_good wavelengths (firstn (length spectrum) bbl),
         keep_good spectrum bbl)) /\
  ((length bbl < length spectrum)%nat ->
   removeBadBands spectrum wavelengths bbl = Raise IndexError).
Proof.
  intros Hr Hw.
  pose proof (removeBadBands_from_general spectrum [] wavelengths [] bbl
                eq_refl Hw Hr) as H.
  cbn [length app] in H. unfold removeBadBands. rewrite H.
  split; intros Hl.
  - now rewrite (proj2 (Nat.leb_le _ _) Hl).
  - now rewrite (proj2 (Nat.leb_gt _ _) Hl).
Qed.

Lemma removeBadBands_misaligned_witness :
  removeBadBands [7; 8] [450; 460; 470] [PInt 1; PInt 1; PInt 1]
  = Ok ([450; 460], [7; 8]) /\
  removeBadBands [7; 8; 9] [450; 460; 470] [PInt 1; PInt 1]
  = Raise IndexError.
Proof.
  split.
  - refine (proj1 (removeBadBands_misaligned [7; 8] [450; 460; 470]
                     [PInt 1; PInt 1; PInt 1] _ _) _).
    + repeat constructor.
    + simpl. lia.
    + simpl. lia.
  - refine (proj2 (removeBadBands_misaligned [7; 8; 9] [450; 460; 470]
                     [PInt 1; PInt 1] _ _) _).
    + repeat constructor.
    + simpl. lia.
    + simpl. lia.
Defined.

(** Validation settles after one pass: validating a validated pair gives
    it back unchanged (139 entries become 138, and 138 stay). *)
Theorem validateWavelengths_idempotent {W : Type} (wavelengths wo : list W)
    (bbl bo : list pyval) :
  validateWavelengths wavelengths bbl = Ok (wo, bo) ->
  validateWavelengths wo bo = Ok (wo, bo).
Proof.
  intros H. pose proof (validateWavelengths_Ok _ _ _ _ H) as Hlen.
  assert (Hne : length wo <> 139%nat).
  { unfold validateWavelengths in H.
    destruct (negb (length wavelengths =? length bbl)%nat); [discriminate |].
    destruct (Nat.eqb_spec (length wavelengths) 139) as [E | E];
      injection H as <- <-.
    - destruct wavelengths; simpl in *; lia.
    - exact E. }
  unfold validateWavelengths. rewrite Hlen, Nat.eqb_refl. cbn [negb].
  rewrite <- Hlen.
  destruct (Nat.eqb_spec (length wo) 139); [contradiction | reflexivity].
Qed.

Lemma validateWavelengths_idempotent_witness :
  validateWavelengths (repeat 500 138) (repeat (PInt 1) 138)
  = Ok (repeat 500 138, repeat (PInt 1) 138).
Proof.
  apply (validateWavelengths_idempotent (0 :: repeat 500 138)
           (repeat 500 138) (PInt 0 :: repeat (PInt 1) 138)
           (repeat (PInt 1) 138)).
  vm_compute. reflexivity.
Defined.

Lemma py_int_raises_ValueError (f : pyval) (ex : exn) :
  py_int f = Raise ex -> ex = ValueError.
Proof.
  destruct f as [z | b | s]; simpl; try discriminate.
  destruct (int_of_str s); [discriminate |]. intros H. now injection H.
Qed.

Lemma removeBadBands_from_unreadable {W V : Type} (spectrum : list V) :
  forall (pw wl : list W) (pb bbl : list pyval),
    length pw = length pb ->
    length wl = length bbl ->
    length spectrum = length bbl ->
    ~ flags_readable bbl ->
    removeBadBands_from (length pw) spectrum (pw ++ wl) (pb ++ bbl)
    = Raise ValueError.
Proof.
  induction spectrum as [| refl rest IH]; intros pw wl pb bbl Hp Hw Hs Hn.
  - destruct bbl; [| discriminate]. exfalso. apply Hn. constructor.
  - destruct bbl as [| f bbl]; [discriminate |].
    destruct wl as [| w wl]; [discriminate |].
    simpl in Hw, Hs.
    cbn [removeBadBands_from].
    rewrite Hp at 1. rewrite getitem_middle. cbn [bind].
    destruct (py_int f) as [n | e] eqn:Hf.
    + assert (Hn' : ~ flags_readable bbl).
      { intros H. apply Hn. constructor; [now rewrite Hf | exact H]. }
      assert (IH' : removeBadBands_from (S (length pw)) rest
                      (pw ++ w :: wl) (pb ++ f :: bbl) = Raise ValueError).
      { specialize (IH (pw ++ [w]) wl (pb ++ [f]) bbl).
        rewrite !length_app in IH. simpl in IH.
        rewrite <- !app_assoc in IH. simpl in IH.
        replace (length pw + 1)%nat with (S (length pw)) in IH by lia.
        apply IH; auto; lia. }
      cbn [bind]. destruct (n =? 1).
      * rewrite getitem_middle. cbn [bind]. rewrite IH'. reflexivity.
      * exact IH'.
    + apply py_int_raises_ValueError in Hf. subst e. reflexivity.
Qed.

Lemma flags_readable_dec (bbl : list pyval) :
  {flags_readable bbl} + {~ flags_readable bbl}.
Proof.
  apply Forall_dec. intros f. apply bool_dec.
Qed.

(** The constructor returns a processor exactly when wavelengths and flags
    have the same length and every flag that is kept after the 139-entry
    alignment can be read as an integer (the first flag of a 139-entry
    list is never read); the processor is then well formed.  In every
    other case the constructor raises [ValueError]. *)
Theorem init_returns_iff {W : Type} (img : Z -> Z -> nat -> Z)
    (wl : list W) (bbl : list pyval) (zones : list string)
    (pos : positions_t) (idx : nat) (msk : option (Z -> Z -> Z))
    (grd : option (Z * Z)) :
  let bo := if (length wl =? 139)%nat then skipn 1 bbl else bbl in
  let wo := if (length wl =? 139)%nat then skipn 1 wl else wl in
  (length wl = length bbl /\ flags_readable bo ->
   init img wl bbl zones pos idx msk grd
   = Ok (mkProcessEnviFile img wo bo zones pos msk grd idx
           (keep_good wo bo)) /\
   well_formed (mkProcessEnviFile img wo bo zones pos msk grd idx
                  (keep_good wo bo))) /\
  (~ (length wl = length bbl /\ flags_readable bo) ->
   init img wl bbl zones pos idx msk grd = Raise ValueError).
Proof.
  intros bo wo.
  assert (Hv : length wl = length bbl ->
               validateWavelengths wl bbl = Ok (wo, bo) /\
               length wo = length bo).
  { intros Hlen.
    assert (Hval : validateWavelengths wl bbl = Ok (wo, bo)).
    { unfold validateWavelengths. rewrite Hlen, Nat.eqb_refl. cbn [negb].
      subst wo bo. rewrite <- Hlen.
      destruct (length wl =? 139)%nat; reflexivity. }
    split; [exact Hval | exact (validateWavelengths_Ok _ _ _ _ Hval)]. }
  split.
  - intros [Hlen Hread]. destruct (Hv Hlen) as [Hval Hlo].
    assert (Hinit : init img wl bbl zones pos idx msk grd
                    = Ok (mkProcessEnviFile img wo bo zones pos msk grd idx
                            (keep_good wo bo))).
    { unfold init.
      rewrite (BandFilter_of_validated wl wo bbl bo Hread Hval).
      reflexivity. }
    split; [exact Hinit |]. exact (init_well_formed _ _ _ _ _ _ _ _ _ Hinit).
  - intros Hn. unfold init, BandFilter.
    destruct (Nat.eq_dec (length wl) (length bbl)) as [Hlen | Hlen].
    + destruct (Hv Hlen) as [Hval Hlo]. rewrite Hval. cbn [bind].
      unfold removeBadBands.
      pose proof (removeBadBands_from_unreadable wo [] wo [] bo eq_refl
                    Hlo Hlo) as Hu.
      cbn [length app] in Hu. rewrite Hu; [reflexivity |].
      intros Hread. apply Hn. auto.
    + unfold validateWavelengths.
      destruct (Nat.eqb_spec (length wl) (length bbl)); [contradiction |].
      reflexivity.
Qed.

Lemma init_returns_iff_witness :
  init demo_image (0 :: repeat 500 138) (PStr "x" :: repeat (PInt 1) 138)
       [] demo_positions 0 None None
  = Ok (mkProcessEnviFile demo_image (repeat 500 138) (repeat (PInt 1) 138)
          [] demo_positions None None 0%nat (repeat 500 138)) /\
  init demo_image [450; 460] [PInt 1; PStr "good"] [] demo_positions 0
       None None
  = Raise ValueError.
Proof.
  split.
  - refine (proj1 (proj1 (init_returns_iff demo_image (0 :: repeat 500 138)
                            (PStr "x" :: repeat (PInt 1) 138) []
                            demo_positions 0 None None) _)).
    split; [reflexivity |].
    change (flags_readable (repeat (PInt 1) 138)).
    apply Forall_forall. intros f Hin. apply repeat_spec in Hin.
    subst f. reflexivity.
  - refine (proj2 (init_returns_iff demo_image [450; 460]
                     [PInt 1; PStr "good"] [] demo_positions 0 None None) _).
    intros [_ H]. cbn in H. inversion H as [| ? ? _ H']. subst.
    inversion H' as [| ? ? Hbad _]. subst. discriminate Hbad.
Defined.

(* ================================================================== *)
(** * Further properties of the calibration and of the tables *)

(** Spectra of different lengths cannot be calibrated against each other
    ([ValueError]), unless one of them has a single entry: a one-entry
    reference divides every soil band. *)
Theorem getCalibratedSpectrum_length_mismatch (soil spectralon : list number)
    (k : float) :
  length soil <> 1%nat ->
  (length spectralon <> 1%nat ->
   length soil <> length spectralon ->
   getCalibratedSpectrum soil spectralon k = Raise ValueError) /\
  (forall r0,
      getCalibratedSpectrum soil [r0] k
      = Ok (Arr1 (map (fun s => (astype_float s / astype_float r0 * k)%float)
                      soil))).
Proof.
  intros Hs. split.
  - intros Hr Hne. unfold getCalibratedSpectrum.
    destruct soil as [| s [| s' soil]];
      destruct spectralon as [| r [| r' spectralon]];
      try contradiction; try reflexivity.
    cbn [squeeze_float np_divide]. rewrite !length_map.
    destruct (Nat.eqb_spec (length (s :: s' :: soil))
                           (length (r :: r' :: spectralon)));
      [contradiction | reflexivity].
  - intros r0. unfold getCalibratedSpectrum.
    destruct soil as [| s [| s' soil]]; try contradiction.
    + reflexivity.
    + cbn [squeeze_float np_divide bind np_scale]. now rewrite !map_map.
Qed.

Lemma getCalibratedSpectrum_length_mismatch_witness :
  getCalibratedSpectrum [NInt 1; NInt 2; NInt 3] [NInt 4; NInt 5] 0.95%float
  = Raise ValueError /\
  getCalibratedSpectrum [NInt 1; NInt 2; NInt 3] [NInt 4] 1%float
  = Ok (Arr1 [0.25%float; 0.5%float; 0.75%float]).
Proof.
  split.
  - refine (proj1 (getCalibratedSpectrum_length_mismatch
                     [NInt 1; NInt 2; NInt 3] [NInt 4; NInt 5] 0.95%float _)
                  _ _); simpl; lia.
  - refine (proj2 (getCalibratedSpectrum_length_mismatch
                     [NInt 1; NInt 2; NInt 3] [NInt 4; NInt 5] 1%float _)
                  (NInt 4)).
    simpl. lia.
Defined.

Lemma firstn_skipn_prefix {A : Type} (xs rest : list A) :
  firstn (length xs) (xs ++ rest) = xs /\ skipn (length xs) (xs ++ rest) = rest.
Proof.
  split.
  - rewrite firstn_app, Nat.sub_diag, firstn_all. cbn [firstn].
    apply app_nil_r.
  - rewrite skipn_app, Nat.sub_diag, skipn_all. reflexivity.
Qed.

Lemma Forall2_of_nth_error {A B : Type} (R : A -> B -> Prop) (l : list A) :
  forall l' : list B,
    length l = length l' ->
    (forall i a b, nth_error l i = Some a -> nth_error l' i = Some b ->
                   R a b) ->
    Forall2 R l l'.
Proof.
  induction l as [| a l IH]; intros [| b l'] Hlen H; try discriminate.
  - constructor.
  - constructor.
    + exact (H 0%nat a b eq_refl eq_refl).
    + apply IH; [simpl in Hlen; lia |].
      intros i a' b' Ha Hb. exact (H (S i) a' b' Ha Hb).
Qed.

(** In a table whose columns are distinct wavelength labels followed by
    named columns, the cells under the wavelength labels are the leading
    cells of a row, label by label. *)
Lemma leading_cells_under_labels {W : Type} (wl : list W)
    (names : list string) (r : list cell) :
  NoDup wl ->
  (length wl <= length r)%nat ->
  Forall2 (cell_under (map LWave wl ++ map LName names) r)
          (map LWave wl) (firstn (length wl) r).
Proof.
  intros Hnd Hlen.
  assert (Hl : length (map (@LWave W) wl) = length (firstn (length wl) r)).
  { rewrite length_map, length_firstn. lia. }
  apply Forall2_of_nth_error; [exact Hl |].
  intros i l c Hi Hc.
  assert (Hlt : (i < length wl)%nat).
  { rewrite <- (length_map (@LWave W)). apply nth_error_Some.
    now rewrite Hi. }
  exists i. split; [| split].
  - rewrite nth_error_app1 by (now rewrite length_map). exact Hi.
  - rewrite nth_error_firstn in Hc.
    destruct (Nat.ltb_spec i (length wl)); [exact Hc | lia].
  - intros j Hj.
    rewrite nth_error_map in Hi.
    destruct (nth_error wl i) as [w |] eqn:Ew; [| discriminate].
    injection Hi as <-.
    destruct (Nat.lt_ge_cases j (length wl)) as [Hjl | Hjl].
    + rewrite nth_error_app1 in Hj by (now rewrite length_map).
      rewrite nth_error_map in Hj.
      destruct (nth_error wl j) as [w' |] eqn:Ew'; [| discriminate].
      injection Hj as ->.
      rewrite NoDup_nth_error in Hnd. apply Hnd; [exact Hjl |].
      now rewrite Ew, Ew'.
    + rewrite nth_error_app2 in Hj by (now rewrite length_map).
      rewrite nth_error_map in Hj.
      destruct (nth_error names _); discriminate.
Qed.

Lemma numeric_prefix_length (n : nat) (row : list cell) :
  numeric_prefix n row -> (n <= length row)%nat.
Proof.
  intros [xs [rest [-> H]]]. rewrite length_app, length_map. lia.
Qed.

(** Calibrating a table laid out as this class lays out its tables (the
    distinct wavelength labels of the processor first, named columns
    after them) against a one-row reference table with the same
    wavelength labels; there is at least one band and at least one row.
    The cells that the wavelength labels select, in both tables, are the
    leading cells of a row.  With a single band and two or more rows the
    column assignment raises [ValueError].  In every other case the table
    is returned: the column labels stay, and every row is calibrated on
    its own, band by band against the reference row, while the cells
    after the bands (grid element and zone labels) are carried over
    untouched. *)
Theorem getCalibratedSpectra_row_by_row {W : Type} (self : ProcessEnviFile W)
    (spectra spectralon : DataFrame W) (k : float) (ref : list number)
    (names : list string) :
  NoDup (wavelengths self) ->
  wavelengths self <> [] ->
  columns spectralon = map LWave (wavelengths self) ->
  rows spectralon = [map CNum ref] ->
  length ref = length (wavelengths self) ->
  columns spectra = map LWave (wavelengths self) ++ map LName names ->
  rows spectra <> [] ->
  Forall (numeric_prefix (length (wavelengths self))) (rows spectra) ->
  (Forall2 (cell_under (columns spectralon) (map CNum ref))
           (map LWave (wavelengths self)) (map CNum ref) /\
   Forall (fun r =>
             Forall2 (cell_under (columns spectra) r)
                     (map LWave (wavelengths self))
                     (firstn (length (wavelengths self)) r))
          (rows spectra)) /\
  (length (wavelengths self) = 1%nat /\ length (rows spectra) <> 1%nat ->
   getCalibratedSpectra self spectra spectralon k = Raise ValueError) /\
  ((length (wavelengths self) = 1%nat -> length (rows spectra) = 1%nat) ->
   exists d,
     getCalibratedSpectra self spectra spectralon k = Ok d /\
     columns d = columns spectra /\
     Forall2 (fun r r' =>
                forall soil rest,
                  r = map CNum soil ++ rest ->
                  length soil = length (wavelengths self) ->
                  r' = map (fun x => CNum (NFloat x))
                           (calibrated_values soil ref k) ++ rest)
             (rows spectra) (rows d)).
Proof.
  intros Hnd _ Hcr Href Hlr Hcs _ Hrows.
  assert (Hnum : numeric_prefix (length (wavelengths self))
                                (hd [] (rows spectralon))).
  { rewrite Href. cbn [hd]. exists ref, []. now rewrite app_nil_r. }
  destruct (calibrated_rows_returned self spectra spectralon k Hnum Hrows)
    as [new_rows Hn].
  split; [split |].
  - pose proof (leading_cells_under_labels (wavelengths self) []
                  (map CNum ref) Hnd) as Hl.
    cbn [map] in Hl. rewrite app_nil_r in Hl. rewrite Hcr.
    rewrite <- Hlr, <- (length_map CNum ref), firstn_all in Hl.
    apply Hl. now rewrite length_map.
  - rewrite Hcs. apply Forall_forall. intros r Hr.
    apply leading_cells_under_labels; [exact Hnd |].
    rewrite Forall_forall in Hrows.
    exact (numeric_prefix_length _ _ (Hrows r Hr)).
  - split.
    + intros [Hone Hmany]. unfold getCalibratedSpectra.
      rewrite Hn. cbn [bind]. rewrite Hone. cbn [Nat.eqb andb].
      destruct (Nat.eqb_spec (length (rows spectra)) 1);
        [contradiction | reflexivity].
    + intros Hone.
      destruct (getCalibratedSpectra_returns self spectra spectralon k
                  Hnum Hrows Hone) as [d Hd].
      exists d. split; [exact Hd |].
      unfold getCalibratedSpectra in Hd. rewrite Hn in Hd.
      cbn [bind] in Hd.
      destruct (_ && _)%bool; [discriminate |].
      injection Hd as <-. cbn [columns rows]. split; [reflexivity |].
      apply mapM_Forall2 in Hn.
      eapply Forall2_impl; [| exact Hn].
      intros r r' Hrr soil rest -> Hls. cbn beta in Hrr.
      destruct (firstn_skipn_prefix (map CNum soil) rest) as [Hf Hs].
      rewrite length_map, Hls in Hf, Hs.
      rewrite Hf, Hs, mapM_cell_number in Hrr. cbn [bind] in Hrr.
      rewrite Href in Hrr. cbn [hd] in Hrr.
      rewrite <- Hlr, <- (length_map CNum ref), firstn_all,
        mapM_cell_number in Hrr.
      cbn [bind] in Hrr.
      destruct (getCalibratedSpectrum_same_length soil ref k)
        as [cal [Hc Hv]]; [lia |].
      rewrite Hc in Hrr. cbn [bind] in Hrr. injection Hrr as <-.
      now rewrite Hv.
Qed.

(* ================================================================== *)
(** * Date and time of the header *)

(** The expectations of the test suite, the docstring's header lines, and
    two slices. *)
Example formatTime_tests :
  map (fun ta => formatTime (fst ta) (snd ta))
      [("6:02:24", "A"); ("6:02:24", "P"); ("6:02:24", "PM");
       ("12:30:00", "A"); ("12:30:00", "P"); ("6:02", "A");
       ("x:02:24", "A"); ("x:02:24", "P"); ("6:02:24", "")]%string
  = [Ok "6:02:24"; Ok "18:02:24"; Ok "18:02:24"; Ok "12:30:00";
     Ok "12:30:00"; Raise ValueError; Ok "x:02:24"; Raise ValueError;
     Raise IndexError]%string.
Proof. vm_compute. reflexivity. Qed.

Example readEnviHeader_docstring :
  readEnviHeader
    [("samples", "50");
     ("description",
      String.concat (String newline "")
        ["Date: 05/17/2017,"; "Time: 6:02:24.34 P,"; "Frames: 1"])]%string
  = Ok ("20170517", "18:02:24")%string.
Proof. vm_compute. reflexivity. Qed.

Example py_slice_ex :
  (py_slice "abcdef" 2 (Some (-1)), py_slice "abc" 6 (Some (-6)),
   py_slice "abcdef" (-2) None)%string
  = ("cde", "", "ef")%string.
Proof. vm_compute. reflexivity. Qed.

Lemma split_on_free (sep : ascii) (s : string) :
  free_of sep s -> split_on sep s = [s].
Proof.
  unfold free_of. induction s as [| c r IH]; intros H; [reflexivity |].
  cbn [split_on]. cbn in H.
  destruct (Ascii.eqb_spec c sep) as [-> | _]; [exfalso; apply H; now left |].
  rewrite IH; [reflexivity |]. intros Hin. apply H. now right.
Qed.

Lemma split_on_app (sep : ascii) (a b : string) :
  free_of sep a ->
  split_on sep (a ++ String sep b) = a :: split_on sep b.
Proof.
  unfold free_of. induction a as [| c r IH]; intros H.
  - cbn. now rewrite Ascii.eqb_refl.
  - cbn [append split_on]. cbn in H.
    destruct (Ascii.eqb_spec c sep) as [-> | _];
      [exfalso; apply H; now left |].
    rewrite IH; [reflexivity |]. intros Hin. apply H. now right.
Qed.

Lemma split_three_fields (hh mm ss : string) :
  free_of ":" hh -> free_of ":" mm -> free_of ":" ss ->
  split_on ":" (hh ++ ":" ++ mm ++ ":" ++ ss) = [hh; mm; ss].
Proof.
  intros Hh Hm Hs.
  change (hh ++ ":" ++ mm ++ ":" ++ ss)%string
    with (hh ++ String ":" (mm ++ String ":" ss))%string.
  now rewrite !split_on_app, split_on_free.
Qed.

Lemma py_index_first (c : ascii) (rest : string) :
  py_index (String c rest) 0 = Ok c.
Proof.
  unfold py_index. cbn [String.length].
  destruct (Z.leb_spec (- Z.of_nat (S (String.length rest))) 0); [| lia].
  destruct (Z.ltb_spec 0 (Z.of_nat (S (String.length rest)))); [| lia].
  reflexivity.
Qed.

Lemma formatTime_cases (hh mm ss : string) (c : ascii)
    (rest : string) :
  free_of ":" hh -> free_of ":" mm -> free_of ":" ss ->
  let time := (hh ++ ":" ++ mm ++ ":" ++ ss)%string in
  let ampm := String c rest in
  (c <> "P"%char -> formatTime time ampm = Ok time) /\
  (c = "P"%char ->
   (forall h, int_of_str hh = Some h -> h < 12 ->
              formatTime time ampm
              = Ok (py_str ((h + 12) mod 24) ++ ":" ++ mm ++ ":" ++ ss)%string) /\
   (forall h, int_of_str hh = Some h -> 12 <= h ->
              formatTime time ampm = Ok time) /\
   (int_of_str hh = None -> formatTime time ampm = Raise ValueError)).
Proof.
  intros Hh Hm Hs time ampm. unfold formatTime. subst time ampm.
  rewrite (split_three_fields hh mm ss Hh Hm Hs), py_index_first.
  cbn [bind]. split.
  - intros Hc. destruct (Ascii.eqb_spec c "P"); [contradiction | reflexivity].
  - intros ->. rewrite Ascii.eqb_refl. cbn [py_int]. repeat split.
    + intros h -> Hlt. cbn [bind].
      destruct (Z.ltb_spec h 12); [reflexivity | lia].
    + intros h -> Hge. cbn [bind].
      destruct (Z.ltb_spec h 12); [lia | reflexivity].
    + intros ->. reflexivity.
Qed.

(** A time of three colon-separated fields: when [ampm] does not start
    with "P" the time comes back unchanged, whatever the hour field holds
    (12 AM stays 12, an unreadable hour is not noticed); when it starts
    with "P", an hour below 12 is replaced by the hour plus 12, an hour of
    12 or more leaves the time unchanged, and an unreadable hour raises
    [ValueError]. *)
Theorem formatTime_three_fields (hh mm ss : string) (c : ascii)
    (rest : string) :
  free_of ":" hh -> free_of ":" mm -> free_of ":" ss ->
  let time := (hh ++ ":" ++ mm ++ ":" ++ ss)%string in
  let ampm := String c rest in
  (c <> "P"%char -> formatTime time ampm = Ok time) /\
  (c = "P"%char ->
   (forall h, int_of_str hh = Some h -> h < 12 ->
              formatTime time ampm
              = Ok (py_str ((h + 12) mod 24) ++ ":" ++ mm ++ ":" ++ ss)%string) /\
   (forall h, int_of_str hh = Some h -> 12 <= h ->
              formatTime time ampm = Ok time) /\
   (int_of_str hh = None -> formatTime time ampm = Raise ValueError)).
Proof.
  intros Hh Hm Hs. exact (formatTime_cases hh mm ss c rest Hh Hm Hs).
Qed.

Lemma free_of_decide (c : ascii) (s : string) :
  forallb (fun x => negb (Ascii.eqb x c)) (list_ascii_of_string s) = true ->
  free_of c s.
Proof.
  unfold free_of. intros H Hin. rewrite forallb_forall in H.
  apply H in Hin. now rewrite Ascii.eqb_refl in Hin.
Qed.

Lemma formatTime_three_fields_witness :
  formatTime "12:30:00" "AM" = Ok "12:30:00"%string /\
  formatTime "6:02:24" "PM" = Ok "18:02:24"%string /\
  formatTime "six:02:24" "P" = Raise ValueError.
Proof.
  assert (F : forall s, forallb (fun x => negb (Ascii.eqb x ":"))
                                (list_ascii_of_string s) = true ->
                        free_of ":" s) by (intros s; apply free_of_decide).
  split; [| split].
  - refine (proj1 (formatTime_three_fields "12" "30" "00" "A" "M" _ _ _) _);
      try (apply F; reflexivity). discriminate.
  - refine (proj1 (proj2 (formatTime_three_fields "6" "02" "24" "P" "M"
                            _ _ _) eq_refl) 6 _ _);
      try (apply F; reflexivity); reflexivity.
  - refine (proj2 (proj2 (proj2 (formatTime_three_fields "six" "02" "24" "P"
                                   "" _ _ _) eq_refl)) _);
      try (apply F; reflexivity); reflexivity.
Defined.

Lemma length_split_on (sep : ascii) (s : string) :
  length (split_on sep s)
  = S (count_occ ascii_dec (list_ascii_of_string s) sep).
Proof.
  induction s as [| c r IH]; [reflexivity |].
  cbn [split_on list_ascii_of_string count_occ].
  destruct (Ascii.eqb_spec c sep) as [-> | Hne].
  - destruct (ascii_dec sep sep); [| contradiction]. cbn. now rewrite IH.
  - destruct (ascii_dec c sep); [contradiction |].
    destruct (split_on sep r); [discriminate | exact IH].
Qed.

(** A time that does not hold exactly two colons raises [ValueError],
    whatever [ampm] is; a time that does, together with an empty [ampm],
    raises [IndexError]. *)
Theorem formatTime_malformed (time ampm : string) :
  (count_occ ascii_dec (list_ascii_of_string time) ":"%char <> 2%nat ->
   formatTime time ampm = Raise ValueError) /\
  (count_occ ascii_dec (list_ascii_of_string time) ":"%char = 2%nat ->
   formatTime time "" = Raise IndexError).
Proof.
  pose proof (length_split_on ":" time) as Hl.
  unfold formatTime. split; intros Hc.
  - destruct (split_on ":" time) as [| a [| b [| c [| d l]]]];
      try reflexivity.
    simpl in Hl. lia.
  - destruct (split_on ":" time) as [| a [| b [| c [| d l]]]];
      simpl in Hl; try lia.
    reflexivity.
Qed.

(** Formatting a PM time twice changes nothing more: for a readable hour
    that is not negative, the result of [formatTime] with "P" is returned
    unchanged by a second call. *)
Theorem formatTime_pm_idempotent (hh mm ss rest rest' : string) (h : Z)
    (t' : string) :
  free_of ":" hh -> free_of ":" mm -> free_of ":" ss ->
  int_of_str hh = Some h ->
  0 <= h ->
  formatTime (hh ++ ":" ++ mm ++ ":" ++ ss) (String "P" rest) = Ok t' ->
  formatTime t' (String "P" rest') = Ok t'.
Proof.
  intros Hh Hm Hs Hint Hpos H.
  destruct (formatTime_cases hh mm ss "P" rest Hh Hm Hs)
    as [_ Hp]. destruct (Hp eq_refl) as [Hlt [Hge _]].
  destruct (formatTime_cases hh mm ss "P" rest' Hh Hm Hs)
    as [_ Hp']. destruct (Hp' eq_refl) as [_ [Hge' _]].
  destruct (Z_lt_ge_dec h 12) as [Hl | Hg].
  - rewrite (Hlt h Hint Hl) in H. injection H as <-.
    rewrite Z.mod_small by lia.
    assert (Hk : exists k : string,
               free_of ":" k /\ py_str (h + 12) = k /\
               int_of_str k = Some (h + 12)).
    { assert (E : h = 0 \/ h = 1 \/ h = 2 \/ h = 3 \/ h = 4 \/ h = 5 \/
                  h = 6 \/ h = 7 \/ h = 8 \/ h = 9 \/ h = 10 \/ h = 11)
        by lia.
      repeat (destruct E as [-> | E]); try subst h;
        (eexists; split; [| split; [reflexivity | reflexivity]];
         apply free_of_decide; reflexivity). }
    destruct Hk as [k [Hfree [-> Hparse]]].
    destruct (formatTime_cases k mm ss "P" rest' Hfree Hm Hs)
      as [_ Hq]. destruct (Hq eq_refl) as [_ [Hq' _]].
    apply (Hq' (h + 12) Hparse). lia.
  - rewrite (Hge h Hint) in H by lia. injection H as <-.
    apply (Hge' h Hint). lia.
Qed.

Lemma formatTime_pm_idempotent_witness :
  formatTime "18:02:24" "P" = Ok "18:02:24"%string.
Proof.
  refine (formatTime_pm_idempotent "6" "02" "24" "M" "" 6 "18:02:24"
            _ _ _ _ _ _); try (apply free_of_decide; reflexivity);
    try reflexivity.
  lia.
Defined.

Lemma length_append (a b : string) :
  String.length (a ++ b) = (String.length a + String.length b)%nat.
Proof. induction a as [| c a IH]; simpl; [reflexivity | now rewrite IH]. Qed.

Lemma append_empty_r (a : string) : (a ++ "")%string = a.
Proof. induction a as [| c a IH]; simpl; [reflexivity | now rewrite IH]. Qed.

Lemma substring_prefix (m q : string) :
  substring 0 (String.length m) (m ++ q) = m.
Proof.
  induction m as [| c m IH]; simpl.
  - destruct q; reflexivity.
  - now rewrite IH.
Qed.

Lemma substring_middle (p m q : string) :
  substring (String.length p) (String.length m) (p ++ m ++ q) = m.
Proof.
  induction p as [| c p IH]; simpl; [apply substring_prefix | exact IH].
Qed.

Lemma get_append_at (p : string) (c : ascii) (q : string) :
  get (String.length p) (p ++ String c q) = Some c.
Proof. induction p as [| x p IH]; simpl; [reflexivity | exact IH]. Qed.

(** [s[a:b]] cuts [m] out of [p ++ m ++ q] when the bounds resolve to the
    ends of [m]. *)
Lemma py_slice_middle (p m q : string) (a : Z) (b : option Z) :
  slice_bound (String.length (p ++ m ++ q)) a = String.length p ->
  match b with
  | Some j => slice_bound (String.length (p ++ m ++ q)) j
  | None => String.length (p ++ m ++ q)
  end = (String.length p + String.length m)%nat ->
  py_slice (p ++ m ++ q) a b = m.
Proof.
  intros Ha Hb. unfold py_slice. rewrite Ha, Hb.
  replace (String.length p + String.length m - String.length p)%nat
    with (String.length m) by lia.
  apply substring_middle.
Qed.

Lemma second_line (l1 l2 tail : string) :
  free_of newline l1 -> free_of newline l2 ->
  tail = ""%string \/ (exists r, tail = String newline r) ->
  exists more, split_on newline (l1 ++ String newline (l2 ++ tail))
               = l1 :: l2 :: more.
Proof.
  intros H1 H2 [-> | [r ->]]; rewrite split_on_app by assumption.
  - rewrite append_empty_r, split_on_free by assumption. now exists [].
  - rewrite split_on_app by assumption. eexists. reflexivity.
Qed.

(** Reading date and time by position.  For a description whose first
    line is six characters, a two-character month, one character, a
    two-character day, one character, the year and one closing character,
    and whose second line is six characters, the time, four characters,
    the AM/PM letter and one closing character, the date comes back as
    year, month, day and the time as [formatTime] returns it.  None of
    the fixed characters ("Date: ", the slashes, the commas) is checked. *)
Theorem readEnviHeader_by_position (header : list (string * string))
    (p6 mm dd yyyy q6 t f4 tail : string) (s1 s2 c1 ap c2 : ascii) :
  let dateline :=
    (p6 ++ (mm ++ String s1 (dd ++ String s2 yyyy)) ++ String c1 "")%string in
  let timeline := (q6 ++ t ++ (f4 ++ String ap (String c2 "")))%string in
  header_get header "description"
  = Ok (dateline ++ String newline (timeline ++ tail))%string ->
  String.length p6 = 6%nat -> String.length mm = 2%nat ->
  String.length dd = 2%nat ->
  String.length q6 = 6%nat -> String.length f4 = 4%nat ->
  free_of newline dateline -> free_of newline timeline ->
  tail = ""%string \/ (exists r, tail = String newline r) ->
  readEnviHeader header
  = (time_formatted <- formatTime t (String ap "") ;;
     Ok ((yyyy ++ mm ++ dd)%string, time_formatted)).
Proof.
  intros dateline timeline Hd Lp Lm Ld Lq Lf Fd Ft Htail.
  unfold readEnviHeader. rewrite Hd. cbn [bind].
  destruct (second_line dateline timeline tail Fd Ft Htail) as [more ->].
  cbn [getitem nth_error bind].
  assert (Edate : py_slice dateline 6 (Some (-1))
                  = (mm ++ String s1 (dd ++ String s2 yyyy))%string).
  { subst dateline. apply py_slice_middle;
      rewrite !length_append; cbn [String.length]; rewrite ?length_append;
      cbn [String.length]; unfold slice_bound; cbn [Z.ltb Z.compare]; lia. }
  assert (Etime : py_slice timeline 6 (Some (-6)) = t).
  { subst timeline. apply py_slice_middle;
      rewrite !length_append; cbn [String.length]; rewrite ?length_append;
      cbn [String.length]; unfold slice_bound; cbn [Z.ltb Z.compare]; lia. }
  assert (Eap : py_index timeline (-2) = Ok ap).
  { subst timeline. unfold py_index.
    replace (q6 ++ t ++ f4 ++ String ap (String c2 ""))%string
      with ((q6 ++ t ++ f4) ++ String ap (String c2 ""))%string.
    2:{ clear. induction q6 as [| x q IH]; simpl.
        - induction t as [| y t IHt]; simpl; [reflexivity | now rewrite IHt].
        - now rewrite IH. }
    rewrite length_append. cbn [String.length].
    set (n := String.length (q6 ++ t ++ f4)).
    destruct (Z.leb_spec (- Z.of_nat (n + 2)) (-2)); [| lia].
    destruct (Z.ltb_spec (-2) (Z.of_nat (n + 2))); [| lia].
    cbn [andb Z.ltb Z.compare].
    replace (Z.to_nat (-2 + Z.of_nat (n + 2))) with n by lia.
    subst n. now rewrite get_append_at. }
  rewrite Edate, Etime, Eap. cbn [bind].
  assert (Ey : py_slice (mm ++ String s1 (dd ++ String s2 yyyy)) 6 None
               = yyyy).
  { replace (mm ++ String s1 (dd ++ String s2 yyyy))%string
      with ((mm ++ String s1 (dd ++ String s2 "")) ++ yyyy ++ "")%string.
    2:{ rewrite append_empty_r. clear.
        induction mm as [| x m IH]; simpl.
        - f_equal. induction dd as [| y d IHd]; simpl;
            [reflexivity | now rewrite IHd].
        - now rewrite IH. }
    apply py_slice_middle;
      rewrite !length_append; cbn [String.length]; rewrite ?length_append;
      cbn [String.length]; unfold slice_bound; cbn [Z.ltb Z.compare]; lia. }
  assert (Em : py_slice (mm ++ String s1 (dd ++ String s2 yyyy)) 0 (Some 2)
               = mm).
  { change (mm ++ String s1 (dd ++ String s2 yyyy))%string
      with ("" ++ mm ++ String s1 (dd ++ String s2 yyyy))%string.
    apply py_slice_middle;
      cbn [append]; rewrite !length_append; cbn [String.length];
      rewrite ?length_append; cbn [String.length]; unfold slice_bound;
      cbn [Z.ltb Z.compare]; lia. }
  assert (Edd : py_slice (mm ++ String s1 (dd ++ String s2 yyyy)) 3 (Some 5)
                = dd).
  { replace (mm ++ String s1 (dd ++ String s2 yyyy))%string
      with ((mm ++ String s1 "") ++ dd ++ String s2 yyyy)%string.
    2:{ clear. induction mm as [| x m IH]; simpl;
          [reflexivity | now rewrite IH]. }
    apply py_slice_middle;
      rewrite !length_append; cbn [String.length]; rewrite ?length_append;
      cbn [String.length]; unfold slice_bound; cbn [Z.ltb Z.compare]; lia. }
  rewrite Ey, Em, Edd. reflexivity.
Qed.

Lemma readEnviHeader_by_position_witness :
  readEnviHeader
    [("description",
      String.concat (String newline "")
        ["Date: 05/17/2017,"; "Time: 6:02:24.34 P,"])]%string
  = Ok ("20170517", "18:02:24")%string.
Proof.
  refine (readEnviHeader_by_position
            [("description",
              String.concat (String newline "")
                ["Date: 05/17/2017,"; "Time: 6:02:24.34 P,"])]%string
            "Date: " "05" "17" "2017" "Time: " "6:02:24" ".34 " ""
            "/" "/" "," "P" "," _ _ _ _ _ _ _ _ _);
    try reflexivity; try (apply free_of_decide; reflexivity).
  left. reflexivity.
Defined.

Lemma getCalibratedSpectra_row_by_row_witness :
  (exists d,
     getCalibratedSpectra (demo [] None)
       (mkDataFrame [LWave 450; LWave 470; LName "zone"]
          [[CNum (NInt 10); CNum (NInt 20); CStr "zone1"];
           [CNum (NInt 5); CNum (NInt 40); CStr "zone1"]])
       (mkDataFrame [LWave 450; LWave 470]
          [[CNum (NInt 20); CNum (NInt 20)]])
       0.95%float = Ok d /\
     rows d
     = [[CNum (NFloat 0.475%float); CNum (NFloat 0.95%float); CStr "zone1"];
        [CNum (NFloat 0.2375%float); CNum (NFloat 1.9%float);
         CStr "zone1"]]) /\
  getCalibratedSpectra
    (mkProcessEnviFile demo_image [450] [PInt 1] [] demo_positions None None
                       0%nat [450])
    (mkDataFrame [LWave 450; LName "zone"]
       [[CNum (NInt 10); CStr "zone1"]; [CNum (NInt 5); CStr "zone1"]])
    (mkDataFrame [LWave 450] [[CNum (NInt 20)]])
    0.95%float = Raise ValueError.
Proof.
  split.
  - destruct (proj2 (proj2 (getCalibratedSpectra_row_by_row (demo [] None)
              (mkDataFrame [LWave 450; LWave 470; LName "zone"]
                 [[CNum (NInt 10); CNum (NInt 20); CStr "zone1"];
                  [CNum (NInt 5); CNum (NInt 40); CStr "zone1"]])
              (mkDataFrame [LWave 450; LWave 470]
                 [[CNum (NInt 20); CNum (NInt 20)]])
              0.95%float [NInt 20; NInt 20] ["zone"%string]
              ltac:(repeat constructor; cbn; intuition discriminate)
              ltac:(discriminate)
              eq_refl eq_refl eq_refl eq_refl
              ltac:(discriminate)
              ltac:(repeat constructor;
                    [exists [NInt 10; NInt 20], [CStr "zone1"]
                    | exists [NInt 5; NInt 40], [CStr "zone1"]];
                    split; reflexivity)))
              ltac:(intros H; discriminate H))
      as [d [Hd _]].
    exists d. split; [exact Hd |].
    vm_compute in Hd. injection Hd as <-. reflexivity.
  - refine (proj1 (proj2 (getCalibratedSpectra_row_by_row
              (mkProcessEnviFile demo_image [450] [PInt 1] []
                 demo_positions None None 0%nat [450])
              (mkDataFrame [LWave 450; LName "zone"]
                 [[CNum (NInt 10); CStr "zone1"];
                  [CNum (NInt 5); CStr "zone1"]])
              (mkDataFrame [LWave 450] [[CNum (NInt 20)]])
              0.95%float [NInt 20] ["zone"%string] _ _ eq_refl eq_refl
              eq_refl eq_refl _ _)) _).
    + repeat constructor. intros [].
    + discriminate.
    + discriminate.
    + repeat constructor;
        [exists [NInt 10], [CStr "zone1"] | exists [NInt 5], [CStr "zone1"]];
        split; reflexivity.
    + split; [reflexivity | discriminate].
Defined.

(* ================================================================== *)
(** * The zone table as a whole *)

Lemma NoDup_zone_table_columns {W : Type} (wl : list W) :
  NoDup wl ->
  NoDup (map (@LWave W) wl
         ++ [LName "GridElement_Row"; LName "GridElement_Column";
             LName "zone"]%string).
Proof.
  induction 1 as [| w wl Hin _ IH]; cbn [map app].
  - repeat constructor; cbn; intuition discriminate.
  - constructor; [| exact IH].
    intros H. apply in_app_or in H. destruct H as [H | H].
    + apply in_map_iff in H. destruct H as [w' [E H]].
      injection E as ->. contradiction.
    + cbn in H. intuition discriminate.
Qed.

(** For a processor with at least one good band and pairwise distinct
    good wavelengths: when the reference rectangle and every zone resolve,
    there is at least one zone, the grid cuts every zone exactly and,
    should there be a single good band, into a single cell, the zone table
    is returned; it has one row per grid cell of every zone, and its
    columns, pairwise distinct, are the good wavelengths followed by the
    two grid element columns and the zone column. *)
Theorem zone_table_for_exact_grids {W : Type} (self : ProcessEnviFile W)
    (spec_edges : Edges) :
  well_formed self ->
  NoDup (wavelengths self) ->
  wavelengths self <> [] ->
  getEdgesFromPrefix self "spec" = Ok spec_edges ->
  zone_list self <> [] ->
  Forall (fun zone =>
            exists e, getEdgesFromPrefix self zone = Ok e /\
                      exact_grid (grid self) e /\
                      (length (wavelengths self) = 1%nat ->
                       nominal_cells (grid self) e = 1))
         (zone_list self) ->
  exists df zone_edges,
    getMultipleSpectra self = Ok df /\
    mapM (getEdgesFromPrefix self) (zone_list self) = Ok zone_edges /\
    Z.of_nat (length (rows df))
    = sumZ (map (nominal_cells (grid self)) zone_edges) /\
    length (columns df) = (length (wavelengths self) + 3)%nat /\
    columns df
    = map LWave (wavelengths self)
      ++ [LName "GridElement_Row"; LName "GridElement_Column";
          LName "zone"]%string /\
    NoDup (columns df).
Proof.
  intros Hwf Hnd _ Hspec Hne Hz.
  destruct (getMultipleSpectra_returns self spec_edges Hwf Hspec Hne Hz)
    as [df [es [Hdf [Hes [Hr Hc]]]]].
  pose proof (getMultipleSpectra_columns self df Hwf Hdf) as Hcols.
  exists df, es. repeat split; try assumption.
  rewrite Hcols. now apply NoDup_zone_table_columns.
Qed.

Lemma zone_table_for_exact_grids_witness :
  exists df zone_edges,
    getMultipleSpectra (demo ["zone1"; "zone2"]%string (Some (0, 0))) = Ok df /\
    mapM (getEdgesFromPrefix (demo ["zone1"; "zone2"]%string (Some (0, 0))))
         ["zone1"; "zone2"]%string = Ok zone_edges /\
    Z.of_nat (length (rows df))
    = sumZ (map (nominal_cells (Some (0, 0))) zone_edges) /\
    length (columns df) = (2 + 3)%nat /\
    columns df
    = [LWave 450; LWave 470; LName "GridElement_Row";
       LName "GridElement_Column"; LName "zone"]%string /\
    NoDup (columns df).
Proof.
  apply (zone_table_for_exact_grids
           (demo ["zone1"; "zone2"]%string (Some (0, 0)))
           (mkEdges 30 35 18 25)).
  - refine (init_well_formed demo_image [450; 460; 470]
              [PStr "1"; PStr "0"; PStr "1"] ["zone1"; "zone2"]%string
              demo_positions 0 None (Some (0, 0)) _ _).
    reflexivity.
  - repeat constructor; cbn; intuition discriminate.
  - discriminate.
  - reflexivity.
  - discriminate.
  - repeat constructor.
    + exists (mkEdges 10 15 5 8). split; [reflexivity |].
      split; [| intros Hx; discriminate Hx].
      vm_compute. repeat split; first [reflexivity | intros Hx; discriminate Hx].
    + exists (mkEdges 25 28 15 18). split; [reflexivity |].
      split; [| intros Hx; discriminate Hx].
      vm_compute. repeat split; first [reflexivity | intros Hx; discriminate Hx].
Defined.

(** A zone table is returned only if the reference rectangle and every
    zone resolve and there is at least one zone; whenever it is returned,
    it has one row per configured grid cell of every zone and three
    columns more than there are good bands. *)
Theorem zone_table_only_when_all_resolve {W : Type}
    (self : ProcessEnviFile W) (df : DataFrame W) :
  well_formed self ->
  getMultipleSpectra self = Ok df ->
  zone_list self <> [] /\
  (exists spec_edges, getEdgesFromPrefix self "spec" = Ok spec_edges) /\
  exists zone_edges,
    mapM (getEdgesFromPrefix self) (zone_list self) = Ok zone_edges /\
    Z.of_nat (length (rows df))
    = sumZ (map (nominal_cells (grid self)) zone_edges) /\
    length (columns df) = (length (wavelengths self) + 3)%nat.
Proof.
  intros Hwf H.
  destruct (getMultipleSpectra_shape self df Hwf H) as [es Hes].
  split; [| split; [| exists es; exact Hes]].
  - intros Hnil. unfold getMultipleSpectra in H. rewrite Hnil in H.
    apply bind_Ok_inv in H. destruct H as [se [_ H]].
    apply bind_Ok_inv in H. destruct H as [ds [_ H]].
    discriminate H.
  - unfold getMultipleSpectra in H.
    apply bind_Ok_inv in H. destruct H as [se [Hse _]]. now exists se.
Qed.

Lemma zone_table_only_when_all_resolve_witness :
  exists df,
    getMultipleSpectra (demo ["zone1"]%string (Some (2, 3))) = Ok df /\
    Z.of_nat (length (rows df)) = 6 /\
    length (columns df) = 5%nat.
Proof.
  assert (E : exists df,
             getMultipleSpectra (demo ["zone1"]%string (Some (2, 3))) = Ok df)
    by (vm_compute; eexists; reflexivity).
  destruct E as [df E]. exists df. split; [exact E |].
  assert (Hwf : well_formed (demo ["zone1"]%string (Some (2, 3)))).
  { refine (init_well_formed demo_image [450; 460; 470]
              [PStr "1"; PStr "0"; PStr "1"] ["zone1"]%string
              demo_positions 0 None (Some (2, 3)) _ _).
    reflexivity. }
  destruct (zone_table_only_when_all_resolve _ df Hwf E)
    as [_ [_ [es [Hes [Hr Hc]]]]].
  vm_compute in Hes. injection Hes as <-.
  split; [exact Hr | exact Hc].
Defined.

(* ================================================================== *)
(** * Masks *)

(** The expectations of the test suite. *)
Example getWoodenBarMask_test :
  getWoodenBarMask (NInt 5, NInt 5) (NInt 10, NFloat 6) (NFloat 2) (50, 50)
  = [(1, 4); (2, 4); (6, 5); (11, 6); (16, 7); (21, 8);
     (26, 9); (31, 10); (36, 11); (41, 12); (46, 13)].
Proof. vm_compute. reflexivity. Qed.

Example getLineFromPoints_test :
  getLineFromPoints (NInt 5, NInt 5) (NFloat 7.5, NFloat 7.5)
  = (1%float, 0%float).
Proof. vm_compute. reflexivity. Qed.

Lemma NoDup_py_range (n : Z) : NoDup (py_range n).
Proof.
  unfold py_range. apply NoDup_map_inj; [| apply seq_NoDup].
  intros x y H. lia.
Qed.

(** The pixels of a bar are pairwise different and all lie inside the
    image, so that writing them into the mask never leaves the array. *)
Theorem getWoodenBarMask_inside_image (point1 point2 : number * number)
    (height : number) (imageshape : Z * Z) :
  NoDup (getWoodenBarMask point1 point2 height imageshape) /\
  forall x y,
    In (x, y) (getWoodenBarMask point1 point2 height imageshape) ->
    0 <= x < fst imageshape /\ 0 <= y < snd imageshape.
Proof.
  unfold getWoodenBarMask. split.
  - apply NoDup_filter, NoDup_list_prod; apply NoDup_py_range.
  - intros x y H. apply filter_In in H. destruct H as [H _].
    apply in_prod_iff in H. now rewrite !In_py_range in H.
Qed.

Lemma nan_mul_l (x y : float) : is_nan x -> is_nan (x * y).
Proof.
  unfold is_nan. intros H. rewrite mul_spec, H.
  unfold SF64mul, SFmul. destruct (Prim2SF y); reflexivity.
Qed.

Lemma nan_add_l (x y : float) : is_nan x -> is_nan (x + y).
Proof.
  unfold is_nan. intros H. rewrite add_spec, H.
  unfold SF64add, SFadd. destruct (Prim2SF y); reflexivity.
Qed.

Lemma nan_ltb_l (x y : float) : is_nan x -> (x <? y)%float = false.
Proof.
  unfold is_nan. intros H. rewrite ltb_spec, H.
  unfold SFltb, SFcompare. destruct (Prim2SF y); reflexivity.
Qed.

Lemma zero_over_zero_is_nan : is_nan (Z2float 0 / Z2float 0).
Proof. vm_compute. reflexivity. Qed.

Lemma filter_none {A : Type} (f : A -> bool) (l : list A) :
  (forall a, f a = false) -> filter f l = [].
Proof.
  intros H. induction l as [| a l IH]; simpl; [reflexivity |].
  now rewrite H.
Qed.

(** A bar whose two points coincide (as in the rows of unused bars) has
    slope 0/0 = nan: it holds no pixel, whatever its height and the image
    shape, and nothing is raised. *)
Theorem coinciding_points_give_empty_bar (x y height : Z)
    (imageshape : Z * Z) :
  getWoodenBarMask (NInt x, NInt y) (NInt x, NInt y) (NInt height) imageshape
  = [].
Proof.
  unfold getWoodenBarMask, getLineFromPoints.
  cbn [fst snd num_sub num_add astype_float].
  rewrite !Z.sub_diag. apply filter_none. intros [px py]. cbn [fst snd].
  rewrite nan_ltb_l; [reflexivity |].
  apply nan_add_l, nan_mul_l, zero_over_zero_is_nan.
Qed.

Lemma nth_map_indexed {A B : Type} (f : nat -> A -> B) (l : list A)
    (da : A) (db : B) :
  forall s i,
    (i < length l)%nat ->
    nth i (map (fun p => f (fst p) (snd p)) (combine (seq s (length l)) l)) db
    = f (s + i)%nat (nth i l da).
Proof.
  induction l as [| a l IH]; intros s i Hi; [simpl in Hi; lia |].
  destruct i as [| i]; cbn [length seq combine map nth fst snd].
  - now rewrite Nat.add_0_r.
  - rewrite IH by (simpl in Hi; lia). f_equal. lia.
Qed.

Lemma length_map_indexed {A B : Type} (f : nat * A -> B) (l : list A)
    (s : nat) :
  length (map f (combine (seq s (length l)) l)) = length l.
Proof. rewrite length_map, length_combine, length_seq. lia. Qed.

Lemma zero_where_nth (sel : nat -> nat -> bool) (m : list (list Z))
    (r c : nat) :
  nth c (nth r (zero_where sel m) []) 0
  = if sel r c then 0 else nth c (nth r m []) 0.
Proof.
  unfold zero_where.
  destruct (Nat.lt_ge_cases r (length m)) as [Hr | Hr].
  - rewrite (nth_map_indexed
               (fun i row =>
                  map (fun jv => if sel i (fst jv) then 0 else snd jv)
                      (combine (seq 0 (length row)) row))
               m [] [] 0 r Hr).
    cbn [Nat.add]. set (row := nth r m []).
    destruct (Nat.lt_ge_cases c (length row)) as [Hc | Hc].
    + now rewrite (nth_map_indexed (fun j v => if sel r j then 0 else v)
                     row 0 0 0 c Hc).
    + rewrite !nth_overflow; [now destruct (sel r c) | exact Hc |].
      now rewrite length_map_indexed.
  - rewrite (nth_overflow _ [])
      by (rewrite length_map, length_combine, length_seq; lia).
    rewrite (nth_overflow m []) by exact Hr.
    destruct c; now destruct (sel r _).
Qed.

Lemma nth_repeat_lt {A : Type} (a d : A) (n i : nat) :
  (i < n)%nat -> nth i (repeat a n) d = a.
Proof.
  revert i. induction n as [| n IH]; intros i Hi; [lia |].
  destruct i; simpl; [reflexivity | apply IH; lia].
Qed.

Lemma ones_nth (n_rows n_cols r c : nat) :
  nth c (nth r (repeat (repeat 1 n_cols) n_rows) []) 0
  = if ((r <? n_rows)%nat && (c <? n_cols)%nat)%bool then 1 else 0.
Proof.
  destruct (Nat.ltb_spec r n_rows) as [Hr | Hr]; cbn [andb].
  - rewrite (nth_repeat_lt _ [] n_rows r Hr).
    destruct (Nat.ltb_spec c n_cols) as [Hc | Hc].
    + now apply nth_repeat_lt.
    + apply nth_overflow. now rewrite repeat_length.
  - rewrite (nth_overflow _ []) by (now rewrite repeat_length).
    now destruct c.
Qed.

Lemma listed_In (pixels : list (Z * Z)) (r c : nat) :
  listed pixels r c = true <-> In (Z.of_nat r, Z.of_nat c) pixels.
Proof.
  unfold listed. rewrite existsb_exists. split.
  - intros [[x y] [Hin H]]. cbn [fst snd] in H.
    apply andb_true_iff in H. destruct H as [Hx Hy].
    apply Z.eqb_eq in Hx, Hy. now subst.
  - intros H. exists (Z.of_nat r, Z.of_nat c). split; [exact H |].
    cbn [fst snd]. now rewrite !Z.eqb_refl.
Qed.

(** The mask [getMask] returns, entry by entry. *)
Lemma getMask_result (masks : positions_t) (idx : nat) (n_rows n_cols : Z)
    (sr er sc ec : Z) (b1 b2 b3 b4 : list (Z * Z)) :
  0 <= n_rows -> 0 <= n_cols ->
  frame_get masks "start_row" idx = Ok sr ->
  frame_get masks "end_row" idx = Ok er ->
  frame_get masks "start_col" idx = Ok sc ->
  frame_get masks "end_col" idx = Ok ec ->
  read_bar masks idx (n_rows, n_cols) 1 = Ok b1 ->
  read_bar masks idx (n_rows, n_cols) 2 = Ok b2 ->
  read_bar masks idx (n_rows, n_cols) 3 = Ok b3 ->
  read_bar masks idx (n_rows, n_cols) 4 = Ok b4 ->
  exists m,
    getMask masks idx (n_rows, n_cols) = Ok m /\
    forall r c,
      nth c (nth r m []) 0
      = if ((r <? Z.to_nat n_rows)%nat && (c <? Z.to_nat n_cols)%nat
            && in_window (Z.to_nat n_rows) (Z.to_nat n_cols) sr er sc ec r c
            && negb (listed b1 r c) && negb (listed b2 r c)
            && negb (listed b3 r c) && negb (listed b4 r c))%bool
        then 1 else 0.
Proof.
  intros HR HC Hsr Her Hsc Hec H1 H2 H3 H4.
  unfold getMask, np_ones. cbn [fst snd].
  destruct (Z.ltb_spec n_rows 0); [lia |].
  destruct (Z.ltb_spec n_cols 0); [lia |].
  cbn [orb bind]. rewrite Hsr, Her, Hsc, Hec. cbn [bind foldM].
  rewrite H1. cbn [bind]. rewrite H2. cbn [bind]. rewrite H3. cbn [bind].
  rewrite H4. cbn [bind].
  eexists. split; [reflexivity |].
  intros r c. rewrite !zero_where_nth, ones_nth. unfold in_window.
  destruct (listed b4 r c); [now rewrite ?andb_false_r |].
  destruct (listed b3 r c); [now rewrite ?andb_false_r |].
  destruct (listed b2 r c); [now rewrite ?andb_false_r |].
  destruct (listed b1 r c); [now rewrite ?andb_false_r |].
  destruct (slice_bound (Z.to_nat n_cols) ec <=? c)%nat;
    [now rewrite ?andb_false_r |].
  destruct (c <? slice_bound (Z.to_nat n_cols) sc)%nat;
    [now rewrite ?andb_false_r |].
  destruct (slice_bound (Z.to_nat n_rows) er <=? r)%nat;
    [now rewrite ?andb_false_r |].
  destruct (r <? slice_bound (Z.to_nat n_rows) sr)%nat;
    [now rewrite ?andb_false_r |].
  now rewrite ?andb_true_r.
Qed.

Lemma in_window_plain (n_rows n_cols : nat) (sr er sc ec : Z) (r c : nat) :
  0 <= sr -> 0 <= er -> 0 <= sc -> 0 <= ec ->
  (r < n_rows)%nat -> (c < n_cols)%nat ->
  in_window n_rows n_cols sr er sc ec r c = true <->
  sr <= Z.of_nat r < er /\ sc <= Z.of_nat c < ec.
Proof.
  intros Hsr Her Hsc Hec Hr Hc. unfold in_window, slice_bound.
  destruct (Z.ltb_spec sr 0); [lia |]. destruct (Z.ltb_spec er 0); [lia |].
  destruct (Z.ltb_spec sc 0); [lia |]. destruct (Z.ltb_spec ec 0); [lia |].
  rewrite !andb_true_iff, !negb_true_iff.
  rewrite !Nat.ltb_ge, !Nat.leb_gt. lia.
Qed.

Lemma getMask_entries (masks : positions_t) (idx : nat)
    (n_rows n_cols : Z) (sr er sc ec : Z) (b1 b2 b3 b4 : list (Z * Z)) :
  0 <= n_rows -> 0 <= n_cols ->
  frame_get masks "start_row" idx = Ok sr ->
  frame_get masks "end_row" idx = Ok er ->
  frame_get masks "start_col" idx = Ok sc ->
  frame_get masks "end_col" idx = Ok ec ->
  read_bar masks idx (n_rows, n_cols) 1 = Ok b1 ->
  read_bar masks idx (n_rows, n_cols) 2 = Ok b2 ->
  read_bar masks idx (n_rows, n_cols) 3 = Ok b3 ->
  read_bar masks idx (n_rows, n_cols) 4 = Ok b4 ->
  0 <= sr -> 0 <= er -> 0 <= sc -> 0 <= ec ->
  exists m,
    getMask masks idx (n_rows, n_cols) = Ok m /\
    forall row col,
      0 <= row < n_rows -> 0 <= col < n_cols ->
      (mask_at m row col = 0 \/ mask_at m row col = 1) /\
      (mask_at m row col = 1 <->
       sr <= row < er /\ sc <= col < ec /\
       ~ In (row, col) (b1 ++ b2 ++ b3 ++ b4)).
Proof.
  intros HR HC Hsr Her Hsc Hec H1 H2 H3 H4 Psr Per Psc Pec.
  destruct (getMask_result masks idx n_rows n_cols sr er sc ec b1 b2 b3 b4
              HR HC Hsr Her Hsc Hec H1 H2 H3 H4) as [m [Hm Hnth]].
  exists m. split; [exact Hm |].
  intros row col Hrow Hcol. unfold mask_at. rewrite Hnth.
  destruct (Nat.ltb_spec (Z.to_nat row) (Z.to_nat n_rows)); [| lia].
  destruct (Nat.ltb_spec (Z.to_nat col) (Z.to_nat n_cols)); [| lia].
  cbn [andb].
  pose proof (in_window_plain (Z.to_nat n_rows) (Z.to_nat n_cols)
                sr er sc ec (Z.to_nat row) (Z.to_nat col)
                Psr Per Psc Pec ltac:(assumption) ltac:(assumption)) as Hw.
  rewrite !Z2Nat.id in Hw by lia.
  assert (Hb : forall b, listed b (Z.to_nat row) (Z.to_nat col) = true
                         <-> In (row, col) b).
  { intros b. rewrite listed_In, !Z2Nat.id by lia. reflexivity. }
  split.
  - destruct (_ && _)%bool; auto.
  - rewrite !in_app_iff, <- !Hb. destruct Hw as [Hw1 Hw2].
    destruct (in_window _ _ _ _ _ _ _ _);
      destruct (listed b1 _ _); destruct (listed b2 _ _);
      destruct (listed b3 _ _); destruct (listed b4 _ _); cbn;
      intuition (try discriminate; try congruence).
Qed.

(** The mask of [getMask], for a window with non-negative bounds: it has
    the image shape in every entry read below, holds only 0 and 1, and an
    entry inside the image is 1 exactly when the pixel lies inside the
    window [start_row, end_row) x [start_col, end_col) and on none of the
    four bars. *)
Theorem getMask_marks_window_and_bars (masks : positions_t) (idx : nat)
    (n_rows n_cols : Z) (sr er sc ec : Z) (b1 b2 b3 b4 : list (Z * Z)) :
  0 <= n_rows -> 0 <= n_cols ->
  frame_get masks "start_row" idx = Ok sr ->
  frame_get masks "end_row" idx = Ok er ->
  frame_get masks "start_col" idx = Ok sc ->
  frame_get masks "end_col" idx = Ok ec ->
  read_bar masks idx (n_rows, n_cols) 1 = Ok b1 ->
  read_bar masks idx (n_rows, n_cols) 2 = Ok b2 ->
  read_bar masks idx (n_rows, n_cols) 3 = Ok b3 ->
  read_bar masks idx (n_rows, n_cols) 4 = Ok b4 ->
  0 <= sr -> 0 <= er -> 0 <= sc -> 0 <= ec ->
  exists m,
    getMask masks idx (n_rows, n_cols) = Ok m /\
    forall row col,
      0 <= row < n_rows -> 0 <= col < n_cols ->
      (mask_at m row col = 0 \/ mask_at m row col = 1) /\
      (mask_at m row col = 1 <->
       sr <= row < er /\ sc <= col < ec /\
       ~ In (row, col) (b1 ++ b2 ++ b3 ++ b4)).
Proof.
  intros HR HC Hsr Her Hsc Hec H1 H2 H3 H4 Psr Per Psc Pec.
  exact (getMask_entries masks idx n_rows n_cols sr er sc ec b1 b2 b3 b4
           HR HC Hsr Her Hsc Hec H1 H2 H3 H4 Psr Per Psc Pec).
Qed.

Lemma getMask_marks_window_and_bars_witness :
  exists m,
    getMask demo_masks 0 (8, 8) = Ok m /\
    forall row col,
      0 <= row < 8 -> 0 <= col < 8 ->
      (mask_at m row col = 0 \/ mask_at m row col = 1) /\
      (mask_at m row col = 1 <->
       2 <= row < 6 /\ 1 <= col < 7 /\
       ~ In (row, col)
            ([(3, 0); (3, 1); (4, 1); (4, 2); (4, 3); (5, 3); (5, 4);
              (5, 5); (6, 5); (6, 6); (6, 7); (7, 7)] ++ [] ++ [] ++ [])).
Proof.
  apply (getMask_marks_window_and_bars demo_masks 0 8 8 2 6 1 7
           [(3, 0); (3, 1); (4, 1); (4, 2); (4, 3); (5, 3); (5, 4);
            (5, 5); (6, 5); (6, 6); (6, 7); (7, 7)] [] [] []);
    try (vm_compute; reflexivity); lia.
Defined.

Lemma In_available_pixels {W : Type} (self : ProcessEnviFile W)
    (edges : Edges) (row col : Z) :
  In (row, col) (available_pixels self edges) <->
  in_edges edges row col /\ skipped self row col = false.
Proof.
  unfold available_pixels, in_edges.
  rewrite filter_In, in_prod_iff, !In_py_range2. cbn [fst snd].
  now rewrite negb_true_iff.
Qed.

(** The mask of [getMask] in the processor, as [process] passes it on:
    for a rectangle inside the image, the pixels collected for
    aggregation are exactly those of the rectangle that lie outside the
    window or on a bar, that is the entries [getMask] set to 0; no pixel
    that [getMask] left at 1 is ever collected. *)
Theorem pixels_marked_zero_are_aggregated {W : Type}
    (self : ProcessEnviFile W) (masks : positions_t) (idx : nat)
    (n_rows n_cols : Z) (sr er sc ec : Z) (b1 b2 b3 b4 : list (Z * Z))
    (m : list (list Z)) (edges : Edges) :
  frame_get masks "start_row" idx = Ok sr ->
  frame_get masks "end_row" idx = Ok er ->
  frame_get masks "start_col" idx = Ok sc ->
  frame_get masks "end_col" idx = Ok ec ->
  read_bar masks idx (n_rows, n_cols) 1 = Ok b1 ->
  read_bar masks idx (n_rows, n_cols) 2 = Ok b2 ->
  read_bar masks idx (n_rows, n_cols) 3 = Ok b3 ->
  read_bar masks idx (n_rows, n_cols) 4 = Ok b4 ->
  0 <= sr -> 0 <= er -> 0 <= sc -> 0 <= ec ->
  getMask masks idx (n_rows, n_cols) = Ok m ->
  mask self = Some (mask_at m) ->
  0 <= row_start edges -> row_end edges <= n_rows ->
  0 <= col_start edges -> col_end edges <= n_cols ->
  forall row col,
    In (row, col) (available_pixels self edges) <->
    in_edges edges row col /\
    mask_at m row col = 0 /\
    ~ (sr <= row < er /\ sc <= col < ec /\
       ~ In (row, col) (b1 ++ b2 ++ b3 ++ b4)).
Proof.
  intros Hsr Her Hsc Hec H1 H2 H3 H4 Psr Per Psc Pec Hm Hmask
         Hr0 Hr1 Hc0 Hc1 row col.
  rewrite In_available_pixels. unfold skipped. rewrite Hmask.
  split.
  - intros [Hin Hsk]. split; [exact Hin |].
    assert (HR : 0 <= n_rows) by (destruct Hin; lia).
    assert (HC : 0 <= n_cols) by (destruct Hin; lia).
    destruct (getMask_entries masks idx n_rows n_cols sr er sc ec
                b1 b2 b3 b4 HR HC Hsr Her Hsc Hec H1 H2 H3 H4
                Psr Per Psc Pec) as [m' [Hm' Hent]].
    rewrite Hm in Hm'. injection Hm' as <-.
    destruct (Hent row col) as [Hbin Hone];
      [destruct Hin; lia | destruct Hin; lia |].
    apply Z.eqb_neq in Hsk. split.
    + destruct Hbin; [assumption | contradiction].
    + intros Hw. apply Hsk. now apply Hone.
  - intros [Hin [Hzero _]]. split; [exact Hin |].
    apply Z.eqb_neq. lia.
Qed.

Lemma pixels_marked_zero_are_aggregated_witness :
  In (1, 0)
       (available_pixels
          (mkProcessEnviFile demo_image [450] [PInt 1] [] demo_positions
             (Some (mask_at
                [[0; 0; 0; 0; 0; 0; 0; 0]; [0; 0; 0; 0; 0; 0; 0; 0];
                 [0; 1; 1; 1; 1; 1; 1; 0]; [0; 0; 1; 1; 1; 1; 1; 0];
                 [0; 0; 0; 0; 1; 1; 1; 0]; [0; 1; 1; 0; 0; 0; 1; 0];
                 [0; 0; 0; 0; 0; 0; 0; 0]; [0; 0; 0; 0; 0; 0; 0; 0]]))
             None 0%nat [450])
          (mkEdges 1 4 0 3)) <->
    in_edges (mkEdges 1 4 0 3) 1 0 /\
    mask_at [[0; 0; 0; 0; 0; 0; 0; 0]; [0; 0; 0; 0; 0; 0; 0; 0];
             [0; 1; 1; 1; 1; 1; 1; 0]; [0; 0; 1; 1; 1; 1; 1; 0];
             [0; 0; 0; 0; 1; 1; 1; 0]; [0; 1; 1; 0; 0; 0; 1; 0];
             [0; 0; 0; 0; 0; 0; 0; 0]; [0; 0; 0; 0; 0; 0; 0; 0]]
            1 0 = 0 /\
    ~ (2 <= 1 < 6 /\ 1 <= 0 < 7 /\
       ~ In (1, 0)
            ([(3, 0); (3, 1); (4, 1); (4, 2); (4, 3); (5, 3); (5, 4);
              (5, 5); (6, 5); (6, 6); (6, 7); (7, 7)] ++ [] ++ [] ++ [])).
Proof.
  refine (pixels_marked_zero_are_aggregated _ demo_masks 0 8 8 2 6 1 7
            [(3, 0); (3, 1); (4, 1); (4, 2); (4, 3); (5, 3); (5, 4);
             (5, 5); (6, 5); (6, 6); (6, 7); (7, 7)] [] [] [] _ _
            _ _ _ _ _ _ _ _ _ _ _ _ _ _ _ _ _ _ 1 0);
    try (vm_compute; reflexivity); try reflexivity; cbn; lia.
Defined.

(* ================================================================== *)
(** * The nearest date *)

Lemma fold_min_key {A : Type} (key : A -> Z) (r : list A) :
  forall (pre : list A) (b : A) (mid : list A),
    (forall x, In x pre -> key b < key x) ->
    (forall x, In x mid -> key b <= key x) ->
    exists pre' post',
      pre ++ b :: mid ++ r
      = pre' ++ fold_left (fun best y => if key y <? key best then y else best)
                          r b :: post' /\
      (forall x, In x pre' ->
                 key (fold_left (fun best y =>
                                   if key y <? key best then y else best)
                                r b) < key x) /\
      (forall x, In x post' ->
                 key (fold_left (fun best y =>
                                   if key y <? key best then y else best)
                                r b) <= key x).
Proof.
  induction r as [| y r IH]; intros pre b mid Hpre Hmid.
  - exists pre, mid. rewrite app_nil_r. auto.
  - cbn [fold_left]. destruct (Z.ltb_spec (key y) (key b)) as [Hlt | Hge].
    + destruct (IH (pre ++ b :: mid) y []) as [pre' [post' [E H]]].
      * intros x Hx. apply in_app_iff in Hx. destruct Hx as [Hx | [<- | Hx]].
        -- specialize (Hpre x Hx). lia.
        -- exact Hlt.
        -- specialize (Hmid x Hx). lia.
      * intros x [].
      * exists pre', post'. split; [| exact H].
        rewrite <- E. rewrite <- !app_assoc. reflexivity.
    + destruct (IH pre b (mid ++ [y])) as [pre' [post' [E H]]].
      * exact Hpre.
      * intros x Hx. apply in_app_iff in Hx. destruct Hx as [Hx | [<- | []]].
        -- now apply Hmid.
        -- exact Hge.
      * exists pre', post'. split; [| exact H].
        rewrite <- E. rewrite <- !app_assoc. reflexivity.
Qed.

(** [findNearestDate] raises [ValueError] on an empty list; otherwise it
    returns an entry of the list at least absolute distance from [date],
    the first such entry if several are equally near, and with it the
    signed difference (nearest minus date) in minutes. *)
Theorem findNearestDate_first_nearest (total_seconds : Z -> float)
    (date_list : list Z) (date : Z) :
  findNearestDate total_seconds [] date = Raise ValueError /\
  (date_list <> [] ->
   exists nearest pre post,
     findNearestDate total_seconds date_list date
     = Ok (nearest, (total_seconds (nearest - date)%Z / 60)%float) /\
     date_list = pre ++ nearest :: post /\
     (forall x, In x pre -> Z.abs (nearest - date) < Z.abs (x - date)) /\
     (forall x, In x post -> Z.abs (nearest - date) <= Z.abs (x - date))).
Proof.
  split; [reflexivity |]. intros Hne.
  destruct date_list as [| x r]; [contradiction |].
  destruct (fold_min_key (fun t => Z.abs (t - date)) r [] x [])
    as [pre [post [E [Hpre Hpost]]]]; try (intros t []).
  cbn [app] in E.
  eexists. exists pre, post. split; [reflexivity |].
  split; [exact E |]. split; [exact Hpre | exact Hpost].
Qed.

Lemma findNearestDate_first_nearest_witness :
  exists nearest pre post,
    findNearestDate (fun v => (Z2float v / 1e9)%float)
                    [0; 1800000000000; 15300000000000; 1920000000000;
                     1200000000000]
                    1500000000000
    = Ok (nearest, ((Z2float (nearest - 1500000000000)%Z / 1e9) / 60)%float) /\
    [0; 1800000000000; 15300000000000; 1920000000000; 1200000000000]
    = pre ++ nearest :: post /\
    (forall x, In x pre ->
               Z.abs (nearest - 1500000000000) < Z.abs (x - 1500000000000)) /\
    (forall x, In x post ->
               Z.abs (nearest - 1500000000000) <= Z.abs (x - 1500000000000)).
Proof.
  apply (proj2 (findNearestDate_first_nearest
                  (fun v => (Z2float v / 1e9)%float)
                  [0; 1800000000000; 15300000000000; 1920000000000;
                   1200000000000]
                  1500000000000)).
  discriminate.
Defined.

(** The expectation of the test suite: 14:30 is nearest to 14:25, five
    minutes later; an equally near earlier date later in the list does
    not replace it. *)
Example findNearestDate_test :
  findNearestDate (fun v => (Z2float v / 1e9)%float)
                  [0; 1800000000000; 15300000000000; 1920000000000;
                   1200000000000]
                  1500000000000
  = Ok (1800000000000, 5%float).
Proof. vm_compute. reflexivity. Qed.
